(** * s3update: self-update of a Go binary from an S3 bucket

    A shallow embedding of [s3update.go].  Go strings are byte strings
    ([string]); the filesystem is a finite map from paths to files; every
    call that leaves the process (network, filesystem, process control) is a
    primitive of a small monad that threads the filesystem and a schedule of
    injected faults, and records the call in a trace. *)

From Stdlib Require Import String Ascii ZArith Lia List Permutation.
From stdpp Require Import gmap strings list fin_maps.

Open Scope string_scope.

(** ** The Go standard library functions on strings used by the package *)

Module strings.

(** [strings.HasPrefix(s, prefix)] *)
Fixpoint HasPrefix (s prefix : string) {struct prefix} : bool :=
  match prefix with
  | "" => true
  | String a prefix' =>
      match s with
      | "" => false
      | String b s' => Ascii.eqb a b && HasPrefix s' prefix'
      end
  end.

(** [s[n:]], the remainder after [n] bytes (empty when [s] is shorter). *)
Fixpoint drop (n : nat) (s : string) : string :=
  match n, s with
  | O, _ => s
  | S _, "" => ""
  | S k, String _ s' => drop k s'
  end.

(** [s[:n]], the first [n] bytes (all of [s] when it is shorter). *)
Fixpoint take (n : nat) (s : string) : string :=
  match n, s with
  | O, _ => ""
  | S _, "" => ""
  | S k, String c s' => String c (take k s')
  end.

(** [strings.HasSuffix(s, suffix)]:
    [len(s) >= len(suffix) && s[len(s)-len(suffix):] == suffix] *)
Definition HasSuffix (s suffix : string) : bool :=
  (String.length suffix <=? String.length s)%nat &&
  String.eqb (drop (String.length s - String.length suffix) s) suffix.

(** [strings.Contains(s, substr)] *)
Fixpoint Contains (s substr : string) : bool :=
  HasPrefix s substr ||
  match s with
  | "" => false
  | String _ s' => Contains s' substr
  end.

(** The scan of [strings.Replace(s, old, new, -1)] for a non-empty [old]:
    left to right, every non-overlapping occurrence of [old] is replaced;
    [skip] counts the bytes of a matched occurrence still to be passed
    over. *)
Fixpoint replace_scan (old new : string) (skip : nat) (s : string) : string :=
  match s with
  | "" => ""
  | String c s' =>
      match skip with
      | S k => replace_scan old new k s'
      | O =>
          if HasPrefix s old
          then new +:+ replace_scan old new (String.length old - 1) s'
          else String c (replace_scan old new 0 s')
      end
  end.

(** [strings.Replace(s, old, new, -1)].  Every call of the package passes a
    non-empty literal for [old]; Go's treatment of an empty [old]
    (insertion at every rune boundary) is outside this model, which
    returns [s] unchanged there. *)
Definition Replace (s old new : string) : string :=
  match old with
  | "" => s
  | _ => replace_scan old new 0 s
  end.

(** White space as [unicode.IsSpace] defines it, in UTF-8: the six ASCII
    characters, U+0085, U+00A0, U+1680, U+2000..U+200A, U+2028, U+2029,
    U+202F, U+205F and U+3000. *)
Definition b (n : nat) : ascii := ascii_of_nat n.

Definition s1 (x : nat) : string := String (b x) "".
Definition s2 (x y : nat) : string := String (b x) (String (b y) "").
Definition s3 (x y z : nat) : string :=
  String (b x) (String (b y) (String (b z) "")).

Definition white_space : list string :=
  [ s1 9; s1 10; s1 11; s1 12; s1 13; s1 32;
    s2 194 133; s2 194 160; s3 225 154 128;
    s3 226 128 128; s3 226 128 129; s3 226 128 130; s3 226 128 131;
    s3 226 128 132; s3 226 128 133; s3 226 128 134; s3 226 128 135;
    s3 226 128 136; s3 226 128 137; s3 226 128 138;
    s3 226 128 168; s3 226 128 169; s3 226 128 175;
    s3 226 129 159; s3 227 128 128 ].

(** The white-space character [s] starts with, if any. *)
Definition leading_space (s : string) : option string :=
  find (HasPrefix s) white_space.

(** [strings.TrimLeftFunc(s, unicode.IsSpace)] *)
Fixpoint trim_left (skip : nat) (s : string) : string :=
  match s with
  | "" => ""
  | String _ s' =>
      match skip with
      | S k => trim_left k s'
      | O =>
          match leading_space s with
          | Some sp => trim_left (String.length sp - 1) s'
          | None => s
          end
      end
  end.

Fixpoint rev_acc (s acc : string) : string :=
  match s with
  | "" => acc
  | String c s' => rev_acc s' (String c acc)
  end.

Definition rev (s : string) : string := rev_acc s "".

(** The white-space character [s] ends with, if any, found on the
    reversed string. *)
Definition trailing_space (r : string) : option string :=
  find (fun sp => HasPrefix r (rev sp)) white_space.

Fixpoint trim_left_rev (skip : nat) (r : string) : string :=
  match r with
  | "" => ""
  | String _ r' =>
      match skip with
      | S k => trim_left_rev k r'
      | O =>
          match trailing_space r with
          | Some sp => trim_left_rev (String.length sp - 1) r'
          | None => r
          end
      end
  end.

(** [strings.TrimSpace(s)]: leading and trailing white space removed. *)
Definition TrimSpace (s : string) : string :=
  rev (trim_left_rev 0 (rev (trim_left 0 s))).

End strings.

(** [encoding/hex]: [hextable = "0123456789abcdef"], two digits per byte. *)
Module hex.

Definition hextable : string := "0123456789abcdef".

Definition digit (n : nat) : ascii :=
  match String.get n hextable with
  | Some c => c
  | None => "0"%char
  end.

(** [dst[j] = hextable[v>>4]; dst[j+1] = hextable[v&0x0f]] *)
Fixpoint EncodeToString (src : string) : string :=
  match src with
  | "" => ""
  | String v src' =>
      String (digit (nat_of_ascii v / 16))
        (String (digit (nat_of_ascii v mod 16)) (EncodeToString src'))
  end.

End hex.

(** ** Platform and libraries

    [runtime.GOOS] and [runtime.GOARCH] are constants of the build. *)
Class Platform := {
  GOOS : string;
  GOARCH : string
}.

(** ** URL templating *)

(** [generateURL] composes the download or checksum URL depending on version,
    os and architecture. *)
Definition generateURL `{Platform} (bucket pathTemplate version : string) : string :=
  let p := strings.Replace pathTemplate "{{VERSION}}" version in
  let p := strings.Replace p "{{ARCH}}" GOARCH in
  let p := strings.Replace p "{{OS}}" GOOS in
  "https://" +:+ bucket +:+ ".s3.amazonaws.com/" +:+ p.

(** The rendered key alone: the three passes of [generateURL] in the order
    given by [passes], each pass scanning the output of the one before. *)
Definition render_in_order (passes : list (string * string)) (template : string) : string :=
  fold_left (fun p '(old, new) => strings.Replace p old new) passes template.

(** Substitution as the specification words it: literal and non-recursive.
    One scan of the template; at each position the first placeholder of
    [subs] found there is replaced by its value and the scan resumes after
    the placeholder, so that no substituted value is scanned. *)
Fixpoint render_once_scan (subs : list (string * string)) (skip : nat) (s : string) : string :=
  match s with
  | "" => ""
  | String c s' =>
      match skip with
      | S k => render_once_scan subs k s'
      | O =>
          match find (fun sub => strings.HasPrefix s (fst sub)) subs with
          | Some (old, new) => new +:+ render_once_scan subs (String.length old - 1) s'
          | None => String c (render_once_scan subs 0 s')
          end
      end
  end.

Definition render_once (subs : list (string * string)) (template : string) : string :=
  render_once_scan subs 0 template.

(** The three substitutions of one rendering. *)
Definition substitutions (version arch os : string) : list (string * string) :=
  [("{{VERSION}}", version); ("{{ARCH}}", arch); ("{{OS}}", os)].

Fixpoint mem_char (c : ascii) (s : string) : bool :=
  match s with
  | "" => false
  | String d s' => Ascii.eqb c d || mem_char c s'
  end.

(** A value that cannot take part in a placeholder: it is not empty, holds no
    opening brace, and does not begin with a closing brace or a letter of a
    placeholder name.  Every version accepted by [semver.IsValid] (it begins
    with [v] and holds no brace) and every value of [GOOS] and [GOARCH] is
    of this kind. *)
Definition inert (x : string) : bool :=
  match x with
  | "" => false
  | String c _ => negb (mem_char c "}VERSIONARCH")
  end && negb (mem_char "{" x).

(** The functions of [golang.org/x/mod/semver], [crypto/md5],
    [compress/gzip] and [archive/tar] that the package calls.  They are
    pure; the package is verified for every implementation of them. *)
Class Libraries := {
  (** [semver.IsValid(v)] *)
  semver_IsValid : string -> bool;
  (** [semver.Compare(v, w)]: -1, 0 or +1 as [v] orders before, with or
      after [w] in semantic-version precedence. *)
  semver_Compare : string -> string -> Z;
  (** [md5.New()], [Write] of all the bytes, [Sum(nil)]: the 16 bytes. *)
  md5_Sum : string -> string;
  (** [gzip.NewReader] on the bytes of a file: the decompressed stream, or
      an error. *)
  gzip_NewReader : string -> option string;
  (** [tar.NewReader(r).Next()] on a stream: the [Typeflag] of the first
      header and the bytes of its entry, or an error. *)
  tar_Next : string -> option (ascii * string)
}.

(** [tar.TypeReg = '0'] *)
Definition tar_TypeReg : ascii := "0"%char.

(** ** Data model *)

(** [Updater] holds configuration values provided by the program to be
    updated. *)
Record Updater := {
  CurrentVersion : string;
  S3VersionKey : string;
  ChecksumKey : string;
  S3Bucket : string;
  S3ReleaseKey : string;
  Verbose : bool
}.

(** A regular file: its bytes and its permission bits. *)
Record File := {
  data : string;
  perm : N
}.

(** The filesystem, as far as the package touches it: regular files by
    path. *)
Abbreviation FS := (gmap string File).

(** The calls by which the package leaves its own memory. *)
Inductive Call :=
| Print (text : string)               (* fmt.Println, fmt.Printf *)
| HttpGet (url : string)              (* http.Get *)
| Executable                          (* os.Executable *)
| EvalSymlinks (path : string)        (* filepath.EvalSymlinks *)
| Stat (path : string)                (* os.Stat *)
| Rename (oldpath newpath : string)   (* os.Rename *)
| OpenFile (path : string)            (* os.OpenFile, O_RDWR|O_CREATE|O_TRUNC *)
| Copy (path : string)                (* io.Copy(f, body) *)
| Open (path : string)                (* os.Open *)
| Digest (path : string)              (* io.Copy(h, f) *)
| GzipNewReader (path : string)       (* gzip.NewReader(f) *)
| TarNext (path : string)             (* tr.Next() *)
| TarReadAll (path : string)          (* ioutil.ReadAll(tr) *)
| Remove (path : string)              (* os.Remove *)
| Create (path : string)              (* os.Create *)
| Write (path : string)               (* w.Write(data) *)
| Chmod (path : string) (mode : N)    (* os.Chmod *)
| Exec (path : string)                (* syscall.Exec *)
| Exit (code : Z).                    (* os.Exit *)

(** A Go [error] value; [nil] is [None] of [option error]. *)
Inductive error :=
| Errorf (msg : string)               (* fmt.Errorf(msg) *)
| Failed (c : Call)                   (* the error a failed call returns *)
| ErrUnexpectedEOF.                   (* a response body that breaks off *)

(** [err.Error()].  The text of an error of the operating system is not
    modelled beyond the call it comes from. *)
Definition Error (e : error) : string :=
  match e with
  | Errorf msg => msg
  | Failed _ => "call failed"
  | ErrUnexpectedEOF => "unexpected EOF"
  end.

(** The outcome the environment imposes on a filesystem call: none, a
    failure, or a panic inside the call ([progress] is the number of bytes a
    write has already put into the file when it fails or panics).  In this
    package one call can panic: the copy of the response body through the
    progress reader, whose draw function comes from a library and panics on
    some responses (one without a positive [Content-Length] among them).
    Which responses those are is the library's matter: here the schedule
    says whether the copy panics, and after how many bytes.  At any other
    call a [Panics] of the schedule counts as a failure. *)
Inductive Fault :=
| NoFault
| Fails (progress : nat)
| Panics (progress : nat).

Definition no_fault (f : Fault) : bool :=
  match f with
  | NoFault => true
  | Fails _ | Panics _ => false
  end.

(** An HTTP response: the bytes its body delivers, and whether the body ends
    properly after them or breaks off with an error. *)
Record Response := {
  Body : string;
  complete : bool
}.

(** What the process finds around it and does not change. *)
Class Host := {
  (** [os.Getenv] *)
  environ : string -> string;
  (** the answer to [http.Get(url)]; [None] is a transport error *)
  http : string -> option Response;
  (** [os.Executable()] *)
  executable : option string;
  (** [filepath.EvalSymlinks(path)] *)
  symlinks : string -> option string;
  (** the file mode creation mask of the process *)
  umask : N
}.

(** What the process changes: the filesystem, and the faults the filesystem
    calls still to come will meet, in the order of the calls (a call after
    the end of the schedule meets no fault). *)
Record State := {
  fs : FS;
  faults : list Fault
}.

(** One call in the trace of a run: the call, whether it succeeded, and the
    filesystem it left. *)
Record Step := {
  call : Call;
  ok : bool;
  after : FS
}.

(** How a computation ends: it returns to its caller, or the process ends
    ([os.Exit], or a panic that nothing recovers, after which the runtime
    ends the process with status 2), or the process image is replaced
    ([syscall.Exec]). *)
Inductive Completion (A : Type) :=
| Returns (a : A)
| Exits (code : Z)
| Replaced (path : string).

Arguments Returns {A} a.
Arguments Exits {A} code.
Arguments Replaced {A} path.

Record Run (A : Type) := {
  result : Completion A;
  final : State;
  trace : list Step
}.

Arguments result {A} r.
Arguments final {A} r.
Arguments trace {A} r.

(** The monad of the package's functions. *)
Definition Go (A : Type) : Type := State -> Run A.

Definition ret {A : Type} (a : A) : Go A :=
  fun s => {| result := Returns a; final := s; trace := [] |}.

(** A run that follows the calls of [t]. *)
Definition after_calls {A : Type} (t : list Step) (r : Run A) : Run A :=
  {| result := result r; final := final r; trace := t ++ trace r |}.

Definition bind {A B : Type} (m : Go A) (k : A -> Go B) : Go B :=
  fun s =>
    let r := m s in
    match result r with
    | Returns a => after_calls (trace r) (k a (final r))
    | Exits code => {| result := Exits code; final := final r; trace := trace r |}
    | Replaced path => {| result := Replaced path; final := final r; trace := trace r |}
    end.

Notation "x <- m ;; k" := (bind m (fun x => k))
  (at level 100, m at next level, right associativity).
Notation "m ;;; k" := (bind m (fun _ => k))
  (at level 100, right associativity).

(** ** The calls *)

Definition lf : string := String (ascii_of_nat 10) "".

Definition next_fault (s : State) : Fault :=
  match faults s with
  | [] => NoFault
  | f :: _ => f
  end.

Definition exists_at (m : FS) (path : string) : bool :=
  match m !! path with
  | Some _ => true
  | None => false
  end.

(** A call that neither touches the filesystem nor can be made to fail by
    it. *)
Definition observe {A : Type} (c : Call) (good : bool) (a : A) : Go A :=
  fun s =>
    {| result := Returns a; final := s;
       trace := [{| call := c; ok := good; after := fs s |}] |}.

(** A filesystem call: it succeeds when the environment injects no fault and
    the call's own condition [pre] holds, and then has the effect [eff]; a
    failed call leaves the filesystem as it was. *)
Definition fs_call (c : Call) (pre : FS -> bool) (eff : FS -> FS) : Go (option error) :=
  fun s =>
    let good := no_fault (next_fault s) && pre (fs s) in
    let m := if good then eff (fs s) else fs s in
    {| result := Returns (if good then None else Some (Failed c));
       final := {| fs := m; faults := tail (faults s) |};
       trace := [{| call := c; ok := good; after := m |}] |}.

(** A read through an open file: [k] is what the reader makes of the bytes. *)
Definition fs_read {A : Type} (c : Call) (path : string) (k : string -> option A)
    : Go (A + error) :=
  fun s =>
    let r := if no_fault (next_fault s)
             then match fs s !! path with
                  | Some f => k (data f)
                  | None => None
                  end
             else None in
    {| result := Returns (match r with
                          | Some a => inl a
                          | None => inr (Failed c)
                          end);
       final := {| fs := fs s; faults := tail (faults s) |};
       trace := [{| call := c;
                    ok := match r with Some _ => true | None => false end;
                    after := fs s |}] |}.

(** The bytes of the file at [path] become [bytes]: a write at offset 0 of a
    file that has just been truncated or created. *)
Definition write_bytes (path bytes : string) (m : FS) : FS :=
  match m !! path with
  | Some f => <[path := {| data := bytes; perm := perm f |}]> m
  | None => m
  end.

(** A write of [bytes] through an open file; [sound] tells whether the
    source of the bytes delivered them all without error.  A fault leaves
    the bytes written before it in the file. *)
Definition fs_write (c : Call) (path bytes : string) (sound : option error)
    : Go (option error) :=
  fun s =>
    match next_fault s with
    | Fails n | Panics n =>
        let m := write_bytes path (strings.take n bytes) (fs s) in
        {| result := Returns (Some (Failed c));
           final := {| fs := m; faults := tail (faults s) |};
           trace := [{| call := c; ok := false; after := m |}] |}
    | NoFault =>
        let m := write_bytes path bytes (fs s) in
        {| result := Returns sound;
           final := {| fs := m; faults := tail (faults s) |};
           trace := [{| call := c;
                        ok := match sound with None => true | Some _ => false end;
                        after := m |}] |}
    end.

(** [O_CREATE|O_TRUNC]: an existing file is emptied and keeps its mode, a
    missing one is created empty with [mode] (the caller takes the umask
    off). *)
Definition truncate_or_create (path : string) (mode : N) (m : FS) : FS :=
  match m !! path with
  | Some f => <[path := {| data := ""; perm := perm f |}]> m
  | None => <[path := {| data := ""; perm := mode |}]> m
  end.

Definition move (oldpath newpath : string) (m : FS) : FS :=
  match m !! oldpath with
  | Some f => <[newpath := f]> (delete oldpath m)
  | None => m
  end.

Definition set_mode (path : string) (mode : N) (m : FS) : FS :=
  match m !! path with
  | Some f => <[path := {| data := data f; perm := mode |}]> m
  | None => m
  end.

Section Calls.
Context {host : Host} {libs : Libraries}.

Definition os_Getenv (key : string) : string := environ key.

Definition fmt_Print (text : string) : Go unit := observe (Print text) true tt.

Definition http_Get (url : string) : Go (Response + error) :=
  match http url with
  | Some resp => observe (HttpGet url) true (inl resp)
  | None => observe (HttpGet url) false (inr (Failed (HttpGet url)))
  end.

(** [ioutil.ReadAll(resp.Body)]: the bytes read, and the error that ended
    the reading if the body broke off. *)
Definition ioutil_ReadAll (resp : Response) : string * option error :=
  (Body resp, if complete resp then None else Some ErrUnexpectedEOF).

Definition os_Executable : Go (string + error) :=
  match executable with
  | Some path => observe Executable true (inl path)
  | None => observe Executable false (inr (Failed Executable))
  end.

Definition filepath_EvalSymlinks (path : string) : Go (string + error) :=
  match symlinks path with
  | Some real => observe (EvalSymlinks path) true (inl real)
  | None => observe (EvalSymlinks path) false (inr (Failed (EvalSymlinks path)))
  end.

Definition os_Stat (path : string) : Go (option error) :=
  fs_call (Stat path) (fun m => exists_at m path) (fun m => m).

Definition os_Rename (oldpath newpath : string) : Go (option error) :=
  fs_call (Rename oldpath newpath) (fun m => exists_at m oldpath) (move oldpath newpath).

(** [os.OpenFile(path, os.O_RDWR|os.O_CREATE|os.O_TRUNC, mode)]: a file
    that is created gets [mode] less the umask. *)
Definition os_OpenFile (path : string) (mode : N) : Go (option error) :=
  fs_call (OpenFile path) (fun _ => true) (truncate_or_create path (N.ldiff mode umask)).

(** The status with which the runtime ends the process after a panic. *)
Definition panic_status : Z := 2.

(** [io.Copy(f, progressR)]: the body of the response streamed into the
    file through the progress reader.  The reader passes the bytes on and
    draws the progress on the terminal; when its draw function panics, the
    panic goes up through [downloadUpdate] and [AutoUpdate], which recover
    nothing and whose deferred calls only close files: the process ends,
    with the bytes copied so far in the file. *)
Definition io_Copy (path : string) (resp : Response) : Go (option error) :=
  fun s =>
    match next_fault s with
    | Panics n =>
        let m := write_bytes path (strings.take n (Body resp)) (fs s) in
        {| result := Exits panic_status;
           final := {| fs := m; faults := tail (faults s) |};
           trace := [{| call := Copy path; ok := false; after := m |}] |}
    | _ => fs_write (Copy path) path (Body resp) (snd (ioutil_ReadAll resp)) s
    end.

Definition os_Open (path : string) : Go (option error) :=
  fs_call (Open path) (fun m => exists_at m path) (fun m => m).

(** [h := md5.New(); io.Copy(h, f)] and then [h.Sum(nil)] *)
Definition md5_Copy (path : string) : Go (string + error) :=
  fs_read (Digest path) path (fun bytes => Some (md5_Sum bytes)).

Definition os_Remove (path : string) : Go (option error) :=
  fs_call (Remove path) (fun m => exists_at m path) (delete path).

(** [os.Create(path)] is [OpenFile(path, O_RDWR|O_CREATE|O_TRUNC, 0666)]:
    a file that is created gets 0666 less the umask. *)
Definition os_Create (path : string) : Go (option error) :=
  fs_call (Create path) (fun _ => true) (truncate_or_create path (N.ldiff 438 umask)).

Definition file_Write (path bytes : string) : Go (option error) :=
  fs_write (Write path) path bytes None.

Definition os_Chmod (path : string) (mode : N) : Go (option error) :=
  fs_call (Chmod path mode) (fun m => exists_at m path) (set_mode path mode).

(** [syscall.Exec(path, os.Args, os.Environ())]: on success the process
    continues as the program at [path] and the call does not return. *)
Definition syscall_Exec (path : string) : Go (option error) :=
  fun s =>
    let good := no_fault (next_fault s) && exists_at (fs s) path in
    {| result := if good then Replaced path else Returns (Some (Failed (Exec path)));
       final := {| fs := fs s; faults := tail (faults s) |};
       trace := [{| call := Exec path; ok := good; after := fs s |}] |}.

Definition os_Exit {A : Type} (code : Z) : Go A :=
  fun s =>
    {| result := Exits code; final := s;
       trace := [{| call := Exit code; ok := true; after := fs s |}] |}.

End Calls.

(** ** The package *)

Section Package.
Context {platform : Platform} {libs : Libraries} {host : Host}.

(** [validate] ensures every required fields is correctly set. Otherwise
    and error is returned. *)
Definition validate (u : Updater) : option error :=
  if String.eqb (CurrentVersion u) "" then Some (Errorf "no version set")
  else if String.eqb (S3Bucket u) "" then Some (Errorf "no bucket set")
  else if String.eqb (S3ReleaseKey u) "" then Some (Errorf "no s3ReleaseKey set")
  else if String.eqb (S3VersionKey u) "" then Some (Errorf "no s3VersionKey set")
  else None.

Definition fetchRemoteVersion (bucket : string) : Go (string * option error) :=
  r <- http_Get ("https://" +:+ bucket +:+ ".s3.amazonaws.com/VERSION") ;;
  match r with
  | inr err => ret ("", Some err)
  | inl resp =>
      let (body, err) := ioutil_ReadAll resp in
      match err with
      | Some err => ret ("", Some err)
      | None =>
          let remoteVersion := strings.TrimSpace body in
          if negb (semver_IsValid remoteVersion)
          then ret ("", Some (Errorf ("remote version is invalid: " +:+ remoteVersion)))
          else ret (remoteVersion, None)
      end
  end.

Definition untgzFile (filename : string) : Go (option error) :=
  err <- os_Open filename ;;
  match err with
  | Some err => ret (Some err)
  | None =>
  r <- fs_read (GzipNewReader filename) filename gzip_NewReader ;;
  match r with
  | inr err => ret (Some err)
  | inl stream =>
  header <- fs_read (TarNext filename) filename (fun _ => tar_Next stream) ;;
  match header with
  | inr err => ret (Some err)
  | inl (Typeflag, entry) =>
  if negb (Ascii.eqb Typeflag tar_TypeReg)
  then ret (Some (Errorf "gunzipping file: unknown file type"))
  else
  r <- fs_read (TarReadAll filename) filename (fun _ => Some entry) ;;
  match r with
  | inr err => ret (Some err)
  | inl bytes =>
  os_Remove filename ;;;
  err <- os_Create filename ;;
  match err with
  | Some err => ret (Some err)
  | None => file_Write filename bytes
  end end end end end.

(** The progress reader wrapped around the response body ([progressR]) is
    part of [io_Copy]: what it draws is not modelled, its panic is. *)
Definition downloadUpdate (downloadURL checksumURL version : string) : Go (option error) :=
  r <- http_Get downloadURL ;;
  match r with
  | inr err => ret (Some err)
  | inl resp =>
  r <- http_Get checksumURL ;;
  match r with
  | inr err => ret (Some err)
  | inl checksumResp =>
  let (checksumRespBody, err) := ioutil_ReadAll checksumResp in
  match err with
  | Some err => ret (Some err)
  | None =>
  (* follow symlinks *)
  r <- os_Executable ;;
  match r with
  | inr err => ret (Some err)
  | inl currentExecutable =>
  r <- filepath_EvalSymlinks currentExecutable ;;
  match r with
  | inr err => ret (Some err)
  | inl target =>
  (* verify target exists, move to backup *)
  err <- os_Stat target ;;
  match err with
  | Some _ => ret None
  | None =>
  let backup := target +:+ ".bak" in
  os_Rename target backup ;;;
  (* use the same flags that ioutil.WriteFile uses *)
  err <- os_OpenFile target 493 ;;
  match err with
  | Some err => os_Rename backup target ;;; ret (Some err)
  | None =>
  err <- io_Copy target resp ;;
  match err with
  | Some err => os_Rename backup target ;;; ret (Some err)
  | None =>
  err <- os_Open target ;;
  match err with
  | Some err => ret (Some err)
  | None =>
  r <- md5_Copy target ;;
  match r with
  | inr err => os_Rename backup target ;;; ret (Some err)
  | inl sum =>
  if negb (String.eqb checksumRespBody (hex.EncodeToString sum))
  then os_Rename backup target ;;; ret (Some (Errorf (version +:+ " checksum mismatch")))
  else
  err <- (if strings.HasSuffix downloadURL ".tgz" then untgzFile target else ret None) ;;
  match err with
  | Some err => os_Rename backup target ;;; ret (Some err)
  | None =>
  err <- os_Chmod target 493 ;;
  match err with
  | Some err => os_Rename backup target ;;; ret (Some err)
  | None =>
  os_Remove backup ;;;
  fmt_Print ("successfully updated to " +:+ version +:+ lf) ;;;
  (* re-run original command *)
  syscall_Exec target
  end end end end end end end end end end end end.

Definition runAutoUpdate (u : Updater) : Go (option error) :=
  if negb (semver_IsValid (CurrentVersion u))
  then ret (Some (Errorf "invalid local version"))
  else
  let localVersion := CurrentVersion u in
  r <- fetchRemoteVersion (S3Bucket u) ;;
  let (remoteVersion, err) := r : string * option error in
  match err with
  | Some err => ret (Some err)
  | None =>
  if (semver_Compare localVersion remoteVersion =? -1)%Z
  then
    fmt_Print ("upgrading from " +:+ localVersion +:+ " to " +:+ remoteVersion +:+ lf) ;;;
    let downloadURL := generateURL (S3Bucket u) (S3ReleaseKey u) remoteVersion in
    let checksumURL := generateURL (S3Bucket u) (ChecksumKey u) remoteVersion in
    (if Verbose u
     then fmt_Print ("downloadURL: " +:+ downloadURL +:+ lf) ;;;
          fmt_Print ("checksumURL: " +:+ checksumURL +:+ lf)
     else ret tt) ;;;
    err <- downloadUpdate downloadURL checksumURL remoteVersion ;;
    match err with
    | Some err => ret (Some err)
    | None => os_Exit 0
    end
  else
    (if Verbose u
     then fmt_Print ("updater: using the latest version: " +:+ CurrentVersion u +:+ lf)
     else ret tt) ;;;
    ret None
  end.

(** [AutoUpdate] runs synchronously a verification to ensure the binary is
    up-to-date.  If a new version gets released, the download will happen
    automatically.  It's possible to bypass this mechanism by setting the
    S3UPDATE_DISABLED environment variable. *)
Definition AutoUpdate (u : Updater) : Go (option error) :=
  if negb (String.eqb (os_Getenv "S3UPDATE_DISABLED") "")
  then fmt_Print ("s3update: autoupdate disabled" +:+ lf) ;;; ret None
  else
  match validate u with
  | Some err =>
      fmt_Print ("s3update: " +:+ Error err +:+ " - skipping auto update" +:+ lf) ;;;
      ret (Some err)
  | None => runAutoUpdate u
  end.

End Package.

(** ** Reading a trace *)

(** The URL of the version object of a bucket, as [fetchRemoteVersion]
    composes it. *)
Definition version_object (bucket : string) : string :=
  "https://" +:+ bucket +:+ ".s3.amazonaws.com/VERSION".

(** The configuration [u] with another [S3VersionKey]. *)
Definition with_version_key (u : Updater) (key : string) : Updater :=
  {| CurrentVersion := CurrentVersion u;
     S3VersionKey := key;
     ChecksumKey := ChecksumKey u;
     S3Bucket := S3Bucket u;
     S3ReleaseKey := S3ReleaseKey u;
     Verbose := Verbose u |}.

Definition network_calls (t : list Step) : list string :=
  flat_map (fun st => match call st with HttpGet url => [url] | _ => [] end) t.


(** The calls that reach the filesystem. *)
Definition is_filesystem (c : Call) : bool :=
  match c with
  | Print _ | HttpGet _ | Exit _ => false
  | _ => true
  end.

Definition filesystem_calls (t : list Step) : list Call :=
  List.filter is_filesystem (map call t).

(** The bytes of the file at [path], if there is one. *)
Definition content (m : FS) (path : string) : option string :=
  data <$> m !! path.

(** The original executable is kept: its bytes are at the target path or at
    the backup path. *)
Definition original_kept (original target : string) (m : FS) : Prop :=
  content m target = Some original \/ content m (target +:+ ".bak") = Some original.

(** The commit of an update attempt is the removal of the backup. *)
Definition is_commit (target : string) (c : Call) : bool :=
  match c with
  | Remove path => String.eqb path (target +:+ ".bak")
  | _ => false
  end.

(** The filesystems a run passes through before its commit. *)
Fixpoint before_commit (target : string) (t : list Step) : list FS :=
  match t with
  | [] => []
  | st :: t' =>
      if is_commit target (call st) then []
      else after st :: before_commit target t'
  end.

(** ** A platform, libraries and a host to run examples on *)

Definition linux_amd64 : Platform := {| GOOS := "linux"; GOARCH := "amd64" |}.

(** MD5 (RFC 1321) on byte strings, for the examples: words are [Z] modulo
    [2^32]. *)
Module md5.
Open Scope Z_scope.

Definition w32 (x : Z) : Z := x mod 4294967296.

Definition rotl (x : Z) (n : Z) : Z :=
  w32 (Z.lor (Z.shiftl x n) (Z.shiftr x (32 - n))).

Definition not32 (x : Z) : Z := 4294967295 - x.

Definition shifts : list Z :=
  [ 7; 12; 17; 22; 7; 12; 17; 22; 7; 12; 17; 22; 7; 12; 17; 22;
    5; 9; 14; 20; 5; 9; 14; 20; 5; 9; 14; 20; 5; 9; 14; 20;
    4; 11; 16; 23; 4; 11; 16; 23; 4; 11; 16; 23; 4; 11; 16; 23;
    6; 10; 15; 21; 6; 10; 15; 21; 6; 10; 15; 21; 6; 10; 15; 21 ].

Definition sines : list Z :=
  [ 0xd76aa478; 0xe8c7b756; 0x242070db; 0xc1bdceee;
    0xf57c0faf; 0x4787c62a; 0xa8304613; 0xfd469501;
    0x698098d8; 0x8b44f7af; 0xffff5bb1; 0x895cd7be;
    0x6b901122; 0xfd987193; 0xa679438e; 0x49b40821;
    0xf61e2562; 0xc040b340; 0x265e5a51; 0xe9b6c7aa;
    0xd62f105d; 0x02441453; 0xd8a1e681; 0xe7d3fbc8;
    0x21e1cde6; 0xc33707d6; 0xf4d50d87; 0x455a14ed;
    0xa9e3e905; 0xfcefa3f8; 0x676f02d9; 0x8d2a4c8a;
    0xfffa3942; 0x8771f681; 0x6d9d6122; 0xfde5380c;
    0xa4beea44; 0x4bdecfa9; 0xf6bb4b60; 0xbebfbc70;
    0x289b7ec6; 0xeaa127fa; 0xd4ef3085; 0x04881d05;
    0xd9d4d039; 0xe6db99e5; 0x1fa27cf8; 0xc4ac5665;
    0xf4292244; 0x432aff97; 0xab9423a7; 0xfc93a039;
    0x655b59c3; 0x8f0ccc92; 0xffeff47d; 0x85845dd1;
    0x6fa87e4f; 0xfe2ce6e0; 0xa3014314; 0x4e0811a1;
    0xf7537e82; 0xbd3af235; 0x2ad7d2bb; 0xeb86d391 ].

Fixpoint bytes_of (s : string) : list Z :=
  match s with
  | EmptyString => []
  | String c s' => Z.of_nat (nat_of_ascii c) :: bytes_of s'
  end.

Fixpoint string_of (l : list Z) : string :=
  match l with
  | [] => EmptyString
  | x :: l' => String (ascii_of_nat (Z.to_nat x)) (string_of l')
  end.

(** [n] bytes of [x], least significant first. *)
Fixpoint le_bytes (n : nat) (x : Z) : list Z :=
  match n with
  | O => []
  | S k => x mod 256 :: le_bytes k (x / 256)
  end.

Fixpoint le_word (l : list Z) : Z :=
  match l with
  | [] => 0
  | x :: l' => x + 256 * le_word l'
  end.

(** The message, one bit, zeros up to 56 modulo 64, the length in bits. *)
Definition pad (msg : list Z) : list Z :=
  let len := Z.of_nat (length msg) in
  let zeros := Z.to_nat ((55 - len) mod 64) in
  (msg ++ 128 :: repeat 0 zeros ++ le_bytes 8 (8 * len))%list.

(** The words of a block of bytes, four bytes each. *)
Fixpoint words (n : nat) (l : list Z) : list Z :=
  match n with
  | O => []
  | S k => le_word (firstn 4 l) :: words k (skipn 4 l)
  end.

Definition round (M : list Z) (st : Z * Z * Z * Z) (i : Z) : Z * Z * Z * Z :=
  let '(A, B, C, D) := st in
  let '(F, g) :=
    if i <? 16 then (Z.lor (Z.land B C) (Z.land (not32 B) D), i)
    else if i <? 32 then (Z.lor (Z.land D B) (Z.land (not32 D) C), (5 * i + 1) mod 16)
    else if i <? 48 then (Z.lxor (Z.lxor B C) D, (3 * i + 5) mod 16)
    else (Z.lxor C (Z.lor B (not32 D)), (7 * i) mod 16) in
  let F' := w32 (F + A + nth (Z.to_nat i) sines 0 + nth (Z.to_nat g) M 0) in
  (D, w32 (B + rotl F' (nth (Z.to_nat i) shifts 0)), B, C).

Definition block (st : Z * Z * Z * Z) (bytes : list Z) : Z * Z * Z * Z :=
  let M := words 16 bytes in
  let '(A, B, C, D) := fold_left (round M) (map Z.of_nat (seq 0 64)) st in
  let '(a0, b0, c0, d0) := st in
  (w32 (a0 + A), w32 (b0 + B), w32 (c0 + C), w32 (d0 + D)).

Fixpoint blocks (n : nat) (st : Z * Z * Z * Z) (bytes : list Z) : Z * Z * Z * Z :=
  match n with
  | O => st
  | S k => blocks k (block st (firstn 64 bytes)) (skipn 64 bytes)
  end.

Definition Sum (s : string) : string :=
  let bytes := pad (bytes_of s) in
  let '(A, B, C, D) :=
    blocks (length bytes / 64) (0x67452301, 0xefcdab89, 0x98badcfe, 0x10325476) bytes in
  string_of (le_bytes 4 A ++ le_bytes 4 B ++ le_bytes 4 C ++ le_bytes 4 D)%list.

End md5.

(** The releases [vMAJOR], [vMAJOR.MINOR] and [vMAJOR.MINOR.PATCH] of
    [golang.org/x/mod/semver], without pre-release and build suffixes, which
    this stand-in rejects. *)
Module semver.

Definition is_digit (c : ascii) : bool :=
  (48 <=? nat_of_ascii c)%nat && (nat_of_ascii c <=? 57)%nat.

Fixpoint span_digits (v : string) : string * string :=
  match v with
  | "" => ("", "")
  | String c v' =>
      if is_digit c
      then let (t, rest) := span_digits v' in (String c t, rest)
      else ("", v)
  end.

(** A decimal number without leading zero, and what follows it. *)
Definition parseInt (v : string) : option (string * string) :=
  match span_digits v with
  | ("", _) => None
  | (String c t, rest) =>
      if Ascii.eqb c "0" && negb (String.eqb t "") then None
      else Some (String c t, rest)
  end.

Definition after_dot (v : string) : option string :=
  match v with
  | String "." v' => Some v'
  | _ => None
  end.

Definition parse (v : string) : option (string * string * string) :=
  match v with
  | String "v" v =>
      match parseInt v with
      | None => None
      | Some (major, "") => Some (major, "0", "0")
      | Some (major, v) =>
          match after_dot v with
          | None => None
          | Some v =>
              match parseInt v with
              | None => None
              | Some (minor, "") => Some (major, minor, "0")
              | Some (minor, v) =>
                  match after_dot v with
                  | None => None
                  | Some v =>
                      match parseInt v with
                      | Some (patch, "") => Some (major, minor, patch)
                      | _ => None
                      end
                  end
              end
          end
      end
  | _ => None
  end.

Definition IsValid (v : string) : bool :=
  match parse v with
  | Some _ => true
  | None => false
  end.

Definition compareInt (x y : string) : Z :=
  if String.eqb x y then 0%Z
  else if (String.length x <? String.length y)%nat then (-1)%Z
  else if (String.length y <? String.length x)%nat then 1%Z
  else match String.compare x y with
       | Lt => (-1)%Z
       | _ => 1%Z
       end.

Definition Compare (v w : string) : Z :=
  match parse v, parse w with
  | None, None => 0%Z
  | None, Some _ => (-1)%Z
  | Some _, None => 1%Z
  | Some (a, b, c), Some (a', b', c') =>
      if negb (compareInt a a' =? 0)%Z then compareInt a a'
      else if negb (compareInt b b' =? 0)%Z then compareInt b b'
      else compareInt c c'
  end.

End semver.

(** Libraries for the examples: the releases of [semver], MD5, and a
    decoder that takes no file for a gzip archive. *)
Definition example_libraries : Libraries := {|
  semver_IsValid := semver.IsValid;
  semver_Compare := semver.Compare;
  md5_Sum := md5.Sum;
  gzip_NewReader := fun _ => None;
  tar_Next := fun _ => None
|}.

(** A host for the examples: the bucket [releases] publishes [remote] as its
    version and answers the artifact and checksum requests with [artifact]
    and [checksum]; the program runs from [/usr/local/bin/tool], with the
    umask 022. *)
Definition example_host (disabled remote : string) (artifact checksum : Response) : Host := {|
  environ := fun key => if String.eqb key "S3UPDATE_DISABLED" then disabled else "";
  http := fun url =>
    if String.eqb url "https://releases.s3.amazonaws.com/VERSION"
    then Some {| Body := remote; complete := true |}
    else if String.eqb url "https://releases.s3.amazonaws.com/tool-linux-amd64"
    then Some artifact
    else if String.eqb url "https://releases.s3.amazonaws.com/tool-linux-amd64.md5"
    then Some checksum
    else None;
  executable := Some "/usr/local/bin/tool";
  symlinks := fun path => Some path;
  umask := 18
|}.

Definition example_updater : Updater := {|
  CurrentVersion := "v1.0.0";
  S3VersionKey := "VERSION";
  ChecksumKey := "tool-{{OS}}-{{ARCH}}.md5";
  S3Bucket := "releases";
  S3ReleaseKey := "tool-{{OS}}-{{ARCH}}";
  Verbose := false
|}.

Definition example_fs : FS :=
  {[ "/usr/local/bin/tool" := {| data := "old-binary"; perm := 493 |} ]}.

Definition whole (bytes : string) : Response := {| Body := bytes; complete := true |}.

Definition example_target : string := "/usr/local/bin/tool".
Definition example_downloadURL : string := "https://releases.s3.amazonaws.com/tool-linux-amd64".
Definition example_checksumURL : string := "https://releases.s3.amazonaws.com/tool-linux-amd64.md5".

(** The digest of [new-binary], and the digest of another file. *)
Definition digest_of_new_binary : string := "a40b6e451d346c734d1ed1b874607990".
Definition digest_of_other_file : string := "900150983cd24fb0d6963f7d28e17f72".

(** All the bytes of [s] are digits of [hextable]. *)
Fixpoint all_hex (s : string) : bool :=
  match s with
  | "" => true
  | String c s' => mem_char c hex.hextable && all_hex s'
  end.

(** ** The invariant of an attempt *)

(** The original executable is parked at the backup path. *)
Definition parked (original target : string) (m : FS) : Prop :=
  content m (target +:+ ".bak") = Some original.

Definition commits (target : string) (t : list Step) : bool :=
  existsb (fun st => is_commit target (call st)) t.

(** A computation that leaves a parked original where it is: started with
    the original parked, it goes through filesystems that all have it
    parked, ends in one, and does not commit. *)
Definition steady (original target : string) {A : Type} (m : Go A) : Prop :=
  forall s, parked original target (fs s) ->
    Forall (parked original target) (map after (trace (m s))) /\
    parked original target (fs (final (m s))) /\
    commits target (trace (m s)) = false.

(** A computation that keeps the original until it commits: started with
    the original parked, every filesystem it goes through before the commit
    has the original at the target path or at the backup path. *)
Definition closing (original target : string) {A : Type} (m : Go A) : Prop :=
  forall s, parked original target (fs s) ->
    Forall (original_kept original target) (before_commit target (trace (m s))).

(** The bytes at the target path and at the backup path. *)
Definition both (target : string) (m : FS) : option string * option string :=
  (content m target, content m (target +:+ ".bak")).

(** A computation whose errors are settled: when it returns an error, its
    last call is the renaming of the backup over the target, unless the
    error is that of the [os.Open] of the target or that of [syscall.Exec]. *)
Definition settled (target : string) (m : Go (option error)) : Prop :=
  forall s,
    match result (m s) with
    | Returns (Some err) =>
        (exists t st, trace (m s) = (t ++ [st])%list /\
                      call st = Rename (target +:+ ".bak") target) \/
        err = Failed (Open target) \/ err = Failed (Exec target)
    | _ => True
    end.

(** ** Further readings of configurations and traces *)

(** The configuration [u] with another [Verbose] flag. *)
Definition with_verbose (u : Updater) (verbose : bool) : Updater :=
  {| CurrentVersion := CurrentVersion u;
     S3VersionKey := S3VersionKey u;
     ChecksumKey := ChecksumKey u;
     S3Bucket := S3Bucket u;
     S3ReleaseKey := S3ReleaseKey u;
     Verbose := verbose |}.

Definition is_print (c : Call) : bool :=
  match c with
  | Print _ => true
  | _ => false
  end.

(** A trace without what it prints. *)
Definition without_prints (t : list Step) : list Step :=
  List.filter (fun st => negb (is_print (call st))) t.

(** A computation that changes no file outside the paths [P]. *)
Definition touches_only (P : string -> Prop) {A : Type} (m : Go A) : Prop :=
  forall s p, ~ P p -> fs (final (m s)) !! p = fs s !! p.

(** From a filesystem that satisfies [Pre], [m] ends with a completion and
    a filesystem that satisfy [Post], whichever calls fail. *)
Definition triple {A : Type} (Pre : FS -> Prop) (m : Go A)
    (Post : Completion A -> FS -> Prop) : Prop :=
  forall s, Pre (fs s) -> Post (result (m s)) (fs (final (m s))).

(** From a filesystem that satisfies [Pre], [m] returns to its caller, with
    a value and a filesystem that satisfy [Mid]. *)
Definition yields {A : Type} (Pre : FS -> Prop) (m : Go A) (Mid : A -> FS -> Prop) : Prop :=
  forall s, Pre (fs s) -> exists a, result (m s) = Returns a /\ Mid a (fs (final (m s))).

(** A computation that makes no request. *)
Definition offline {A : Type} (m : Go A) : Prop :=
  forall s, network_calls (trace (m s)) = [].

(** ** Further examples *)

(** A configuration without a bucket, and one whose version lacks the [v]
    of a semantic version. *)
Definition bucketless_updater : Updater := {|
  CurrentVersion := "v1.0.0";
  S3VersionKey := "VERSION";
  ChecksumKey := "tool-{{OS}}-{{ARCH}}.md5";
  S3Bucket := "";
  S3ReleaseKey := "tool-{{OS}}-{{ARCH}}";
  Verbose := false
|}.

Definition unprefixed_updater : Updater := {|
  CurrentVersion := "1.0.0";
  S3VersionKey := "VERSION";
  ChecksumKey := "tool-{{OS}}-{{ARCH}}.md5";
  S3Bucket := "releases";
  S3ReleaseKey := "tool-{{OS}}-{{ARCH}}";
  Verbose := false
|}.

(** Libraries for the examples of archives.  The decoders are stand-ins: a
    file that begins with [gz:] is taken for a compressed stream, and the
    first byte of the stream for the type flag of the entry that follows. *)
Definition archive_libraries : Libraries := {|
  semver_IsValid := semver.IsValid;
  semver_Compare := semver.Compare;
  md5_Sum := md5.Sum;
  gzip_NewReader := fun bytes =>
    if strings.HasPrefix bytes "gz:" then Some (strings.drop 3 bytes) else None;
  tar_Next := fun stream =>
    match stream with
    | String flag entry => Some (flag, entry)
    | EmptyString => None
    end
|}.

Definition example_archiveURL : string :=
  "https://releases.s3.amazonaws.com/tool-linux-amd64.tgz".
Definition example_archive_checksumURL : string :=
  "https://releases.s3.amazonaws.com/tool-linux-amd64.tgz.md5".

(** A host that publishes an archive; the umask is 022. *)
Definition archive_host (artifact checksum : Response) : Host := {|
  environ := fun _ => "";
  http := fun url =>
    if String.eqb url example_archiveURL then Some artifact
    else if String.eqb url example_archive_checksumURL then Some checksum
    else None;
  executable := Some "/usr/local/bin/tool";
  symlinks := fun path => Some path;
  umask := 18
|}.

(** An archive with one regular file, one with a directory, and the digest
    of the first. *)
Definition example_archive : string := "gz:0new-binary".
Definition example_directory_archive : string := "gz:5new-binary".
Definition digest_of_archive : string := "8d3daff53142ba75a4cedef5422d252e".

(** The example filesystem with a file beside the executable. *)
Definition example_fs_with_passwd : FS :=
  <["/etc/passwd" := {| data := "root:x:0:0"; perm := 420 |}]> example_fs.

Example TrimSpace_version :
  strings.TrimSpace (String (strings.b 32) ("v1.2.3" +:+ String (strings.b 10) ""))
  = "v1.2.3".
Proof. reflexivity. Qed.

Example Replace_all :
  strings.Replace "a-{{OS}}-{{OS}}" "{{OS}}" "linux" = "a-linux-linux".
Proof. reflexivity. Qed.

Example hex_bytes :
  hex.EncodeToString (String (strings.b 255) (String (strings.b 10) "")) = "ff0a".
Proof. reflexivity. Qed.

Example inert_version : inert "v1.2.3-RC1+build" = true.
Proof. reflexivity. Qed.

Example inert_placeholder : inert "{{OS}}" = false.
Proof. reflexivity. Qed.

Example generateURL_rescans :
  @generateURL {| GOOS := "linux"; GOARCH := "amd64" |} "b" "{{VERSION}}" "{{OS}}"
  = "https://b.s3.amazonaws.com/linux".
Proof. reflexivity. Qed.

(** ** Facts about the string functions *)

Section StringFacts.
Import strings.

Lemma app_cons (c : ascii) (s t : string) : String c s +:+ t = String c (s +:+ t).
Proof. reflexivity. Qed.

Lemma app_nil (t : string) : "" +:+ t = t.
Proof. reflexivity. Qed.

Lemma append_nil_r (s : string) : s +:+ "" = s.
Proof. induction s as [|c s IH]; [reflexivity | now rewrite app_cons, IH]. Qed.

Lemma append_assoc (a b c : string) : (a +:+ b) +:+ c = a +:+ (b +:+ c).
Proof. induction a as [|x a IH]; [reflexivity | now rewrite !app_cons, IH]. Qed.

Lemma HasPrefix_cons (c a : ascii) (s q : string) :
  HasPrefix (String c s) (String a q) = Ascii.eqb a c && HasPrefix s q.
Proof. reflexivity. Qed.

Lemma HasPrefix_app (p s : string) : HasPrefix (p +:+ s) p = true.
Proof.
  induction p as [|c p IH]; [reflexivity |].
  rewrite app_cons. simpl. now rewrite Ascii.eqb_refl, IH.
Qed.

Lemma HasPrefix_split (p s : string) :
  HasPrefix s p = true -> s = p +:+ drop (String.length p) s.
Proof.
  revert s; induction p as [|c p IH]; intros s Hp; simpl in *; [reflexivity |].
  destruct s as [|d s]; [discriminate |].
  apply andb_prop in Hp as [Hc Hs].
  apply Ascii.eqb_eq in Hc; subst d.
  rewrite app_cons. now rewrite <- (IH s Hs).
Qed.

Lemma drop_app_length (p s : string) : drop (String.length p) (p +:+ s) = s.
Proof.
  induction p as [|c p IH]; [now destruct s |].
  rewrite app_cons. simpl. exact IH.
Qed.

Lemma length_drop (n : nat) (s : string) :
  String.length (drop n s) = (String.length s - n)%nat.
Proof.
  revert s; induction n as [|n IH]; intros [|c s]; simpl; try lia.
  apply IH.
Qed.

Lemma mem_char_app (c : ascii) (x y : string) :
  mem_char c (x +:+ y) = mem_char c x || mem_char c y.
Proof.
  induction x as [|d x IH]; [reflexivity |].
  rewrite app_cons. simpl. rewrite IH. now rewrite orb_assoc.
Qed.

(** A pending skip passes over as many bytes and resumes the scan. *)
Lemma replace_scan_skip (old new : string) (k : nat) (s : string) :
  replace_scan old new k s = replace_scan old new 0 (drop k s).
Proof.
  revert k; induction s as [|c s IH]; intros [|k]; try reflexivity.
  simpl replace_scan at 1. simpl drop. apply IH.
Qed.

(** The scan at an occurrence: the occurrence is replaced and the scan
    resumes behind it. *)
Lemma replace_scan_match (c : ascii) (old new s : string) :
  HasPrefix s (String c old) = true ->
  replace_scan (String c old) new 0 s
  = new +:+ replace_scan (String c old) new 0 (drop (S (String.length old)) s).
Proof.
  intros Hp. destruct s as [|d s]; [discriminate |].
  simpl replace_scan. simpl in Hp. rewrite Hp.
  rewrite Nat.sub_0_r, replace_scan_skip. reflexivity.
Qed.

Lemma replace_scan_here (c : ascii) (old new s : string) :
  replace_scan (String c old) new 0 (String c old +:+ s)
  = new +:+ replace_scan (String c old) new 0 s.
Proof.
  rewrite replace_scan_match by apply HasPrefix_app.
  change (S (String.length old)) with (String.length (String c old)).
  now rewrite drop_app_length.
Qed.

(** The scan where no occurrence starts: the byte is kept. *)
Lemma replace_scan_keep (old new : string) (c : ascii) (s : string) :
  HasPrefix (String c s) old = false ->
  replace_scan old new 0 (String c s) = String c (replace_scan old new 0 s).
Proof. intros Hp. simpl replace_scan. simpl in Hp. now rewrite Hp. Qed.

(** A text without the first byte of [old] is copied by the scan, whatever
    follows it. *)
Lemma replace_scan_over (c : ascii) (old new x s : string) :
  mem_char c x = false ->
  replace_scan (String c old) new 0 (x +:+ s)
  = x +:+ replace_scan (String c old) new 0 s.
Proof.
  induction x as [|d x IH]; intros Hx; [reflexivity |].
  simpl in Hx. apply orb_false_elim in Hx as [Hd Hx].
  rewrite app_cons, replace_scan_keep.
  - now rewrite IH.
  - simpl. now rewrite Hd.
Qed.

(** What the output of a scan starts with, the input started with: a
    substituted value contributes its first byte, which [q] does not
    hold. *)
Lemma HasPrefix_replace_scan (old new q : string) (h : ascii) (new' : string) :
  new = String h new' ->
  mem_char h q = false ->
  forall s, HasPrefix (replace_scan old new 0 s) q = true -> HasPrefix s q = true.
Proof.
  intros -> . induction q as [|a q IH]; intros Hq s Hp; [reflexivity |].
  simpl in Hq. apply orb_false_elim in Hq as [Ha Hq].
  destruct s as [|c s]; [discriminate |].
  simpl replace_scan in Hp.
  destruct (HasPrefix (String c s) old) eqn:Hold.
  - rewrite app_cons in Hp. simpl in Hp.
    rewrite Ascii.eqb_sym in Ha. rewrite Ha in Hp. discriminate.
  - simpl in Hp. apply andb_prop in Hp as [Hc Hs].
    simpl. rewrite Hc. simpl. now apply IH.
Qed.

Lemma Contains_app_r (x s q : string) :
  Contains s q = true -> Contains (x +:+ s) q = true.
Proof.
  intros Hs. induction x as [|d x IH]; [exact Hs |].
  rewrite app_cons. simpl. rewrite IH. apply orb_true_r.
Qed.

Lemma Contains_drop (n : nat) (s q : string) :
  Contains s q = false -> Contains (drop n s) q = false.
Proof.
  revert s; induction n as [|n IH]; intros s Hs; [exact Hs |].
  destruct s as [|c s]; [exact Hs |].
  simpl in Hs. apply orb_false_elim in Hs as [_ Hs]. simpl. now apply IH.
Qed.

(** A text without the first byte of [q] holds no start of an occurrence of
    [q]. *)
Lemma Contains_over (c : ascii) (q x s : string) :
  mem_char c x = false ->
  Contains (x +:+ s) (String c q) = Contains s (String c q).
Proof.
  induction x as [|d x IH]; intros Hx; [reflexivity |].
  simpl in Hx. apply orb_false_elim in Hx as [Hd Hx].
  rewrite app_cons. simpl Contains at 1. rewrite Hd. simpl. now apply IH.
Qed.

(** No occurrence of [old]: the scan returns its input. *)
Lemma replace_scan_absent (old new s : string) :
  Contains s old = false -> replace_scan old new 0 s = s.
Proof.
  induction s as [|c s IH]; intros Hs; [reflexivity |].
  simpl in Hs. apply orb_false_elim in Hs as [Hp Hs].
  rewrite replace_scan_keep by exact Hp. now rewrite IH.
Qed.

End StringFacts.

(** ** Three sequential passes against one simultaneous scan *)

Section ThreePasses.
Import strings.

(** Three placeholders, all opening with a brace, in the order of the
    passes, and the values substituted for them. *)
Variables q1 q2 q3 : string.
Variables x1 x2 x3 : string.

Let P1 := String "{" q1.
Let P2 := String "{" q2.
Let P3 := String "{" q3.

(** An earlier pass copies a later placeholder. *)
Hypothesis pass12 : forall s, replace_scan P1 x1 0 (P2 +:+ s) = P2 +:+ replace_scan P1 x1 0 s.
Hypothesis pass13 : forall s, replace_scan P1 x1 0 (P3 +:+ s) = P3 +:+ replace_scan P1 x1 0 s.
Hypothesis pass23 : forall s, replace_scan P2 x2 0 (P3 +:+ s) = P3 +:+ replace_scan P2 x2 0 s.

(** The values scanned by a later pass cannot take part in a placeholder. *)
Variables (h1 h2 : ascii) (x1' x2' : string).
Hypothesis head_x1 : x1 = String h1 x1'.
Hypothesis head_x2 : x2 = String h2 x2'.
Hypothesis open_x1 : mem_char "{" x1 = false.
Hypothesis open_x2 : mem_char "{" x2 = false.
Hypothesis h1_q2 : mem_char h1 q2 = false.
Hypothesis h1_q3 : mem_char h1 q3 = false.
Hypothesis h2_q3 : mem_char h2 q3 = false.

(** The simultaneous scan, by its equations. *)
Variable sim : string -> string.
Hypothesis sim_nil : sim "" = "".
Hypothesis sim_1 : forall s, sim (P1 +:+ s) = x1 +:+ sim s.
Hypothesis sim_2 : forall s, sim (P2 +:+ s) = x2 +:+ sim s.
Hypothesis sim_3 : forall s, sim (P3 +:+ s) = x3 +:+ sim s.
Hypothesis sim_keep : forall c s,
  HasPrefix (String c s) P1 = false ->
  HasPrefix (String c s) P2 = false ->
  HasPrefix (String c s) P3 = false ->
  sim (String c s) = String c (sim s).

Lemma no_new_prefix (old new q new' : string) (h c : ascii) (s : string) :
  new = String h new' ->
  mem_char h q = false ->
  HasPrefix (String c s) (String "{" q) = false ->
  HasPrefix (String c (replace_scan old new 0 s)) (String "{" q) = false.
Proof.
  intros Hnew Hh Hp. rewrite HasPrefix_cons in Hp |- *.
  destruct (Ascii.eqb "{" c); [rewrite andb_true_l in Hp |- * | reflexivity].
  destruct (HasPrefix (replace_scan old new 0 s) q) eqn:Hr; [| reflexivity].
  apply (HasPrefix_replace_scan old new q h new' Hnew Hh) in Hr. congruence.
Qed.

Lemma three_passes_once_le (n : nat) :
  forall t, (String.length t <= n)%nat ->
  replace_scan P3 x3 0 (replace_scan P2 x2 0 (replace_scan P1 x1 0 t)) = sim t.
Proof.
  induction n as [|n IH]; intros t Hn.
  - destruct t; [now rewrite sim_nil | simpl in Hn; lia].
  - destruct t as [|c t]; [now rewrite sim_nil |].
    simpl in Hn.
    assert (Hshort : forall p, (String.length (drop (S (String.length p)) (String c t)) <= n)%nat).
    { intros p. rewrite length_drop. simpl. lia. }
    destruct (HasPrefix (String c t) P1) eqn:E1.
    { apply HasPrefix_split in E1. rewrite E1.
      unfold P1 at 1. rewrite replace_scan_here.
      unfold P2 at 1. rewrite replace_scan_over by exact open_x1.
      unfold P3 at 1. rewrite replace_scan_over by exact open_x1.
      rewrite sim_1. f_equal. apply IH. apply (Hshort q1). }
    destruct (HasPrefix (String c t) P2) eqn:E2.
    { apply HasPrefix_split in E2. rewrite E2.
      rewrite pass12. unfold P2 at 1. rewrite replace_scan_here.
      unfold P3 at 1. rewrite replace_scan_over by exact open_x2.
      rewrite sim_2. f_equal. apply IH. apply (Hshort q2). }
    destruct (HasPrefix (String c t) P3) eqn:E3.
    { apply HasPrefix_split in E3. rewrite E3.
      rewrite pass13, pass23. unfold P3 at 1. rewrite replace_scan_here.
      rewrite sim_3. f_equal. apply IH. apply (Hshort q3). }
    rewrite (replace_scan_keep P1) by exact E1.
    assert (E2' := no_new_prefix P1 x1 q2 x1' h1 c t head_x1 h1_q2 E2).
    assert (E3' := no_new_prefix P1 x1 q3 x1' h1 c t head_x1 h1_q3 E3).
    rewrite (replace_scan_keep P2) by exact E2'.
    assert (E3'' := no_new_prefix P2 x2 q3 x2' h2 c _ head_x2 h2_q3 E3').
    rewrite (replace_scan_keep P3) by exact E3''.
    rewrite sim_keep by assumption. f_equal. apply IH. lia.
Qed.

Lemma three_passes_once (t : string) :
  replace_scan P3 x3 0 (replace_scan P2 x2 0 (replace_scan P1 x1 0 t)) = sim t.
Proof. apply (three_passes_once_le (String.length t)). lia. Qed.

End ThreePasses.

(** ** The templating of [generateURL] *)

Section Templating.
Import strings.

Lemma render_once_scan_skip (subs : list (string * string)) (k : nat) (s : string) :
  render_once_scan subs k s = render_once_scan subs 0 (drop k s).
Proof.
  revert k; induction s as [|c s IH]; intros [|k]; try reflexivity.
  simpl render_once_scan at 1. simpl drop. apply IH.
Qed.

Variables version arch os : string.

Lemma render_once_VERSION (s : string) :
  render_once (substitutions version arch os) ("{{VERSION}}" +:+ s)
  = version +:+ render_once (substitutions version arch os) s.
Proof. reflexivity. Qed.

Lemma render_once_ARCH (s : string) :
  render_once (substitutions version arch os) ("{{ARCH}}" +:+ s)
  = arch +:+ render_once (substitutions version arch os) s.
Proof. reflexivity. Qed.

Lemma render_once_OS (s : string) :
  render_once (substitutions version arch os) ("{{OS}}" +:+ s)
  = os +:+ render_once (substitutions version arch os) s.
Proof. reflexivity. Qed.

Lemma render_once_keep (c : ascii) (s : string) :
  HasPrefix (String c s) "{{VERSION}}" = false ->
  HasPrefix (String c s) "{{ARCH}}" = false ->
  HasPrefix (String c s) "{{OS}}" = false ->
  render_once (substitutions version arch os) (String c s)
  = String c (render_once (substitutions version arch os) s).
Proof.
  intros HV HA HO. unfold render_once.
  change (render_once_scan (substitutions version arch os) 0 (String c s))
    with (match find (fun sub => HasPrefix (String c s) (fst sub))
                  (substitutions version arch os) with
          | Some (old, new) =>
              new +:+ render_once_scan (substitutions version arch os)
                        (String.length old - 1) s
          | None => String c (render_once_scan (substitutions version arch os) 0 s)
          end).
  cbn [find fst substitutions]. now rewrite HV, HA, HO.
Qed.

(** A pass copies the other two placeholders. *)
Lemma pass_VERSION_ARCH x s :
  replace_scan "{{VERSION}}" x 0 ("{{ARCH}}" +:+ s) = "{{ARCH}}" +:+ replace_scan "{{VERSION}}" x 0 s.
Proof. reflexivity. Qed.

Lemma pass_VERSION_OS x s :
  replace_scan "{{VERSION}}" x 0 ("{{OS}}" +:+ s) = "{{OS}}" +:+ replace_scan "{{VERSION}}" x 0 s.
Proof. reflexivity. Qed.

Lemma pass_ARCH_VERSION x s :
  replace_scan "{{ARCH}}" x 0 ("{{VERSION}}" +:+ s) = "{{VERSION}}" +:+ replace_scan "{{ARCH}}" x 0 s.
Proof. reflexivity. Qed.

Lemma pass_ARCH_OS x s :
  replace_scan "{{ARCH}}" x 0 ("{{OS}}" +:+ s) = "{{OS}}" +:+ replace_scan "{{ARCH}}" x 0 s.
Proof. reflexivity. Qed.

Lemma pass_OS_VERSION x s :
  replace_scan "{{OS}}" x 0 ("{{VERSION}}" +:+ s) = "{{VERSION}}" +:+ replace_scan "{{OS}}" x 0 s.
Proof. reflexivity. Qed.

Lemma pass_OS_ARCH x s :
  replace_scan "{{OS}}" x 0 ("{{ARCH}}" +:+ s) = "{{ARCH}}" +:+ replace_scan "{{OS}}" x 0 s.
Proof. reflexivity. Qed.

End Templating.

(** What [inert] gives the proofs. *)
Lemma inert_inv (x : string) :
  inert x = true ->
  exists h x', x = String h x' /\ mem_char "{" x = false /\
    mem_char h "{VERSION}}" = false /\
    mem_char h "{ARCH}}" = false /\
    mem_char h "{OS}}" = false.
Proof.
  destruct x as [|h x']; [discriminate |].
  unfold inert. intros H. apply andb_prop in H as [H1 H2].
  apply negb_true_iff in H1, H2.
  exists h, x'. split; [reflexivity |]. split; [exact H2 |].
  cbn [mem_char] in H1, H2.
  apply orb_false_elim in H2 as [H2 _]. rewrite Ascii.eqb_sym in H2.
  repeat match type of H1 with
         | (_ || _) = false => let E := fresh "E" in apply orb_false_elim in H1 as [E H1]
         end.
  cbn [mem_char]. repeat split; repeat (rewrite ?H2, ?E, ?E0, ?E1, ?E2, ?E3, ?E4, ?E5, ?E6, ?E7, ?E8, ?E9, ?E10; cbn [orb]); reflexivity.
Qed.

Lemma Permutation_3_inv {A : Type} (a b c : A) (l : list A) :
  Permutation l [a; b; c] ->
  l = [a; b; c] \/ l = [a; c; b] \/ l = [b; a; c] \/
  l = [b; c; a] \/ l = [c; a; b] \/ l = [c; b; a].
Proof.
  intros H.
  destruct (Permutation_vs_cons_inv H) as (l1 & l2 & ->).
  apply Permutation_sym, Permutation_cons_app_inv, Permutation_length_2_inv in H.
  destruct l1 as [|x [|y [|z l1]]]; simpl in H; destruct H as [H | H];
    inversion H; subst; simpl; auto 10.
Qed.

(** The passes in any of the six orders agree with the simultaneous scan
    when the three values are inert. *)
Lemma render_in_order_once (version arch os : string) (passes : list (string * string))
    (template : string) :
  inert version = true -> inert arch = true -> inert os = true ->
  Permutation passes (substitutions version arch os) ->
  render_in_order passes template = render_once (substitutions version arch os) template.
Proof.
  intros Hv Ha Ho Hp.
  destruct (inert_inv _ Hv) as (hv & v' & Ev & Bv & Vv & Av & Ov).
  destruct (inert_inv _ Ha) as (ha & a' & Ea & Ba & Va & Aa & Oa).
  destruct (inert_inv _ Ho) as (ho & o' & Eo & Bo & Vo & Ao & Oo).
  apply Permutation_3_inv in Hp.
  destruct Hp as [-> | [-> | [-> | [-> | [-> | ->]]]]];
    unfold render_in_order; cbn [fold_left strings.Replace];
    eapply three_passes_once;
    eauto using render_once_VERSION, render_once_ARCH, render_once_OS,
      pass_VERSION_ARCH, pass_VERSION_OS, pass_ARCH_VERSION, pass_ARCH_OS,
      pass_OS_VERSION, pass_OS_ARCH;
    intros; apply render_once_keep; assumption.
Qed.

(** The URL of [generateURL] is the fixed prefix and the key rendered by the
    passes in the order VERSION, ARCH, OS. *)
Lemma generateURL_passes `{Platform} (bucket template version : string) :
  generateURL bucket template version
  = "https://" +:+ bucket +:+ ".s3.amazonaws.com/"
    +:+ render_in_order (substitutions version GOARCH GOOS) template.
Proof. reflexivity. Qed.

(** A pass creates no occurrence of a placeholder [{q] when the value it
    substitutes holds no opening brace and does not begin with a byte of
    [q]. *)
Lemma Contains_replace_scan_le (old new q new' : string) (h : ascii) (n : nat) :
  new = String h new' ->
  mem_char h q = false ->
  mem_char "{" new = false ->
  forall t, (String.length t <= n)%nat ->
  strings.Contains t (String "{" q) = false ->
  strings.Contains (strings.replace_scan old new 0 t) (String "{" q) = false.
Proof.
  intros Hnew Hh Hb. induction n as [|n IH]; intros t Hn Ht.
  - destruct t; [exact Ht | simpl in Hn; lia].
  - destruct t as [|c t]; [exact Ht |].
    simpl in Hn.
    pose proof Ht as Ht'.
    cbn [strings.Contains] in Ht'. apply orb_false_elim in Ht' as [Hp Ht'].
    destruct (strings.HasPrefix (String c t) old) eqn:Hold.
    + destruct old as [|c0 old]; [|].
      * simpl. rewrite Contains_over by exact Hb.
        destruct t as [|d t]; [exact Ht' |]. apply IH; [simpl in *; lia | exact Ht'].
      * rewrite replace_scan_match by exact Hold.
        rewrite Contains_over by exact Hb.
        apply IH; [rewrite length_drop; simpl; lia |].
        now apply Contains_drop.
    + rewrite replace_scan_keep by exact Hold.
      cbn [strings.Contains].
      rewrite (no_new_prefix old new q new' h c t Hnew Hh Hp).
      apply IH; [lia | exact Ht'].
Qed.

Lemma Contains_replace_scan (old new q : string) (t : string) :
  inert new = true ->
  (q = "{VERSION}}" \/ q = "{ARCH}}" \/ q = "{OS}}") ->
  strings.Contains t (String "{" q) = false ->
  strings.Contains (strings.replace_scan old new 0 t) (String "{" q) = false.
Proof.
  intros Hi Hq Ht.
  destruct (inert_inv _ Hi) as (h & new' & E & B & HV & HA & HO).
  apply (Contains_replace_scan_le old new q new' h (String.length t)); auto.
  destruct Hq as [-> | [-> | ->]]; assumption.
Qed.

Example md5_empty : hex.EncodeToString (md5.Sum "") = "d41d8cd98f00b204e9800998ecf8427e".
Proof. vm_compute. reflexivity. Qed.

Example md5_abc : hex.EncodeToString (md5.Sum "abc") = "900150983cd24fb0d6963f7d28e17f72".
Proof. vm_compute. reflexivity. Qed.

Example md5_two_blocks :
  hex.EncodeToString (md5.Sum "aaaaaaaaaaaaaaaaaaaaaaaaaaaaaaaaaaaaaaaaaaaaaaaaaaaaaaaaaaaa")
  = "cc7ed669cf88f201c3297c6a91e1d18d".
Proof. vm_compute. reflexivity. Qed.

Example semver_order :
  semver.Compare "v1.0.0" "v1.1.0" = (-1)%Z /\ semver.Compare "v1.10.0" "v1.9.0" = 1%Z /\
  semver.Compare "v2" "v2.0.0" = 0%Z /\ semver.IsValid "garbage" = false /\
  semver.IsValid "v01.0.0" = false.
Proof. vm_compute. tauto. Qed.

(** ** Running the calls *)

Lemma backup_ne (target : string) : target +:+ ".bak" <> target.
Proof.
  intros E. apply (f_equal String.length) in E. revert E.
  induction target as [|c t IH]; [discriminate |].
  rewrite app_cons. simpl. intros E. apply IH. congruence.
Qed.

Section Running.
Context {A B : Type}.

Lemma bind_returns (m : Go A) (k : A -> Go B) (s s' : State) (a : A) (t : list Step) :
  m s = {| result := Returns a; final := s'; trace := t |} ->
  bind m k s = after_calls t (k a s').
Proof. intros E. unfold bind. now rewrite E. Qed.

Lemma bind_exits (m : Go A) (k : A -> Go B) (s s' : State) (code : Z) (t : list Step) :
  m s = {| result := Exits code; final := s'; trace := t |} ->
  bind m k s = {| result := Exits code; final := s'; trace := t |}.
Proof. intros E. unfold bind. now rewrite E. Qed.

Lemma bind_replaced (m : Go A) (k : A -> Go B) (s s' : State) (path : string) (t : list Step) :
  m s = {| result := Replaced path; final := s'; trace := t |} ->
  bind m k s = {| result := Replaced path; final := s'; trace := t |}.
Proof. intros E. unfold bind. now rewrite E. Qed.

End Running.

Section FilesystemCalls.

Lemma fs_call_good (c : Call) (pre : FS -> bool) (eff : FS -> FS) (m : FS) (l : list Fault) :
  pre m = true ->
  fs_call c pre eff {| fs := m; faults := NoFault :: l |}
  = {| result := Returns None;
       final := {| fs := eff m; faults := l |};
       trace := [{| call := c; ok := true; after := eff m |}] |}.
Proof. intros E. unfold fs_call. cbn. now rewrite E. Qed.

Lemma fs_call_good_nil (c : Call) (pre : FS -> bool) (eff : FS -> FS) (m : FS) :
  pre m = true ->
  fs_call c pre eff {| fs := m; faults := [] |}
  = {| result := Returns None;
       final := {| fs := eff m; faults := [] |};
       trace := [{| call := c; ok := true; after := eff m |}] |}.
Proof. intros E. unfold fs_call. cbn. now rewrite E. Qed.

Lemma fs_call_fault (c : Call) (pre : FS -> bool) (eff : FS -> FS) (m : FS)
    (n : nat) (l : list Fault) :
  fs_call c pre eff {| fs := m; faults := Fails n :: l |}
  = {| result := Returns (Some (Failed c));
       final := {| fs := m; faults := l |};
       trace := [{| call := c; ok := false; after := m |}] |}.
Proof. reflexivity. Qed.

Lemma fs_call_refused (c : Call) (pre : FS -> bool) (eff : FS -> FS) (m : FS)
    (l : list Fault) :
  pre m = false ->
  fs_call c pre eff {| fs := m; faults := l |}
  = {| result := Returns (Some (Failed c));
       final := {| fs := m; faults := tail l |};
       trace := [{| call := c; ok := false; after := m |}] |}.
Proof.
  intros E. unfold fs_call. cbn. rewrite E. now rewrite andb_false_r.
Qed.

(** The files after each effect. *)
Lemma move_new (a b : string) (m : FS) (f : File) :
  m !! a = Some f -> move a b m !! b = Some f.
Proof. intros E. unfold move. rewrite E. apply lookup_insert_eq. Qed.

Lemma move_old (a b : string) (m : FS) (f : File) :
  a <> b -> m !! a = Some f -> move a b m !! a = None.
Proof.
  intros Hne E. unfold move. rewrite E.
  rewrite lookup_insert_ne by congruence. apply lookup_delete_eq.
Qed.

Lemma move_other (a b p : string) (m : FS) :
  p <> a -> p <> b -> move a b m !! p = m !! p.
Proof.
  intros Ha Hb. unfold move. destruct (m !! a); [| reflexivity].
  rewrite lookup_insert_ne by congruence. apply lookup_delete_ne. congruence.
Qed.

Lemma truncate_or_create_at (p : string) (mode : N) (m : FS) :
  truncate_or_create p mode m !! p
  = Some {| data := ""; perm := match m !! p with Some f => perm f | None => mode end |}.
Proof. unfold truncate_or_create. destruct (m !! p); apply lookup_insert_eq. Qed.

Lemma truncate_or_create_other (p q : string) (mode : N) (m : FS) :
  q <> p -> truncate_or_create p mode m !! q = m !! q.
Proof.
  intros Hne. unfold truncate_or_create.
  destruct (m !! p); apply lookup_insert_ne; congruence.
Qed.

Lemma write_bytes_at (p bytes : string) (m : FS) (f : File) :
  m !! p = Some f ->
  write_bytes p bytes m !! p = Some {| data := bytes; perm := perm f |}.
Proof. intros E. unfold write_bytes. rewrite E. apply lookup_insert_eq. Qed.

Lemma write_bytes_other (p q bytes : string) (m : FS) :
  q <> p -> write_bytes p bytes m !! q = m !! q.
Proof.
  intros Hne. unfold write_bytes.
  destruct (m !! p); [apply lookup_insert_ne; congruence | reflexivity].
Qed.

Lemma set_mode_at (p : string) (mode : N) (m : FS) (f : File) :
  m !! p = Some f ->
  set_mode p mode m !! p = Some {| data := data f; perm := mode |}.
Proof. intros E. unfold set_mode. rewrite E. apply lookup_insert_eq. Qed.

Lemma set_mode_other (p q : string) (mode : N) (m : FS) :
  q <> p -> set_mode p mode m !! q = m !! q.
Proof.
  intros Hne. unfold set_mode.
  destruct (m !! p); [apply lookup_insert_ne; congruence | reflexivity].
Qed.

Lemma exists_at_some (m : FS) (p : string) (f : File) :
  m !! p = Some f -> exists_at m p = true.
Proof. intros E. unfold exists_at. now rewrite E. Qed.

Lemma exists_at_none (m : FS) (p : string) :
  m !! p = None -> exists_at m p = false.
Proof. intros E. unfold exists_at. now rewrite E. Qed.

End FilesystemCalls.

(** ** The update attempt *)

Section Attempt.
Context {platform : Platform} {libs : Libraries} {host : Host}.

Lemma http_Get_run (url : string) (resp : Response) (s : State) :
  http url = Some resp ->
  http_Get url s
  = {| result := Returns (inl resp); final := s;
       trace := [{| call := HttpGet url; ok := true; after := fs s |}] |}.
Proof. intros E. unfold http_Get. now rewrite E. Qed.

Lemma os_Executable_run (path : string) (s : State) :
  executable = Some path ->
  os_Executable s
  = {| result := Returns (inl path); final := s;
       trace := [{| call := Executable; ok := true; after := fs s |}] |}.
Proof. intros E. unfold os_Executable. now rewrite E. Qed.

Lemma filepath_EvalSymlinks_run (path real : string) (s : State) :
  symlinks path = Some real ->
  filepath_EvalSymlinks path s
  = {| result := Returns (inl real); final := s;
       trace := [{| call := EvalSymlinks path; ok := true; after := fs s |}] |}.
Proof. intros E. unfold filepath_EvalSymlinks. now rewrite E. Qed.

Lemma fs_call_run (c : Call) (pre : FS -> bool) (eff : FS -> FS) (m : FS)
    (f : Fault) (l : list Fault) :
  fs_call c pre eff {| fs := m; faults := f :: l |}
  = {| result := Returns (if no_fault f && pre m then None else Some (Failed c));
       final := {| fs := if no_fault f && pre m then eff m else m; faults := l |};
       trace := [{| call := c; ok := no_fault f && pre m;
                    after := if no_fault f && pre m then eff m else m |}] |}.
Proof. reflexivity. Qed.

Lemma fs_read_good {A : Type} (c : Call) (path : string) (k : string -> option A)
    (m : FS) (l : list Fault) (f : File) (a : A) :
  m !! path = Some f -> k (data f) = Some a ->
  fs_read c path k {| fs := m; faults := NoFault :: l |}
  = {| result := Returns (inl a);
       final := {| fs := m; faults := l |};
       trace := [{| call := c; ok := true; after := m |}] |}.
Proof. intros E Ek. unfold fs_read. cbn. now rewrite E, Ek. Qed.

Lemma fs_write_good (c : Call) (path bytes : string) (m : FS) (l : list Fault) :
  fs_write c path bytes None {| fs := m; faults := NoFault :: l |}
  = {| result := Returns None;
       final := {| fs := write_bytes path bytes m; faults := l |};
       trace := [{| call := c; ok := true; after := write_bytes path bytes m |}] |}.
Proof. reflexivity. Qed.

Lemma io_Copy_good (path : string) (resp : Response) (m : FS) (l : list Fault) :
  complete resp = true ->
  io_Copy path resp {| fs := m; faults := NoFault :: l |}
  = {| result := Returns None;
       final := {| fs := write_bytes path (Body resp) m; faults := l |};
       trace := [{| call := Copy path; ok := true;
                    after := write_bytes path (Body resp) m |}] |}.
Proof. intros Hc. unfold io_Copy, ioutil_ReadAll, fs_write. cbn. now rewrite Hc. Qed.

Lemma trace_bind {A B : Type} (m : Go A) (k : A -> Go B) (s : State) :
  exists t', trace (bind m k s) = (trace (m s) ++ t')%list.
Proof.
  unfold bind. destruct (result (m s)).
  - eexists. reflexivity.
  - exists []. cbn [trace]. now rewrite app_nil_r.
  - exists []. cbn [trace]. now rewrite app_nil_r.
Qed.

(** The calls of an attempt up to the digest of the written file, when the
    target exists, the renaming to the backup path meets the fault [fb]
    and the four calls after it meet none. *)
Ltac to_comparison Hdl Hc2 Hck Hc1 Hexe Hsym Ht H3 :=
  unfold downloadUpdate;
  erewrite bind_returns by (apply http_Get_run; eassumption); cbn beta iota;
  erewrite bind_returns by (apply http_Get_run; eassumption); cbn beta iota;
  unfold ioutil_ReadAll at 1; rewrite Hc1;
  erewrite bind_returns by (apply os_Executable_run; eassumption); cbn beta iota;
  erewrite bind_returns by (apply filepath_EvalSymlinks_run; eassumption); cbn beta iota;
  erewrite bind_returns by (apply fs_call_run);
  cbn beta; rewrite Ht; cbn [no_fault andb];
  erewrite bind_returns by (apply fs_call_run);
  cbn beta; rewrite Ht, andb_true_r;
  erewrite bind_returns by (apply fs_call_run);
  cbn beta; cbn [no_fault andb];
  erewrite bind_returns by (apply io_Copy_good; exact Hc2); cbn beta iota;
  erewrite bind_returns by (apply fs_call_run);
  cbn beta; rewrite (exists_at_some _ _ _ H3); cbn [no_fault andb];
  erewrite bind_returns by (eapply fs_read_good; [exact H3 | reflexivity]);
  cbn beta iota; cbn [data].

Lemma written_at (target bytes : string) (m : FS) :
  exists mode,
    write_bytes target bytes (truncate_or_create target (N.ldiff 493 umask) m) !! target
    = Some {| data := bytes; perm := mode |}.
Proof.
  eexists. erewrite write_bytes_at by apply truncate_or_create_at. reflexivity.
Qed.

(** The run, call by call, when the digest of the written file is not the
    checksum payload. *)
Lemma downloadUpdate_mismatch (downloadURL checksumURL version : string)
    (resp checksumResp : Response) (exe target : string) (original : File)
    (m : FS) (fb fr : Fault) (rest : list Fault) :
  http downloadURL = Some resp -> complete resp = true ->
  http checksumURL = Some checksumResp -> complete checksumResp = true ->
  executable = Some exe -> symlinks exe = Some target ->
  m !! target = Some original ->
  Body checksumResp <> hex.EncodeToString (md5_Sum (Body resp)) ->
  let backup := target +:+ ".bak" in
  let m1 := if no_fault fb then move target backup m else m in
  let m2 := truncate_or_create target (N.ldiff 493 umask) m1 in
  let m3 := write_bytes target (Body resp) m2 in
  let restored := no_fault fr && exists_at m3 backup in
  let m4 := if restored then move backup target m3 else m3 in
  downloadUpdate downloadURL checksumURL version
    {| fs := m;
       faults := NoFault :: fb :: NoFault :: NoFault :: NoFault :: NoFault :: fr :: rest |}
  = {| result := Returns (Some (Errorf (version +:+ " checksum mismatch")));
       final := {| fs := m4; faults := rest |};
       trace :=
         [ {| call := HttpGet downloadURL; ok := true; after := m |};
           {| call := HttpGet checksumURL; ok := true; after := m |};
           {| call := Executable; ok := true; after := m |};
           {| call := EvalSymlinks exe; ok := true; after := m |};
           {| call := Stat target; ok := true; after := m |};
           {| call := Rename target backup; ok := no_fault fb; after := m1 |};
           {| call := OpenFile target; ok := true; after := m2 |};
           {| call := Copy target; ok := true; after := m3 |};
           {| call := Open target; ok := true; after := m3 |};
           {| call := Digest target; ok := true; after := m3 |};
           {| call := Rename backup target; ok := restored; after := m4 |} ] |}.
Proof.
  intros Hdl Hc2 Hck Hc1 Hexe Hsym Hm Hne backup m1 m2 m3 restored m4.
  subst backup m1 m2 m3 restored m4.
  assert (Ht : exists_at m target = true) by (eapply exists_at_some; eassumption).
  destruct (written_at target (Body resp)
              (if no_fault fb then move target (target +:+ ".bak") m else m))
    as [mode H3].
  to_comparison Hdl Hc2 Hck Hc1 Hexe Hsym Ht H3.
  apply String.eqb_neq in Hne. rewrite Hne. cbn [negb].
  erewrite bind_returns by (apply fs_call_run).
  reflexivity.
Qed.

(** When the digest is the checksum payload the attempt goes on: to the
    extraction for a [.tgz] URL, to the permissions otherwise. *)
Lemma downloadUpdate_verified (downloadURL checksumURL version : string)
    (resp checksumResp : Response) (exe target : string) (original : File)
    (m : FS) (fb : Fault) (rest : list Fault) :
  http downloadURL = Some resp -> complete resp = true ->
  http checksumURL = Some checksumResp -> complete checksumResp = true ->
  executable = Some exe -> symlinks exe = Some target ->
  m !! target = Some original ->
  Body checksumResp = hex.EncodeToString (md5_Sum (Body resp)) ->
  map call
    (trace (downloadUpdate downloadURL checksumURL version
              {| fs := m;
                 faults := NoFault :: fb :: NoFault :: NoFault :: NoFault :: NoFault
                           :: rest |})) !! 10%nat
  = Some (if strings.HasSuffix downloadURL ".tgz" then Open target
          else Chmod target 493).
Proof.
  intros Hdl Hc2 Hck Hc1 Hexe Hsym Hm He.
  assert (Ht : exists_at m target = true) by (eapply exists_at_some; eassumption).
  destruct (written_at target (Body resp)
              (if no_fault fb then move target (target +:+ ".bak") m else m))
    as [mode H3].
  to_comparison Hdl Hc2 Hck Hc1 Hexe Hsym Ht H3.
  rewrite He, String.eqb_refl. cbn [negb].
  cbn [trace after_calls app map]. cbn [lookup list_lookup].
  destruct (strings.HasSuffix downloadURL ".tgz").
  - match goal with
    | |- map call (trace (bind ?M ?K ?S)) !! _ = _ =>
        destruct (trace_bind M K S) as [t' ->]
    end.
    unfold untgzFile.
    match goal with
    | |- map call (trace (bind ?M ?K ?S) ++ _) !! _ = _ =>
        destruct (trace_bind M K S) as [t'' ->]
    end.
    reflexivity.
  - erewrite bind_returns by reflexivity. cbn [after_calls trace app].
    match goal with
    | |- map call (trace (bind ?M ?K ?S)) !! _ = _ =>
        destruct (trace_bind M K S) as [t' ->]
    end.
    reflexivity.
Qed.

End Attempt.

Section ChecksumMismatch.
Context {platform : Platform} {libs : Libraries} {host : Host}.

(** C1 (amended).  In an update attempt that reaches the comparison and
    finds the digest of the written file different from the checksum
    payload, the last call is the renaming of the backup over the target
    and the attempt returns the checksum-mismatch error carrying the
    remote version; when the renaming to the backup path and the renaming
    back both succeed, the target is again the original file, bytes and
    mode, and no backup is left. *)
Theorem checksum_mismatch_restores (downloadURL checksumURL version : string)
    (resp checksumResp : Response) (exe target : string) (original : File)
    (m : FS) (fb fr : Fault) (rest : list Fault) :
  http downloadURL = Some resp -> complete resp = true ->
  http checksumURL = Some checksumResp -> complete checksumResp = true ->
  executable = Some exe -> symlinks exe = Some target ->
  m !! target = Some original ->
  Body checksumResp <> hex.EncodeToString (md5_Sum (Body resp)) ->
  let r := downloadUpdate downloadURL checksumURL version
             {| fs := m;
                faults := NoFault :: fb :: NoFault :: NoFault :: NoFault :: NoFault
                          :: fr :: rest |} in
  result r = Returns (Some (Errorf (version +:+ " checksum mismatch"))) /\
  last (map call (trace r)) = Some (Rename (target +:+ ".bak") target) /\
  (fb = NoFault -> fr = NoFault ->
   fs (final r) !! target = Some original /\
   fs (final r) !! (target +:+ ".bak") = None).
Proof.
  intros Hdl Hc2 Hck Hc1 Hexe Hsym Hm Hne r. unfold r.
  rewrite (downloadUpdate_mismatch downloadURL checksumURL version resp checksumResp
             exe target original m fb fr rest) by assumption.
  cbn [result final trace fs]. split; [reflexivity |]. split; [reflexivity |].
  intros -> ->. cbn [no_fault andb].
  pose proof (backup_ne target) as Hb.
  assert (Hk : write_bytes target (Body resp)
                 (truncate_or_create target (N.ldiff 493 umask) (move target (target +:+ ".bak") m))
               !! (target +:+ ".bak") = Some original).
  { rewrite write_bytes_other, truncate_or_create_other by exact Hb.
    now apply move_new. }
  rewrite (exists_at_some _ _ _ Hk).
  split; [now apply move_new | eapply move_old; eassumption].
Qed.

End ChecksumMismatch.

Example digest_new_binary :
  hex.EncodeToString (md5.Sum "new-binary") = digest_of_new_binary.
Proof. vm_compute. reflexivity. Qed.

(** C1, as stated, fails: the checksum does not match and the renaming back
    is refused by the filesystem; the error is returned and the target holds
    the downloaded bytes, not its bytes before the attempt. *)
Lemma checksum_mismatch_restore_refused :
  let host := example_host "" "v1.1.0" (whole "new-binary") (whole digest_of_other_file) in
  let r := downloadUpdate (libs := example_libraries) (host := host)
             example_downloadURL example_checksumURL "v1.1.0"
             {| fs := example_fs;
                faults := [NoFault; NoFault; NoFault; NoFault; NoFault; NoFault; Fails 0] |} in
  digest_of_other_file <> hex.EncodeToString (md5.Sum "new-binary") /\
  result r = Returns (Some (Errorf "v1.1.0 checksum mismatch")) /\
  content example_fs example_target = Some "old-binary" /\
  content (fs (final r)) example_target = Some "new-binary".
Proof. vm_compute. repeat split; discriminate. Qed.

(** The theorem at the same attempt on a filesystem that refuses nothing. *)
Lemma checksum_mismatch_restores_witness :
  let host := example_host "" "v1.1.0" (whole "new-binary") (whole digest_of_other_file) in
  let r := downloadUpdate (libs := example_libraries) (host := host)
             example_downloadURL example_checksumURL "v1.1.0"
             {| fs := example_fs;
                faults := [NoFault; NoFault; NoFault; NoFault; NoFault; NoFault; NoFault] |} in
  result r = Returns (Some (Errorf ("v1.1.0" +:+ " checksum mismatch"))) /\
  last (map call (trace r)) = Some (Rename (example_target +:+ ".bak") example_target) /\
  (NoFault = NoFault -> NoFault = NoFault ->
   fs (final r) !! example_target = Some {| data := "old-binary"; perm := 493 |} /\
   fs (final r) !! (example_target +:+ ".bak") = None).
Proof.
  apply (checksum_mismatch_restores (libs := example_libraries)
           (host := example_host "" "v1.1.0" (whole "new-binary") (whole digest_of_other_file))
           example_downloadURL example_checksumURL "v1.1.0"
           (whole "new-binary") (whole digest_of_other_file)
           example_target example_target {| data := "old-binary"; perm := 493 |}
           example_fs NoFault NoFault []).
  - reflexivity.
  - reflexivity.
  - reflexivity.
  - reflexivity.
  - reflexivity.
  - reflexivity.
  - vm_compute. reflexivity.
  - vm_compute. discriminate.
Defined.

(** ** White space and hexadecimal digests *)

Section Digests.
Import strings.

Lemma digit_hex (n : nat) : (n < 16)%nat -> mem_char (hex.digit n) hex.hextable = true.
Proof.
  intros Hn.
  do 16 (destruct n as [|n]; [reflexivity |]). lia.
Qed.

Lemma all_hex_EncodeToString (src : string) : all_hex (hex.EncodeToString src) = true.
Proof.
  induction src as [|v src IH]; [reflexivity |].
  cbn [hex.EncodeToString all_hex].
  assert (Hv : (nat_of_ascii v < 256)%nat) by apply nat_ascii_bounded.
  rewrite !digit_hex, IH; [reflexivity | |].
  - apply Nat.mod_upper_bound. lia.
  - apply Nat.Div0.div_lt_upper_bound. lia.
Qed.

Lemma hex_cases (c : ascii) :
  mem_char c hex.hextable = true ->
  In c ["0"; "1"; "2"; "3"; "4"; "5"; "6"; "7"; "8"; "9"; "a"; "b"; "c"; "d"; "e"; "f"]%char.
Proof.
  unfold hex.hextable. cbn [mem_char]. intros H.
  repeat (apply orb_prop in H as [H | H];
          [apply Ascii.eqb_eq in H; subst c; cbn; tauto |]).
  discriminate.
Qed.

Lemma leading_space_hex (c : ascii) (s : string) :
  mem_char c hex.hextable = true -> leading_space (String c s) = None.
Proof.
  intros H. apply hex_cases in H. cbn [In] in H.
  repeat (destruct H as [<- | H]; [reflexivity |]). contradiction.
Qed.

Lemma trailing_space_hex (c : ascii) (s : string) :
  mem_char c hex.hextable = true -> trailing_space (String c s) = None.
Proof.
  intros H. apply hex_cases in H. cbn [In] in H.
  repeat (destruct H as [<- | H]; [reflexivity |]). contradiction.
Qed.

Lemma rev_acc_rev_acc (s a b : string) :
  rev_acc (rev_acc s a) b = rev_acc a (s +:+ b).
Proof.
  revert a b; induction s as [|c s IH]; intros a b; [reflexivity |].
  cbn [rev_acc]. rewrite IH. reflexivity.
Qed.

Lemma rev_rev (s : string) : rev (rev s) = s.
Proof. unfold rev. rewrite rev_acc_rev_acc. cbn [rev_acc]. apply append_nil_r. Qed.

Lemma all_hex_rev_acc (s acc : string) :
  all_hex (rev_acc s acc) = all_hex s && all_hex acc.
Proof.
  revert acc; induction s as [|c s IH]; intros acc; [reflexivity |].
  cbn [rev_acc all_hex]. rewrite IH. cbn [all_hex].
  destruct (mem_char c hex.hextable), (all_hex s); reflexivity.
Qed.

(** A string of hexadecimal digits has no white space to trim. *)
Lemma TrimSpace_all_hex (s : string) : all_hex s = true -> TrimSpace s = s.
Proof.
  intros H. unfold TrimSpace.
  assert (E1 : trim_left 0 s = s).
  { destruct s as [|c s]; [reflexivity |].
    cbn [all_hex] in H. apply andb_prop in H as [Hc _].
    cbn [trim_left]. now rewrite leading_space_hex. }
  rewrite E1.
  assert (Hr : all_hex (rev s) = true).
  { unfold rev. rewrite all_hex_rev_acc, H. reflexivity. }
  destruct (rev s) as [|c r] eqn:Er.
  - cbn. rewrite <- (rev_rev s), Er. reflexivity.
  - cbn [all_hex] in Hr. apply andb_prop in Hr as [Hc _].
    cbn [trim_left_rev]. rewrite trailing_space_hex by exact Hc.
    rewrite <- Er. apply rev_rev.
Qed.

(** A checksum payload with white space around it is no digest. *)
Lemma padded_payload_differs (payload sum : string) :
  TrimSpace payload <> payload -> payload <> hex.EncodeToString sum.
Proof.
  intros Hp ->. apply Hp, TrimSpace_all_hex, all_hex_EncodeToString.
Qed.

End Digests.

Section ChecksumComparison.
Context {platform : Platform} {libs : Libraries} {host : Host}.

(** C8 (amended).  Once the artifact is written, the lower-case
    hexadecimal digest of the file is compared with the checksum payload
    as it was received, byte for byte, and nothing is stripped: with a
    payload equal to the digest the attempt goes on (to the extraction or
    to the permissions); with any other payload, and so with every payload
    that has white space around it, the attempt returns the
    checksum-mismatch error. *)
Theorem checksum_compared_verbatim (downloadURL checksumURL version : string)
    (resp checksumResp : Response) (exe target : string) (original : File)
    (m : FS) (fb fr : Fault) (rest : list Fault) :
  http downloadURL = Some resp -> complete resp = true ->
  http checksumURL = Some checksumResp -> complete checksumResp = true ->
  executable = Some exe -> symlinks exe = Some target ->
  m !! target = Some original ->
  let digest := hex.EncodeToString (md5_Sum (Body resp)) in
  let mismatch := Returns (Some (Errorf (version +:+ " checksum mismatch"))) in
  let r := downloadUpdate downloadURL checksumURL version
             {| fs := m;
                faults := NoFault :: fb :: NoFault :: NoFault :: NoFault :: NoFault
                          :: fr :: rest |} in
  (Body checksumResp = digest ->
   map call (trace r) !! 10%nat
   = Some (if strings.HasSuffix downloadURL ".tgz" then Open target
           else Chmod target 493)) /\
  (Body checksumResp <> digest -> result r = mismatch) /\
  (strings.TrimSpace (Body checksumResp) <> Body checksumResp -> result r = mismatch).
Proof.
  intros Hdl Hc2 Hck Hc1 Hexe Hsym Hm digest mismatch r.
  assert (Hmis : Body checksumResp <> digest -> result r = mismatch).
  { intros Hne. unfold r.
    rewrite (downloadUpdate_mismatch downloadURL checksumURL version resp checksumResp
               exe target original m fb fr rest) by assumption.
    reflexivity. }
  split; [| split].
  - intros He. unfold r.
    now apply (downloadUpdate_verified downloadURL checksumURL version resp checksumResp
                 exe target original).
  - exact Hmis.
  - intros Hp. apply Hmis. now apply padded_payload_differs.
Qed.

End ChecksumComparison.

(** C8, as stated, fails: the checksum object holds the digest of the
    artifact followed by a newline; trimmed it is the digest, and the
    attempt still returns the checksum-mismatch error. *)
Lemma trailing_newline_not_stripped :
  let payload := digest_of_new_binary +:+ lf in
  let host := example_host "" "v1.1.0" (whole "new-binary") (whole payload) in
  let r := downloadUpdate (libs := example_libraries) (host := host)
             example_downloadURL example_checksumURL "v1.1.0"
             {| fs := example_fs; faults := [] |} in
  strings.TrimSpace payload = hex.EncodeToString (md5.Sum "new-binary") /\
  result r = Returns (Some (Errorf "v1.1.0 checksum mismatch")).
Proof. vm_compute. split; reflexivity. Qed.

(** The theorem at that attempt. *)
Lemma checksum_compared_verbatim_witness :
  let resp := whole "new-binary" in
  let checksumResp := whole (digest_of_new_binary +:+ lf) in
  let host := example_host "" "v1.1.0" resp checksumResp in
  let digest := hex.EncodeToString (md5_Sum (Libraries := example_libraries) (Body resp)) in
  let mismatch := Returns (Some (Errorf ("v1.1.0" +:+ " checksum mismatch"))) in
  let r := downloadUpdate (libs := example_libraries) (host := host)
             example_downloadURL example_checksumURL "v1.1.0"
             {| fs := example_fs;
                faults := NoFault :: NoFault :: NoFault :: NoFault :: NoFault :: NoFault
                          :: NoFault :: [] |} in
  (Body checksumResp = digest ->
   map call (trace r) !! 10%nat
   = Some (if strings.HasSuffix example_downloadURL ".tgz" then Open example_target
           else Chmod example_target 493)) /\
  (Body checksumResp <> digest -> result r = mismatch) /\
  (strings.TrimSpace (Body checksumResp) <> Body checksumResp -> result r = mismatch).
Proof.
  intros resp checksumResp host.
  refine (checksum_compared_verbatim (libs := example_libraries) (host := host)
            example_downloadURL example_checksumURL "v1.1.0" resp checksumResp
            example_target example_target {| data := "old-binary"; perm := 493 |}
            example_fs NoFault NoFault [] _ _ _ _ _ _ _).
  - reflexivity.
  - reflexivity.
  - reflexivity.
  - reflexivity.
  - reflexivity.
  - reflexivity.
  - vm_compute. reflexivity.
Defined.

(** ** The orchestration *)

Section Orchestration.
Context {platform : Platform} {libs : Libraries} {host : Host}.

Lemma fetchRemoteVersion_run (bucket : string) (resp : Response) (s : State) :
  http (version_object bucket) = Some resp ->
  complete resp = true ->
  semver_IsValid (strings.TrimSpace (Body resp)) = true ->
  fetchRemoteVersion bucket s
  = {| result := Returns (strings.TrimSpace (Body resp), None);
       final := s;
       trace := [{| call := HttpGet (version_object bucket); ok := true; after := fs s |}] |}.
Proof.
  intros Hv Hc Hs. unfold fetchRemoteVersion.
  erewrite bind_returns by (apply http_Get_run; exact Hv). cbn beta iota.
  unfold ioutil_ReadAll. rewrite Hc, Hs. reflexivity.
Qed.

Lemma fetchRemoteVersion_calls (bucket : string) (s : State) :
  network_calls (trace (fetchRemoteVersion bucket s)) = [version_object bucket].
Proof.
  unfold fetchRemoteVersion, bind, http_Get. fold (version_object bucket).
  destruct (http (version_object bucket)) as [resp |]; cbn; [| reflexivity].
  destruct (complete resp); cbn; [| reflexivity].
  destruct (semver_IsValid _); reflexivity.
Qed.

(** The first call of an attempt is the request for the artifact. *)
Lemma downloadUpdate_first (downloadURL checksumURL version : string) (s : State) :
  exists rest,
    network_calls (trace (downloadUpdate downloadURL checksumURL version s))
    = downloadURL :: rest.
Proof.
  unfold downloadUpdate.
  match goal with
  | |- context [trace (bind ?M ?K ?S)] => destruct (trace_bind M K S) as [t' ->]
  end.
  exists (network_calls t'). unfold http_Get.
  destruct (http downloadURL); reflexivity.
Qed.

(** The target is missing when [os.Stat] looks for it: the attempt returns
    [nil], having changed nothing. *)
Lemma downloadUpdate_missing (downloadURL checksumURL version : string)
    (resp checksumResp : Response) (exe target : string) (m : FS) (l : list Fault) :
  http downloadURL = Some resp ->
  http checksumURL = Some checksumResp -> complete checksumResp = true ->
  executable = Some exe -> symlinks exe = Some target ->
  m !! target = None ->
  downloadUpdate downloadURL checksumURL version {| fs := m; faults := l |}
  = {| result := Returns None;
       final := {| fs := m; faults := tail l |};
       trace :=
         [ {| call := HttpGet downloadURL; ok := true; after := m |};
           {| call := HttpGet checksumURL; ok := true; after := m |};
           {| call := Executable; ok := true; after := m |};
           {| call := EvalSymlinks exe; ok := true; after := m |};
           {| call := Stat target; ok := false; after := m |} ] |}.
Proof.
  intros Hdl Hck Hc1 Hexe Hsym Hm.
  unfold downloadUpdate.
  erewrite bind_returns by (apply http_Get_run; eassumption). cbn beta iota.
  erewrite bind_returns by (apply http_Get_run; eassumption). cbn beta iota.
  unfold ioutil_ReadAll at 1. rewrite Hc1.
  erewrite bind_returns by (apply os_Executable_run; eassumption). cbn beta iota.
  erewrite bind_returns by (apply filepath_EvalSymlinks_run; eassumption). cbn beta iota.
  erewrite bind_returns by (apply fs_call_refused; now apply exists_at_none).
  reflexivity.
Qed.

End Orchestration.

Section MissingTarget.
Context {platform : Platform} {libs : Libraries} {host : Host}.

(** C5 (amended).  If the resolved target executable does not exist when
    the backup step is reached, [downloadUpdate] returns no error and
    leaves the filesystem as it was; [runAutoUpdate] then ends the process
    with status 0, as it does after every attempt that returns no error:
    control does not return to the caller of [AutoUpdate]. *)
Theorem missing_target_exits (u : Updater) (resp artifact checksum : Response)
    (exe target : string) (s : State) :
  os_Getenv "S3UPDATE_DISABLED" = "" ->
  validate u = None ->
  semver_IsValid (CurrentVersion u) = true ->
  http (version_object (S3Bucket u)) = Some resp -> complete resp = true ->
  let remote := strings.TrimSpace (Body resp) in
  semver_IsValid remote = true ->
  semver_Compare (CurrentVersion u) remote = (-1)%Z ->
  let downloadURL := generateURL (S3Bucket u) (S3ReleaseKey u) remote in
  let checksumURL := generateURL (S3Bucket u) (ChecksumKey u) remote in
  http downloadURL = Some artifact ->
  http checksumURL = Some checksum -> complete checksum = true ->
  executable = Some exe -> symlinks exe = Some target ->
  fs s !! target = None ->
  let d := downloadUpdate downloadURL checksumURL remote s in
  let r := AutoUpdate u s in
  result d = Returns None /\ fs (final d) = fs s /\
  result r = Exits 0 /\ fs (final r) = fs s /\
  Forall (fun st => after st = fs s) (trace r).
Proof.
  intros Henv Hval Hlocal Hv Hc remote Hremote Hcmp downloadURL checksumURL
    Hdl Hck Hc1 Hexe Hsym Hm d r.
  destruct s as [m l]. cbn [fs] in Hm |- *.
  assert (Hd : d = _) by
    (apply (downloadUpdate_missing downloadURL checksumURL remote artifact checksum
              exe target m l); assumption).
  split; [now rewrite Hd |]. split; [now rewrite Hd |].
  assert (Hr : exists t,
             r = {| result := Exits 0; final := {| fs := m; faults := tail l |}; trace := t |}
             /\ Forall (fun st => after st = m) t).
  { unfold r, AutoUpdate. rewrite Henv, Hval. cbn [String.eqb negb].
    unfold runAutoUpdate. rewrite Hlocal. cbn [negb].
    erewrite bind_returns by (apply fetchRemoteVersion_run; eassumption).
    cbn beta iota. fold remote. rewrite Hcmp. cbn [Z.eqb Pos.eqb].
    erewrite bind_returns by reflexivity.
    fold downloadURL checksumURL.
    destruct (Verbose u).
    - erewrite bind_returns by reflexivity.
      erewrite bind_returns by (exact Hd). cbn beta iota.
      eexists. split; [reflexivity |].
      cbn. repeat constructor.
    - erewrite bind_returns by reflexivity.
      erewrite bind_returns by (exact Hd). cbn beta iota.
      eexists. split; [reflexivity |].
      cbn. repeat constructor. }
  destruct Hr as (t & -> & Ht). cbn [result final fs trace].
  repeat split. exact Ht.
Qed.

End MissingTarget.

(** C5, as stated, fails: the executable has vanished when the attempt looks
    for it; the cycle does not return to its caller, the process exits with
    status 0. *)
Lemma missing_target_does_not_return :
  let host := example_host "" "v1.1.0" (whole "new-binary") (whole digest_of_new_binary) in
  let r := AutoUpdate (platform := linux_amd64) (libs := example_libraries) (host := host)
             example_updater {| fs := ∅; faults := [] |} in
  (∅ : FS) !! example_target = None /\
  result r = Exits 0 /\
  ~ (exists err, result r = Returns err).
Proof.
  vm_compute. split; [reflexivity |]. split; [reflexivity |].
  intros [err H]. discriminate H.
Qed.

(** The theorem at that run. *)
Lemma missing_target_exits_witness :
  let resp := whole "v1.1.0" in
  let artifact := whole "new-binary" in
  let checksum := whole digest_of_new_binary in
  let host := example_host "" "v1.1.0" artifact checksum in
  let u := example_updater in
  let s := {| fs := ∅; faults := [] |} in
  let remote := strings.TrimSpace (Body resp) in
  let downloadURL := generateURL (H := linux_amd64) (S3Bucket u) (S3ReleaseKey u) remote in
  let checksumURL := generateURL (H := linux_amd64) (S3Bucket u) (ChecksumKey u) remote in
  let d := downloadUpdate (libs := example_libraries) (host := host)
             downloadURL checksumURL remote s in
  let r := AutoUpdate (platform := linux_amd64) (libs := example_libraries) (host := host) u s in
  result d = Returns None /\ fs (final d) = fs s /\
  result r = Exits 0 /\ fs (final r) = fs s /\
  Forall (fun st => after st = fs s) (trace r).
Proof.
  intros resp artifact checksum host u s.
  refine (missing_target_exits (platform := linux_amd64) (libs := example_libraries)
            (host := host) u resp artifact checksum example_target example_target s
            _ _ _ _ _ _ _ _ _ _ _ _ _).
  - reflexivity.
  - reflexivity.
  - reflexivity.
  - reflexivity.
  - reflexivity.
  - reflexivity.
  - reflexivity.
  - reflexivity.
  - reflexivity.
  - reflexivity.
  - reflexivity.
  - reflexivity.
  - reflexivity.
Defined.

Section VersionOrder.
Context {platform : Platform} {libs : Libraries} {host : Host}.

Lemma network_calls_app (t t' : list Step) :
  network_calls (t ++ t') = (network_calls t ++ network_calls t')%list.
Proof. apply flat_map_app. Qed.


End VersionOrder.


Section OptOut.
Context {platform : Platform} {libs : Libraries} {host : Host}.

(** C9.  When the environment variable [S3UPDATE_DISABLED] has any
    non-empty value, [AutoUpdate] makes no network call and no filesystem
    call, leaves the state as it was and returns no error, whatever the
    configuration. *)
Theorem opt_out_disables (u : Updater) (s : State) :
  os_Getenv "S3UPDATE_DISABLED" <> "" ->
  let r := AutoUpdate u s in
  result r = Returns None /\ final r = s /\
  network_calls (trace r) = [] /\ filesystem_calls (trace r) = [] /\
  Forall (fun st => after st = fs s) (trace r).
Proof.
  intros Henv r. unfold r, AutoUpdate.
  apply String.eqb_neq in Henv. rewrite Henv. cbn [negb].
  erewrite bind_returns by reflexivity.
  cbn. repeat split. repeat constructor.
Qed.

(** The requests of an enabled run that finds a newer version: the version
    object, then the artifact of the version the version object holds. *)
Lemma runAutoUpdate_requests (u : Updater) (resp : Response) (s : State) :
  semver_IsValid (CurrentVersion u) = true ->
  http (version_object (S3Bucket u)) = Some resp -> complete resp = true ->
  semver_IsValid (strings.TrimSpace (Body resp)) = true ->
  semver_Compare (CurrentVersion u) (strings.TrimSpace (Body resp)) = (-1)%Z ->
  exists rest,
    network_calls (trace (runAutoUpdate u s))
    = version_object (S3Bucket u)
      :: generateURL (S3Bucket u) (S3ReleaseKey u) (strings.TrimSpace (Body resp)) :: rest.
Proof.
  intros HA Hv Hc HB Hcmp. unfold runAutoUpdate. rewrite HA. cbn [negb].
  erewrite bind_returns by (apply fetchRemoteVersion_run; eassumption).
  cbn beta iota. rewrite Hcmp. cbn [Z.eqb Pos.eqb].
  erewrite bind_returns by reflexivity.
  destruct (Verbose u); erewrite bind_returns by reflexivity;
    cbn [after_calls trace];
    match goal with
    | |- context [trace (bind ?M ?K ?S)] => destruct (trace_bind M K S) as [t' ->]
    end;
    rewrite !network_calls_app;
    cbn [fmt_Print observe bind after_calls result final trace];
    match goal with
    | |- context [trace (downloadUpdate ?D ?C ?V ?S)] =>
        destruct (downloadUpdate_first D C V S) as [rest ->]
    end;
    cbn; eexists; reflexivity.
Qed.

(** The version [fetchRemoteVersion] returns without error is what the
    version object of the bucket delivers. *)
Lemma fetchRemoteVersion_version (bucket : string) (s : State) (v : string) :
  result (fetchRemoteVersion bucket s) = Returns (v, None) <->
  exists resp, http (version_object bucket) = Some resp /\ complete resp = true /\
               v = strings.TrimSpace (Body resp) /\ semver_IsValid v = true.
Proof.
  split.
  - unfold fetchRemoteVersion, bind, http_Get. fold (version_object bucket).
    destruct (http (version_object bucket)) as [resp |] eqn:Hv; cbn; [| discriminate].
    destruct (complete resp) eqn:Hc; cbn; [| discriminate].
    destruct (semver_IsValid (strings.TrimSpace (Body resp))) eqn:Hs; cbn; [| discriminate].
    intros E. injection E as <-. exists resp. auto.
  - intros (resp & Hv & Hc & -> & Hs).
    now rewrite (fetchRemoteVersion_run bucket resp s Hv Hc Hs).
Qed.

(** C10.  [validate] requires a non-empty [S3VersionKey], and that is all
    the field does: a validated configuration given any other non-empty
    key is still valid and [AutoUpdate] runs on it exactly as before.  The
    remote version comes from the fixed URL: the [VERSION] object at the
    root of the bucket is the one request of [fetchRemoteVersion] and the
    first request of every run that is enabled and has a valid local
    version; the version returned is the trimmed body that this URL
    delivers, and no other; and it is the version whose artifact an
    enabled run goes on to request when it is newer than the local one. *)
Theorem version_key_unused (u : Updater) (key : string) (s : State) :
  validate u = None -> key <> "" ->
  S3VersionKey u <> "" /\
  validate (with_version_key u key) = None /\
  AutoUpdate (with_version_key u key) s = AutoUpdate u s /\
  network_calls (trace (fetchRemoteVersion (S3Bucket u) s))
  = ["https://" +:+ S3Bucket u +:+ ".s3.amazonaws.com/VERSION"] /\
  (os_Getenv "S3UPDATE_DISABLED" = "" -> semver_IsValid (CurrentVersion u) = true ->
   exists rest,
     network_calls (trace (AutoUpdate u s))
     = ("https://" +:+ S3Bucket u +:+ ".s3.amazonaws.com/VERSION") :: rest) /\
  (forall v,
     result (fetchRemoteVersion (S3Bucket u) s) = Returns (v, None) <->
     exists resp,
       http ("https://" +:+ S3Bucket u +:+ ".s3.amazonaws.com/VERSION") = Some resp /\
       complete resp = true /\
       v = strings.TrimSpace (Body resp) /\ semver_IsValid v = true) /\
  (forall resp,
     os_Getenv "S3UPDATE_DISABLED" = "" -> semver_IsValid (CurrentVersion u) = true ->
     http ("https://" +:+ S3Bucket u +:+ ".s3.amazonaws.com/VERSION") = Some resp ->
     complete resp = true ->
     semver_IsValid (strings.TrimSpace (Body resp)) = true ->
     semver_Compare (CurrentVersion u) (strings.TrimSpace (Body resp)) = (-1)%Z ->
     exists rest,
       network_calls (trace (AutoUpdate u s))
       = ("https://" +:+ S3Bucket u +:+ ".s3.amazonaws.com/VERSION")
         :: generateURL (S3Bucket u) (S3ReleaseKey u) (strings.TrimSpace (Body resp))
         :: rest).
Proof.
  intros Hval Hkey.
  assert (Hu : S3VersionKey u <> "").
  { intros E. unfold validate in Hval. rewrite E in Hval.
    destruct (String.eqb (CurrentVersion u) ""); [discriminate |].
    destruct (String.eqb (S3Bucket u) ""); [discriminate |].
    destruct (String.eqb (S3ReleaseKey u) ""); discriminate. }
  assert (Hval' : validate (with_version_key u key) = None).
  { unfold validate in *. cbn [with_version_key CurrentVersion S3Bucket S3ReleaseKey S3VersionKey].
    destruct (String.eqb (CurrentVersion u) ""); [discriminate |].
    destruct (String.eqb (S3Bucket u) ""); [discriminate |].
    destruct (String.eqb (S3ReleaseKey u) ""); [discriminate |].
    apply String.eqb_neq in Hkey. now rewrite Hkey. }
  split; [exact Hu |]. split; [exact Hval' |]. split; [| split; [| split; [| split]]].
  - unfold AutoUpdate. rewrite Hval, Hval'. reflexivity.
  - apply fetchRemoteVersion_calls.
  - intros Henv Hlocal. unfold AutoUpdate. rewrite Henv, Hval. cbn [String.eqb negb].
    unfold runAutoUpdate. rewrite Hlocal. cbn [negb].
    match goal with
    | |- context [trace (bind ?M ?K ?S)] => destruct (trace_bind M K S) as [t' ->]
    end.
    rewrite network_calls_app, fetchRemoteVersion_calls.
    eexists. reflexivity.
  - intros v. apply fetchRemoteVersion_version.
  - intros resp Henv Hlocal Hv Hc HB Hcmp.
    unfold AutoUpdate. rewrite Henv, Hval. cbn [String.eqb negb].
    exact (runAutoUpdate_requests u resp s Hlocal Hv Hc HB Hcmp).
Qed.

End OptOut.

(** C9 at a host whose environment sets [S3UPDATE_DISABLED=1]. *)
Lemma opt_out_disables_witness :
  let host := example_host "1" "v1.1.0" (whole "new-binary") (whole digest_of_new_binary) in
  let u := example_updater in
  let s := {| fs := example_fs; faults := [] |} in
  let r := AutoUpdate (platform := linux_amd64) (libs := example_libraries) (host := host) u s in
  result r = Returns None /\ final r = s /\
  network_calls (trace r) = [] /\ filesystem_calls (trace r) = [] /\
  Forall (fun st => after st = fs s) (trace r).
Proof.
  intros host u s.
  refine (opt_out_disables (platform := linux_amd64) (libs := example_libraries)
            (host := host) u s _).
  intros E. discriminate E.
Defined.

(** C10 at the example configuration and the key [other/VERSION]. *)
Lemma version_key_unused_witness :
  let host := example_host "" "v1.1.0" (whole "new-binary") (whole digest_of_new_binary) in
  let u := example_updater in
  let key := "other/VERSION" in
  let s := {| fs := example_fs; faults := [] |} in
  S3VersionKey u <> "" /\
  validate (with_version_key u key) = None /\
  AutoUpdate (platform := linux_amd64) (libs := example_libraries) (host := host)
    (with_version_key u key) s
  = AutoUpdate (platform := linux_amd64) (libs := example_libraries) (host := host) u s /\
  network_calls (trace (fetchRemoteVersion (libs := example_libraries) (host := host)
                          (S3Bucket u) s))
  = ["https://" +:+ S3Bucket u +:+ ".s3.amazonaws.com/VERSION"] /\
  (os_Getenv (host := host) "S3UPDATE_DISABLED" = "" ->
   semver_IsValid (Libraries := example_libraries) (CurrentVersion u) = true ->
   exists rest,
     network_calls (trace (AutoUpdate (platform := linux_amd64) (libs := example_libraries)
                             (host := host) u s))
     = ("https://" +:+ S3Bucket u +:+ ".s3.amazonaws.com/VERSION") :: rest) /\
  (forall v,
     result (fetchRemoteVersion (libs := example_libraries) (host := host) (S3Bucket u) s)
     = Returns (v, None) <->
     exists resp,
       http (Host := host) ("https://" +:+ S3Bucket u +:+ ".s3.amazonaws.com/VERSION")
       = Some resp /\
       complete resp = true /\
       v = strings.TrimSpace (Body resp) /\
       semver_IsValid (Libraries := example_libraries) v = true) /\
  (forall resp,
     os_Getenv (host := host) "S3UPDATE_DISABLED" = "" ->
     semver_IsValid (Libraries := example_libraries) (CurrentVersion u) = true ->
     http (Host := host) ("https://" +:+ S3Bucket u +:+ ".s3.amazonaws.com/VERSION")
     = Some resp ->
     complete resp = true ->
     semver_IsValid (Libraries := example_libraries) (strings.TrimSpace (Body resp)) = true ->
     semver_Compare (Libraries := example_libraries) (CurrentVersion u)
       (strings.TrimSpace (Body resp)) = (-1)%Z ->
     exists rest,
       network_calls (trace (AutoUpdate (platform := linux_amd64)
                               (libs := example_libraries) (host := host) u s))
       = ("https://" +:+ S3Bucket u +:+ ".s3.amazonaws.com/VERSION")
         :: generateURL (H := linux_amd64) (S3Bucket u) (S3ReleaseKey u)
              (strings.TrimSpace (Body resp))
         :: rest).
Proof.
  intros host u key s.
  refine (version_key_unused (platform := linux_amd64) (libs := example_libraries)
            (host := host) u key s _ _).
  - reflexivity.
  - intros E. discriminate E.
Defined.

(** ** The claims on the templating *)

(** C6 (amended).  The substitution is made in three passes, VERSION, then
    ARCH, then OS, each over the output of the pass before, so that a
    substituted value is scanned again by the later passes.  When the values
    are inert (not empty, no opening brace, no closing brace or placeholder
    letter in first position: every valid semantic version and every Go
    platform name) the URL is the one of the simultaneous, non-recursive
    substitution, and the three passes give that same key in each of their
    six orders. *)
Theorem substitution_passes `{Platform} (bucket template version : string) :
  inert version = true -> inert GOARCH = true -> inert GOOS = true ->
  generateURL bucket template version
  = "https://" +:+ bucket +:+ ".s3.amazonaws.com/"
    +:+ render_once (substitutions version GOARCH GOOS) template /\
  forall passes,
    Permutation passes (substitutions version GOARCH GOOS) ->
    render_in_order passes template
    = render_once (substitutions version GOARCH GOOS) template.
Proof.
  intros Hv Ha Ho. split.
  - rewrite generateURL_passes. do 3 f_equal.
    now apply render_in_order_once.
  - intros passes Hp. now apply render_in_order_once.
Qed.

(** C6, as stated, fails: a version that holds [{{OS}}] is scanned by the OS
    pass, and the passes in another order give another key. *)
Lemma substituted_value_rescanned :
  generateURL (H := linux_amd64) "b" "{{VERSION}}" "{{OS}}"
  <> "https://" +:+ "b" +:+ ".s3.amazonaws.com/"
     +:+ render_once (substitutions "{{OS}}" "amd64" "linux") "{{VERSION}}" /\
  render_in_order [("{{VERSION}}", "{{OS}}"); ("{{ARCH}}", "amd64"); ("{{OS}}", "linux")]
    "{{VERSION}}"
  <> render_in_order [("{{OS}}", "linux"); ("{{ARCH}}", "amd64"); ("{{VERSION}}", "{{OS}}")]
       "{{VERSION}}".
Proof. vm_compute. split; discriminate. Qed.

(** C6 (amended) at the template of the README and version [v1.2.3]. *)
Lemma substitution_passes_witness :
  generateURL (H := linux_amd64) "mybucket" "mytool/mytool-{{OS}}-{{ARCH}}" "v1.2.3"
  = "https://" +:+ "mybucket" +:+ ".s3.amazonaws.com/"
    +:+ render_once (substitutions "v1.2.3" (GOARCH (Platform := linux_amd64))
                       (GOOS (Platform := linux_amd64)))
          "mytool/mytool-{{OS}}-{{ARCH}}" /\
  forall passes,
    Permutation passes (substitutions "v1.2.3" (GOARCH (Platform := linux_amd64))
                          (GOOS (Platform := linux_amd64))) ->
    render_in_order passes "mytool/mytool-{{OS}}-{{ARCH}}"
    = render_once (substitutions "v1.2.3" (GOARCH (Platform := linux_amd64))
                     (GOOS (Platform := linux_amd64)))
        "mytool/mytool-{{OS}}-{{ARCH}}".
Proof.
  refine (substitution_passes (H := linux_amd64) "mybucket" "mytool/mytool-{{OS}}-{{ARCH}}"
            "v1.2.3" _ _ _); reflexivity.
Defined.

(** C7 (amended).  The template [tool-{{OS}}-{{ARCH}}-{{VERSION}}] rendered
    on linux/amd64 for [v1.2.3] is the key [tool-linux-amd64-v1.2.3] behind
    [https://<bucket>.s3.amazonaws.com/].  A template without [{{VERSION}}]
    renders the same for every version; a template without [{{ARCH}}]
    renders the same for every architecture when the version is inert; a
    template without [{{OS}}] renders the same for every operating system
    when the version and the architecture are inert. *)
Theorem absent_placeholder_ignored
    (bucket template version version' arch arch' os os' : string) :
  generateURL (H := linux_amd64) bucket "tool-{{OS}}-{{ARCH}}-{{VERSION}}" "v1.2.3"
  = "https://" +:+ bucket +:+ ".s3.amazonaws.com/" +:+ "tool-linux-amd64-v1.2.3" /\
  (strings.Contains template "{{VERSION}}" = false ->
   generateURL (H := {| GOOS := os; GOARCH := arch |}) bucket template version
   = generateURL (H := {| GOOS := os; GOARCH := arch |}) bucket template version') /\
  (strings.Contains template "{{ARCH}}" = false -> inert version = true ->
   generateURL (H := {| GOOS := os; GOARCH := arch |}) bucket template version
   = generateURL (H := {| GOOS := os; GOARCH := arch' |}) bucket template version) /\
  (strings.Contains template "{{OS}}" = false -> inert version = true -> inert arch = true ->
   generateURL (H := {| GOOS := os; GOARCH := arch |}) bucket template version
   = generateURL (H := {| GOOS := os'; GOARCH := arch |}) bucket template version).
Proof.
  split; [reflexivity |]. split; [| split].
  - intros Ht. unfold generateURL. cbn [strings.Replace GOOS GOARCH].
    now rewrite !(replace_scan_absent "{{VERSION}}") by exact Ht.
  - intros Ht Hv. unfold generateURL. cbn [strings.Replace GOOS GOARCH].
    assert (Hc : strings.Contains (strings.replace_scan "{{VERSION}}" version 0 template)
                   "{{ARCH}}" = false)
      by (apply Contains_replace_scan; auto).
    now rewrite !(replace_scan_absent "{{ARCH}}") by exact Hc.
  - intros Ht Hv Ha. unfold generateURL. cbn [strings.Replace GOOS GOARCH].
    assert (Hc : strings.Contains
                   (strings.replace_scan "{{ARCH}}" arch 0
                      (strings.replace_scan "{{VERSION}}" version 0 template))
                   "{{OS}}" = false)
      by (do 2 (apply Contains_replace_scan; auto)).
    now rewrite !(replace_scan_absent "{{OS}}") by exact Hc.
Qed.

(** C7, as stated, fails: the template [{{VERSION}}] holds no [{{ARCH}}],
    and with the version [{{ARCH}}] its rendering changes with the
    architecture. *)
Lemma absent_placeholder_rendered :
  strings.Contains "{{VERSION}}" "{{ARCH}}" = false /\
  generateURL (H := {| GOOS := "linux"; GOARCH := "amd64" |}) "b" "{{VERSION}}" "{{ARCH}}"
  <> generateURL (H := {| GOOS := "linux"; GOARCH := "arm64" |}) "b" "{{VERSION}}" "{{ARCH}}".
Proof. vm_compute. split; [reflexivity | discriminate]. Qed.

(** C7 (amended) at templates of the README kind. *)
Lemma absent_placeholder_ignored_witness :
  generateURL (H := linux_amd64) "mybucket" "tool-{{OS}}-{{ARCH}}-{{VERSION}}" "v1.2.3"
  = "https://mybucket.s3.amazonaws.com/tool-linux-amd64-v1.2.3" /\
  generateURL (H := {| GOOS := "linux"; GOARCH := "amd64" |}) "mybucket"
    "mytool/mytool-{{OS}}-{{ARCH}}" "v1.2.3"
  = generateURL (H := {| GOOS := "linux"; GOARCH := "amd64" |}) "mybucket"
      "mytool/mytool-{{OS}}-{{ARCH}}" "v2.0.0" /\
  generateURL (H := {| GOOS := "linux"; GOARCH := "amd64" |}) "mybucket"
    "mytool/mytool-{{OS}}-{{VERSION}}" "v1.2.3"
  = generateURL (H := {| GOOS := "linux"; GOARCH := "arm64" |}) "mybucket"
      "mytool/mytool-{{OS}}-{{VERSION}}" "v1.2.3" /\
  generateURL (H := {| GOOS := "linux"; GOARCH := "amd64" |}) "mybucket"
    "mytool/mytool-{{ARCH}}-{{VERSION}}" "v1.2.3"
  = generateURL (H := {| GOOS := "darwin"; GOARCH := "amd64" |}) "mybucket"
      "mytool/mytool-{{ARCH}}-{{VERSION}}" "v1.2.3".
Proof.
  split; [| split; [| split]].
  - exact (proj1 (absent_placeholder_ignored "mybucket" "" "" "" "" "" "" "")).
  - apply (proj1 (proj2 (absent_placeholder_ignored "mybucket"
             "mytool/mytool-{{OS}}-{{ARCH}}" "v1.2.3" "v2.0.0" "amd64" "amd64" "linux" "linux"))).
    reflexivity.
  - apply (proj1 (proj2 (proj2 (absent_placeholder_ignored "mybucket"
             "mytool/mytool-{{OS}}-{{VERSION}}" "v1.2.3" "v1.2.3" "amd64" "arm64"
             "linux" "linux")))); reflexivity.
  - apply (proj2 (proj2 (proj2 (absent_placeholder_ignored "mybucket"
             "mytool/mytool-{{ARCH}}-{{VERSION}}" "v1.2.3" "v1.2.3" "amd64" "amd64"
             "linux" "darwin")))); reflexivity.
Defined.

(** ** The original executable during an attempt *)

Section Invariant.
Context {libs : Libraries} {host : Host}.
Variables original target : string.

Let backup := target +:+ ".bak".

Lemma before_commit_app (t t' : list Step) :
  commits target t = false ->
  before_commit target (t ++ t') = (map after t ++ before_commit target t')%list.
Proof.
  induction t as [|st t IH]; intros Hc; [reflexivity |].
  cbn [commits existsb] in Hc. apply orb_false_elim in Hc as [Hst Hc].
  cbn [app before_commit map]. rewrite Hst. f_equal. now apply IH.
Qed.

Lemma before_commit_all (t : list Step) :
  forall m, In m (before_commit target t) -> In m (map after t).
Proof.
  induction t as [|st t IH]; intros m Hm; [contradiction |].
  cbn [before_commit] in Hm. destruct (is_commit target (call st)); [contradiction |].
  destruct Hm as [<- | Hm]; [now left | right; now apply IH].
Qed.

Lemma parked_kept (m : FS) : parked original target m -> original_kept original target m.
Proof. intros H. now right. Qed.

Lemma commits_app (t t' : list Step) :
  commits target (t ++ t') = commits target t || commits target t'.
Proof. apply existsb_app. Qed.

Lemma Remove_target_no_commit : is_commit target (Remove target) = false.
Proof.
  cbn [is_commit]. apply String.eqb_neq. intros E. now apply (backup_ne target).
Qed.

(** *** Steady computations *)

Lemma steady_ret {A : Type} (a : A) : steady original target (ret a).
Proof. intros s Hs. cbn. repeat split; [constructor | exact Hs]. Qed.

Lemma steady_bind {A B : Type} (m : Go A) (k : A -> Go B) :
  steady original target m -> (forall a, steady original target (k a)) ->
  steady original target (bind m k).
Proof.
  intros Hm Hk s Hs. destruct (Hm s Hs) as (Ht & Hf & Hc).
  unfold bind. destruct (result (m s)) as [a | code | path].
  - destruct (Hk a (final (m s)) Hf) as (Ht' & Hf' & Hc').
    cbn [after_calls trace final]. rewrite map_app, commits_app, Hc, Hc'.
    repeat split; [apply Forall_app; split; assumption | exact Hf'].
  - cbn [trace final]. repeat split; assumption.
  - cbn [trace final]. repeat split; assumption.
Qed.

Lemma steady_observe {A : Type} (c : Call) (good : bool) (a : A) :
  is_commit target c = false -> steady original target (observe c good a).
Proof.
  intros Hc s Hs. cbn. rewrite Hc. repeat split; [| exact Hs].
  repeat constructor. exact Hs.
Qed.

Lemma steady_fs_call (c : Call) (pre : FS -> bool) (eff : FS -> FS) :
  is_commit target c = false ->
  (forall m, parked original target m -> parked original target (eff m)) ->
  steady original target (fs_call c pre eff).
Proof.
  intros Hc He s Hs. unfold fs_call. cbn [trace final fs map after commits existsb call].
  rewrite Hc.
  assert (Hm : parked original target
                 (if no_fault (next_fault s) && pre (fs s) then eff (fs s) else fs s)).
  { destruct (no_fault (next_fault s) && pre (fs s)); [now apply He | exact Hs]. }
  repeat split; [repeat constructor; exact Hm | exact Hm].
Qed.

Lemma steady_fs_read {A : Type} (c : Call) (path : string) (k : string -> option A) :
  is_commit target c = false -> steady original target (fs_read c path k).
Proof.
  intros Hc s Hs. unfold fs_read. cbn [trace final fs map after commits existsb call].
  rewrite Hc. repeat split; [repeat constructor; exact Hs | exact Hs].
Qed.

Lemma parked_move (m : FS) :
  content m target = Some original ->
  parked original target (move target (target +:+ ".bak") m).
Proof.
  unfold parked, content. intros H.
  destruct (m !! target) as [f |] eqn:Hf; [| discriminate].
  now rewrite (move_new _ _ _ _ Hf).
Qed.

Lemma parked_write_bytes (bytes : string) (m : FS) :
  parked original target m -> parked original target (write_bytes target bytes m).
Proof.
  unfold parked, content. intros H.
  rewrite write_bytes_other; [exact H | apply backup_ne].
Qed.

Lemma parked_truncate_or_create (mode : N) (m : FS) :
  parked original target m -> parked original target (truncate_or_create target mode m).
Proof.
  unfold parked, content. intros H.
  rewrite truncate_or_create_other; [exact H | apply backup_ne].
Qed.

Lemma parked_set_mode (mode : N) (m : FS) :
  parked original target m -> parked original target (set_mode target mode m).
Proof.
  unfold parked, content. intros H.
  rewrite set_mode_other; [exact H | apply backup_ne].
Qed.

Lemma parked_delete (m : FS) :
  parked original target m -> parked original target (delete target m).
Proof.
  unfold parked, content. intros H.
  rewrite lookup_delete_ne; [exact H |]. intros E. now apply (backup_ne target).
Qed.

Lemma steady_fs_write (c : Call) (bytes : string) (sound : option error) :
  is_commit target c = false -> steady original target (fs_write c target bytes sound).
Proof.
  intros Hc s Hs. unfold fs_write.
  destruct (next_fault s); cbn [trace final fs map after commits existsb call];
    rewrite Hc; (repeat split; [repeat constructor |]); now apply parked_write_bytes.
Qed.

Lemma steady_io_Copy (resp : Response) : steady original target (io_Copy target resp).
Proof.
  intros s Hs.
  pose proof (steady_fs_write (Copy target) (Body resp) (snd (ioutil_ReadAll resp))
                eq_refl s Hs) as Hw.
  unfold io_Copy. destruct (next_fault s); [exact Hw | exact Hw |].
  cbn [trace final fs map after commits existsb call is_commit orb].
  repeat split; [repeat constructor |]; now apply parked_write_bytes.
Qed.

Lemma steady_untgzFile : steady original target (untgzFile target).
Proof.
  unfold untgzFile.
  apply steady_bind; [apply steady_fs_call; [reflexivity | auto] |].
  intros [err |]; [apply steady_ret |].
  apply steady_bind; [now apply steady_fs_read |].
  intros [stream | err]; [| apply steady_ret].
  apply steady_bind; [now apply steady_fs_read |].
  intros [[Typeflag entry] | err]; [| apply steady_ret].
  destruct (negb (Ascii.eqb Typeflag tar_TypeReg)); [apply steady_ret |].
  apply steady_bind; [now apply steady_fs_read |].
  intros [bytes | err]; [| apply steady_ret].
  apply steady_bind;
    [apply steady_fs_call; [apply Remove_target_no_commit | apply parked_delete] |].
  intros _.
  apply steady_bind;
    [apply steady_fs_call; [reflexivity | apply parked_truncate_or_create] |].
  intros [err |]; [apply steady_ret |].
  now apply steady_fs_write.
Qed.

(** *** Closing computations *)

Lemma closing_ret {A : Type} (a : A) : closing original target (ret a).
Proof. intros s Hs. constructor. Qed.

Lemma closing_bind {A B : Type} (m : Go A) (k : A -> Go B) :
  steady original target m -> (forall a, closing original target (k a)) ->
  closing original target (bind m k).
Proof.
  intros Hm Hk s Hs. destruct (Hm s Hs) as (Ht & Hf & Hc).
  assert (Hkept : Forall (original_kept original target) (map after (trace (m s)))).
  { eapply Forall_impl; [exact Ht | apply parked_kept]. }
  unfold bind. destruct (result (m s)) as [a | code | path].
  - cbn [after_calls trace]. rewrite before_commit_app by exact Hc.
    apply Forall_app. split; [exact Hkept | now apply Hk].
  - cbn [trace]. rewrite <- (app_nil_r (trace (m s))), before_commit_app by exact Hc.
    cbn [before_commit]. now rewrite app_nil_r.
  - cbn [trace]. rewrite <- (app_nil_r (trace (m s))), before_commit_app by exact Hc.
    cbn [before_commit]. now rewrite app_nil_r.
Qed.

(** The restore on a failure path: the backup is renamed over the target,
    or stays where it is when the renaming fails. *)
Lemma closing_restore (err : error) :
  closing original target (os_Rename backup target ;;; ret (Some err)).
Proof.
  unfold backup. intros s Hs. unfold bind, os_Rename, fs_call.
  cbn [result trace final after_calls ret app before_commit call is_commit after].
  constructor; [| constructor].
  destruct (no_fault (next_fault s) && exists_at (fs s) (target +:+ ".bak"));
    [| now right].
  left. unfold parked, content in Hs. unfold content.
  destruct (fs s !! (target +:+ ".bak")) as [f |] eqn:Hf; [| discriminate].
  rewrite (move_new (target +:+ ".bak") target (fs s) f Hf). exact Hs.
Qed.

(** The commit: nothing after the removal of the backup is before it. *)
Lemma closing_commit {A : Type} (k : Go A) :
  closing original target (os_Remove backup ;;; k).
Proof.
  unfold backup. intros s Hs. unfold bind, os_Remove, fs_call.
  cbn [result trace final after_calls app before_commit call is_commit].
  rewrite String.eqb_refl. constructor.
Qed.

End Invariant.

Section InvariantOfAttempt.
Context {libs : Libraries} {host : Host}.

Lemma next_fault_tail (m : FS) (l : list Fault) :
  next_fault {| fs := m; faults := tail l |} = nth 1 l NoFault.
Proof. destruct l as [|f [|f' l]]; reflexivity. Qed.

(** What follows the renaming to the backup path keeps the original until
    the commit. *)
Lemma closing_after_backup (original target downloadURL version checksumRespBody : string)
    (resp : Response) :
  closing original target
    (err <- os_OpenFile target 493 ;;
     match err with
     | Some err => os_Rename (target +:+ ".bak") target ;;; ret (Some err)
     | None =>
     err <- io_Copy target resp ;;
     match err with
     | Some err => os_Rename (target +:+ ".bak") target ;;; ret (Some err)
     | None =>
     err <- os_Open target ;;
     match err with
     | Some err => ret (Some err)
     | None =>
     r <- md5_Copy target ;;
     match r with
     | inr err => os_Rename (target +:+ ".bak") target ;;; ret (Some err)
     | inl sum =>
     if negb (String.eqb checksumRespBody (hex.EncodeToString sum))
     then os_Rename (target +:+ ".bak") target ;;;
          ret (Some (Errorf (version +:+ " checksum mismatch")))
     else
     err <- (if strings.HasSuffix downloadURL ".tgz" then untgzFile target else ret None) ;;
     match err with
     | Some err => os_Rename (target +:+ ".bak") target ;;; ret (Some err)
     | None =>
     err <- os_Chmod target 493 ;;
     match err with
     | Some err => os_Rename (target +:+ ".bak") target ;;; ret (Some err)
     | None =>
     os_Remove (target +:+ ".bak") ;;;
     fmt_Print ("successfully updated to " +:+ version +:+ lf) ;;;
     syscall_Exec target
     end end end end end end).
Proof.
  apply closing_bind;
    [apply steady_fs_call; [reflexivity | apply parked_truncate_or_create] |].
  intros [err |]; [apply closing_restore |].
  apply closing_bind; [apply steady_io_Copy |].
  intros [err |]; [apply closing_restore |].
  apply closing_bind; [apply steady_fs_call; [reflexivity | auto] |].
  intros [err |]; [apply closing_ret |].
  apply closing_bind; [now apply steady_fs_read |].
  intros [sum | err]; [| apply closing_restore].
  destruct (negb (String.eqb checksumRespBody (hex.EncodeToString sum)));
    [apply closing_restore |].
  apply closing_bind.
  { destruct (strings.HasSuffix downloadURL ".tgz");
      [apply steady_untgzFile | apply steady_ret]. }
  intros [err |]; [apply closing_restore |].
  apply closing_bind; [apply steady_fs_call; [reflexivity | apply parked_set_mode] |].
  intros [err |]; [apply closing_restore |].
  apply closing_commit.
Qed.

(** X21.  In an attempt whose renaming to the backup path meets no fault, the
    original executable is at the target path or at the backup path in
    every filesystem the attempt goes through before the commit, whatever
    the network answers and whichever other calls fail. *)
Theorem original_kept_when_parked (downloadURL checksumURL version exe target original : string)
    (m : FS) (l : list Fault) :
  executable = Some exe -> symlinks exe = Some target ->
  content m target = Some original ->
  nth 1 l NoFault = NoFault ->
  Forall (original_kept original target)
    (before_commit target
       (trace (downloadUpdate downloadURL checksumURL version {| fs := m; faults := l |}))).
Proof.
  intros Hexe Hsym Hm Hl.
  assert (Hk : original_kept original target m) by now left.
  assert (Hf : exists f, m !! target = Some f).
  { unfold content in Hm. destruct (m !! target) as [f |]; [eauto | discriminate]. }
  destruct Hf as [f Hf].
  unfold downloadUpdate.
  unfold http_Get at 1. destruct (http downloadURL) as [resp |];
    erewrite bind_returns by reflexivity; cbn beta iota;
    [| cbn; repeat (constructor; [exact Hk |]); constructor].
  unfold http_Get at 1. destruct (http checksumURL) as [checksumResp |];
    erewrite bind_returns by reflexivity; cbn beta iota;
    [| cbn; repeat (constructor; [exact Hk |]); constructor].
  unfold ioutil_ReadAll at 1. destruct (complete checksumResp);
    [| cbn; repeat (constructor; [exact Hk |]); constructor].
  erewrite bind_returns by (apply os_Executable_run; exact Hexe). cbn beta iota.
  erewrite bind_returns by (apply filepath_EvalSymlinks_run; exact Hsym). cbn beta iota.
  destruct l as [| f0 l].
  - erewrite bind_returns by (apply fs_call_good_nil; eapply exists_at_some; exact Hf).
    cbn beta iota.
    erewrite bind_returns by (apply fs_call_good_nil; eapply exists_at_some; exact Hf).
    cbn [after_calls trace app before_commit call is_commit after fs].
    repeat (constructor; [exact Hk |]).
    constructor; [right; now apply parked_move |].
    apply closing_after_backup. cbn [fs].
    now apply parked_move.
  - erewrite bind_returns by (apply fs_call_run).
    cbn beta. rewrite (exists_at_some _ _ _ Hf), andb_true_r.
    destruct (no_fault f0); cbn beta iota;
      [| cbn; repeat (constructor; [exact Hk |]); constructor].
    cbn [nth] in Hl.
    destruct l as [| f1 l].
    + erewrite bind_returns by (apply fs_call_good_nil; eapply exists_at_some; exact Hf).
      cbn [after_calls trace app before_commit call is_commit after fs].
      repeat (constructor; [exact Hk |]).
      constructor; [right; now apply parked_move |].
      apply closing_after_backup. cbn [fs].
      now apply parked_move.
    + cbn [nth] in Hl. subst f1.
      erewrite bind_returns by (apply fs_call_good; eapply exists_at_some; exact Hf).
      cbn [after_calls trace app before_commit call is_commit after fs].
      repeat (constructor; [exact Hk |]).
      constructor; [right; now apply parked_move |].
      apply closing_after_backup. cbn [fs].
      now apply parked_move.
Qed.

End InvariantOfAttempt.

(** ** The two failures that lose or leave out the original *)

(** C2 at the failing input: the renaming of the target to the backup path
    fails and its error is not looked at; the next call truncates the
    target, and from there to the commit the original bytes are at neither
    path. *)
Theorem backup_rename_unchecked :
  let host := example_host "" "v1.1.0" (whole "new-binary") (whole digest_of_new_binary) in
  let r := downloadUpdate (libs := example_libraries) (host := host)
             example_downloadURL example_checksumURL "v1.1.0"
             {| fs := example_fs; faults := [NoFault; Fails 0] |} in
  content example_fs example_target = Some "old-binary" /\
  map (fun st => (call st, ok st)) (firstn 3 (skipn 4 (trace r)))
  = [ (Stat example_target, true);
      (Rename example_target (example_target +:+ ".bak"), false);
      (OpenFile example_target, true) ] /\
  map (both example_target) (before_commit example_target (trace r))
  = [ (Some "old-binary", None); (Some "old-binary", None); (Some "old-binary", None);
      (Some "old-binary", None); (Some "old-binary", None); (Some "old-binary", None);
      (Some "", None); (Some "new-binary", None); (Some "new-binary", None);
      (Some "new-binary", None); (Some "new-binary", None) ] /\
  ~ Forall (original_kept "old-binary" example_target)
      (before_commit example_target (trace r)).
Proof.
  intros host r.
  assert (Hb : map (both example_target) (before_commit example_target (trace r))
               = [ (Some "old-binary", None); (Some "old-binary", None);
                   (Some "old-binary", None); (Some "old-binary", None);
                   (Some "old-binary", None); (Some "old-binary", None);
                   (Some "", None); (Some "new-binary", None); (Some "new-binary", None);
                   (Some "new-binary", None); (Some "new-binary", None) ])
    by (vm_compute; reflexivity).
  split; [vm_compute; reflexivity |]. split; [vm_compute; reflexivity |].
  split; [exact Hb |].
  intros Hall.
  assert (Hv : Forall (fun v => fst v = Some "old-binary" \/ snd v = Some "old-binary")
                 (map (both example_target) (before_commit example_target (trace r)))).
  { apply Forall_map. eapply Forall_impl; [exact Hall |]. intros m Hm. exact Hm. }
  rewrite Hb in Hv.
  do 6 (apply Forall_cons in Hv as [_ Hv]).
  apply Forall_cons in Hv as [[H | H] _]; discriminate H.
Qed.

(** C4 at the failing input: the target has been written and cannot be
    opened again for the digest; the error is returned at once, the last
    call is the failed [os.Open], and the target still holds the downloaded
    bytes while the original stays at the backup path. *)
Theorem reopen_failure_not_restored :
  let host := example_host "" "v1.1.0" (whole "new-binary") (whole digest_of_new_binary) in
  let r := downloadUpdate (libs := example_libraries) (host := host)
             example_downloadURL example_checksumURL "v1.1.0"
             {| fs := example_fs;
                faults := [NoFault; NoFault; NoFault; NoFault; Fails 0] |} in
  map (fun st => (call st, ok st)) (skipn 5 (trace r))
  = [ (Rename example_target (example_target +:+ ".bak"), true);
      (OpenFile example_target, true);
      (Copy example_target, true);
      (Open example_target, false) ] /\
  result r = Returns (Some (Failed (Open example_target))) /\
  both example_target (fs (final r)) = (Some "new-binary", Some "old-binary") /\
  ~ In (Rename (example_target +:+ ".bak") example_target) (map call (trace r)).
Proof.
  vm_compute. repeat split.
  intros H. repeat (destruct H as [H | H]; [discriminate H |]). exact H.
Qed.

(** ** The failure paths of an attempt *)

Section FailurePaths.
Context {libs : Libraries} {host : Host}.
Variable target : string.

Lemma settled_ret_nil : settled target (ret None).
Proof. intros s. exact I. Qed.

Lemma settled_restore (err : error) :
  settled target (os_Rename (target +:+ ".bak") target ;;; ret (Some err)).
Proof.
  intros s. unfold bind, os_Rename, fs_call. cbn [result].
  left. eexists [], _. split; reflexivity.
Qed.

Lemma settled_bind {A : Type} (m : Go A) (k : A -> Go (option error)) :
  (forall a, settled target (k a)) -> settled target (bind m k).
Proof.
  intros Hk s. unfold bind.
  destruct (result (m s)) as [a | code | path]; cbn [result]; [| exact I | exact I].
  specialize (Hk a (final (m s))). cbn [after_calls result trace].
  destruct (result (k a (final (m s)))) as [[err |] | |]; try exact I.
  destruct Hk as [(t & st & Ht & Hst) | Hk]; [left | right; exact Hk].
  exists (trace (m s) ++ t)%list, st. split; [| exact Hst].
  rewrite Ht. apply app_assoc.
Qed.

(** A filesystem call returns [nil] or its own error. *)
Lemma settled_bind_call (c : Call) (pre : FS -> bool) (eff : FS -> FS)
    (k : option error -> Go (option error)) :
  settled target (k None) -> settled target (k (Some (Failed c))) ->
  settled target (bind (fs_call c pre eff) k).
Proof.
  intros Hn Hf s.
  assert (E : exists a s' st,
             fs_call c pre eff s = {| result := Returns a; final := s'; trace := [st] |} /\
             (a = None \/ a = Some (Failed c))).
  { unfold fs_call. destruct (no_fault (next_fault s) && pre (fs s));
      eexists _, _, _; (split; [reflexivity |]); auto. }
  destruct E as (a & s' & st0 & E & Ha).
  rewrite (bind_returns _ _ _ _ _ _ E). cbn [after_calls result trace].
  assert (Hk : settled target (k a)) by (destruct Ha as [-> | ->]; assumption).
  specialize (Hk s').
  destruct (result (k a s')) as [[err |] | |]; try exact I.
  destruct Hk as [(t & st & Ht & Hst) | Hk]; [left | right; exact Hk].
  exists (st0 :: t), st. split; [| exact Hst]. rewrite Ht. reflexivity.
Qed.

Lemma settled_Exec : settled target (syscall_Exec target).
Proof.
  intros s. unfold syscall_Exec. cbn [result].
  destruct (no_fault (next_fault s) && exists_at (fs s) target); [exact I |].
  right. right. reflexivity.
Qed.

(** What follows the renaming to the backup path settles its errors. *)
Lemma settled_after_backup (downloadURL version checksumRespBody : string) (resp : Response) :
  settled target
    (err <- os_OpenFile target 493 ;;
     match err with
     | Some err => os_Rename (target +:+ ".bak") target ;;; ret (Some err)
     | None =>
     err <- io_Copy target resp ;;
     match err with
     | Some err => os_Rename (target +:+ ".bak") target ;;; ret (Some err)
     | None =>
     err <- os_Open target ;;
     match err with
     | Some err => ret (Some err)
     | None =>
     r <- md5_Copy target ;;
     match r with
     | inr err => os_Rename (target +:+ ".bak") target ;;; ret (Some err)
     | inl sum =>
     if negb (String.eqb checksumRespBody (hex.EncodeToString sum))
     then os_Rename (target +:+ ".bak") target ;;;
          ret (Some (Errorf (version +:+ " checksum mismatch")))
     else
     err <- (if strings.HasSuffix downloadURL ".tgz" then untgzFile target else ret None) ;;
     match err with
     | Some err => os_Rename (target +:+ ".bak") target ;;; ret (Some err)
     | None =>
     err <- os_Chmod target 493 ;;
     match err with
     | Some err => os_Rename (target +:+ ".bak") target ;;; ret (Some err)
     | None =>
     os_Remove (target +:+ ".bak") ;;;
     fmt_Print ("successfully updated to " +:+ version +:+ lf) ;;;
     syscall_Exec target
     end end end end end end).
Proof.
  apply settled_bind. intros [err |]; [apply settled_restore |].
  apply settled_bind. intros [err |]; [apply settled_restore |].
  apply settled_bind_call; [| intros s; cbn; right; left; reflexivity].
  apply settled_bind. intros [sum | err]; [| apply settled_restore].
  destruct (negb (String.eqb checksumRespBody (hex.EncodeToString sum)));
    [apply settled_restore |].
  apply settled_bind. intros [err |]; [apply settled_restore |].
  apply settled_bind. intros [err |]; [apply settled_restore |].
  apply settled_bind. intros _.
  apply settled_bind. intros _.
  apply settled_Exec.
Qed.

(** X22.  An attempt that has reached the renaming to the backup path and returns
    an error has the renaming of the backup over the target as its last
    call, unless the error is that of the [os.Open] of the written target,
    or that of [syscall.Exec] after the commit. *)
Theorem failure_paths_restore (downloadURL checksumURL version exe : string)
    (m : FS) (l : list Fault) (err : error) :
  executable = Some exe -> symlinks exe = Some target ->
  let r := downloadUpdate downloadURL checksumURL version {| fs := m; faults := l |} in
  result r = Returns (Some err) ->
  In (Rename target (target +:+ ".bak")) (map call (trace r)) ->
  last (map call (trace r)) = Some (Rename (target +:+ ".bak") target) \/
  err = Failed (Open target) \/ err = Failed (Exec target).
Proof.
  intros Hexe Hsym r. subst r.
  remember (downloadUpdate downloadURL checksumURL version {| fs := m; faults := l |})
    as r eqn:Er.
  unfold downloadUpdate in Er.
  unfold http_Get at 1 in Er. destruct (http downloadURL) as [resp |];
    erewrite bind_returns in Er by reflexivity; cbn beta iota in Er;
    [| subst r; cbn; intros _ H;
       repeat (destruct H as [H | H]; [discriminate H |]); contradiction H].
  unfold http_Get at 1 in Er. destruct (http checksumURL) as [checksumResp |];
    erewrite bind_returns in Er by reflexivity; cbn beta iota in Er;
    [| subst r; cbn; intros _ H;
       repeat (destruct H as [H | H]; [discriminate H |]); contradiction H].
  unfold ioutil_ReadAll at 1 in Er. destruct (complete checksumResp);
    [| subst r; cbn; intros _ H;
       repeat (destruct H as [H | H]; [discriminate H |]); contradiction H].
  erewrite bind_returns in Er by (apply os_Executable_run; exact Hexe).
  cbn beta iota in Er.
  erewrite bind_returns in Er by (apply filepath_EvalSymlinks_run; exact Hsym).
  cbn beta iota in Er.
  unfold bind at 1 in Er. unfold os_Stat, fs_call at 1 in Er.
  cbn [result final trace] in Er.
  match type of Er with
  | context [match (if ?b then None else Some _) with _ => _ end] => destruct b
  end; [| subst r; cbn; intros H; discriminate H].
  erewrite bind_returns in Er by reflexivity.
  match type of Er with
  | context [after_calls _ (?K ?s)] =>
      pose proof (settled_after_backup downloadURL version (Body checksumResp) resp s) as Hs;
      remember (K s) as r' eqn:Er'
  end.
  clear Er'. subst r. cbn [after_calls result trace].
  intros Hr _. rewrite Hr in Hs.
  destruct Hs as [(t & st & Ht & Hst) | Hs]; [left | right; exact Hs].
  rewrite Ht, !app_assoc, map_app. cbn [map]. rewrite last_snoc. now rewrite Hst.
Qed.

End FailurePaths.


(** ** Configuration and version checks *)

Section Checks.
Context {platform : Platform} {libs : Libraries} {host : Host}.

(** X1.  [validate] accepts a configuration exactly when its version, bucket,
    release key and version key are not empty; the checksum key may be
    empty and the version need not be a semantic version. *)
Theorem validate_accepts (u : Updater) :
  validate u = None <->
  CurrentVersion u <> "" /\ S3Bucket u <> "" /\ S3ReleaseKey u <> "" /\ S3VersionKey u <> "".
Proof.
  unfold validate.
  destruct (String.eqb_spec (CurrentVersion u) "") as [E1 | E1];
    [split; [discriminate | intros (H & _); contradiction] |].
  destruct (String.eqb_spec (S3Bucket u) "") as [E2 | E2];
    [split; [discriminate | intros (_ & H & _); contradiction] |].
  destruct (String.eqb_spec (S3ReleaseKey u) "") as [E3 | E3];
    [split; [discriminate | intros (_ & _ & H & _); contradiction] |].
  destruct (String.eqb_spec (S3VersionKey u) "") as [E4 | E4];
    [split; [discriminate | intros (_ & _ & _ & H); contradiction] |].
  split; [intros _; repeat split; assumption | reflexivity].
Qed.

(** X2.  A configuration that [validate] rejects: [AutoUpdate], when enabled,
    prints the reason and returns that error, without any request and
    without any filesystem call. *)
Theorem invalid_configuration_skipped (u : Updater) (err : error) (s : State) :
  os_Getenv "S3UPDATE_DISABLED" = "" ->
  validate u = Some err ->
  AutoUpdate u s
  = {| result := Returns (Some err);
       final := s;
       trace := [{| call := Print ("s3update: " +:+ Error err
                                   +:+ " - skipping auto update" +:+ lf);
                    ok := true; after := fs s |}] |}.
Proof.
  intros Henv Hval. unfold AutoUpdate. rewrite Henv, Hval. cbn [String.eqb negb].
  erewrite bind_returns by reflexivity. reflexivity.
Qed.

(** X3.  A local version that is no semantic version (say [1.0.0], without the
    [v]) passes [validate], and [AutoUpdate] then returns the error
    [invalid local version] having called nothing at all. *)
Theorem invalid_local_version_stops (u : Updater) (s : State) :
  os_Getenv "S3UPDATE_DISABLED" = "" ->
  validate u = None ->
  semver_IsValid (CurrentVersion u) = false ->
  AutoUpdate u s
  = {| result := Returns (Some (Errorf "invalid local version")); final := s; trace := [] |}.
Proof.
  intros Henv Hval Hlocal. unfold AutoUpdate. rewrite Henv, Hval. cbn [String.eqb negb].
  unfold runAutoUpdate. rewrite Hlocal. reflexivity.
Qed.

(** X4.  [fetchRemoteVersion] changes nothing and makes no filesystem call; it
    returns either a version without error, which is then valid and is the
    trimmed body of a completely delivered [VERSION] object, or the empty
    version with an error. *)
Theorem fetchRemoteVersion_outcome (bucket : string) (s : State) :
  let r := fetchRemoteVersion bucket s in
  final r = s /\ filesystem_calls (trace r) = [] /\
  exists v err,
    result r = Returns (v, err) /\
    ((err = None /\ semver_IsValid v = true /\
      exists resp, http (version_object bucket) = Some resp /\ complete resp = true /\
                   v = strings.TrimSpace (Body resp)) \/
     (err <> None /\ v = "")).
Proof.
  unfold fetchRemoteVersion, bind, http_Get. fold (version_object bucket).
  destruct (http (version_object bucket)) as [resp |] eqn:Hv; cbn.
  - destruct (complete resp) eqn:Hc; cbn.
    + destruct (semver_IsValid (strings.TrimSpace (Body resp))) eqn:Hs; cbn.
      * repeat split. eexists _, _. split; [reflexivity |]. left. eauto 10.
      * repeat split. eexists _, _. split; [reflexivity |]. right. split; [discriminate | reflexivity].
    + repeat split. eexists _, _. split; [reflexivity |]. right. split; [discriminate | reflexivity].
  - repeat split. eexists _, _. split; [reflexivity |]. right. split; [discriminate | reflexivity].
Qed.

(** X5.  When the version object cannot be had (no answer, a body that breaks
    off, or a body that is no semantic version once trimmed), [runAutoUpdate]
    returns that error after the one request for the version object: the
    artifact and the checksum are not requested and no filesystem call is
    made.  A body that is no version gives the error
    [remote version is invalid: <trimmed body>]. *)
Theorem remote_version_failure_stops (u : Updater) (s : State) :
  semver_IsValid (CurrentVersion u) = true ->
  (http (version_object (S3Bucket u)) = None \/
   exists resp, http (version_object (S3Bucket u)) = Some resp /\
                (complete resp = false \/
                 semver_IsValid (strings.TrimSpace (Body resp)) = false)) ->
  let r := runAutoUpdate u s in
  (exists err, result r = Returns (Some err)) /\
  final r = s /\
  network_calls (trace r) = [version_object (S3Bucket u)] /\
  filesystem_calls (trace r) = [] /\
  (forall resp, http (version_object (S3Bucket u)) = Some resp -> complete resp = true ->
   result r = Returns (Some (Errorf ("remote version is invalid: "
                                     +:+ strings.TrimSpace (Body resp))))).
Proof.
  intros Hlocal Hfail r. unfold r, runAutoUpdate. rewrite Hlocal. cbn [negb].
  unfold fetchRemoteVersion, bind, http_Get. fold (version_object (S3Bucket u)).
  destruct Hfail as [Hv | (resp & Hv & Hfail)]; rewrite Hv.
  - cbn. repeat split; [eauto | intros resp Hr; discriminate Hr].
  - cbn. destruct (complete resp) eqn:Hc.
    + destruct Hfail as [Hf | Hs]; [discriminate Hf |].
      rewrite Hs. cbn. repeat split; [eauto |].
      intros resp' Hr _. injection Hr as <-. reflexivity.
    + cbn. repeat split; [eauto |].
      intros resp' Hr Hc'. injection Hr as <-. congruence.
Qed.

End Checks.

(** ** The orchestration around an attempt *)

Section AroundAttempt.
Context {platform : Platform} {libs : Libraries} {host : Host}.

Lemma filesystem_calls_app (t t' : list Step) :
  filesystem_calls (t ++ t') = (filesystem_calls t ++ filesystem_calls t')%list.
Proof. unfold filesystem_calls. now rewrite map_app, List.filter_app. Qed.

Lemma without_prints_app (t t' : list Step) :
  without_prints (t ++ t') = (without_prints t ++ without_prints t')%list.
Proof. apply List.filter_app. Qed.

Lemma bind_print {B : Type} (text : string) (k : unit -> Go B) (s : State) :
  bind (fmt_Print text) k s
  = after_calls [{| call := Print text; ok := true; after := fs s |}] (k tt s).
Proof. reflexivity. Qed.

Lemma bind_prints {B : Type} (text text' : string) (k : unit -> Go B) (s : State) :
  bind (fmt_Print text ;;; fmt_Print text') k s
  = after_calls [{| call := Print text; ok := true; after := fs s |};
                 {| call := Print text'; ok := true; after := fs s |}] (k tt s).
Proof. reflexivity. Qed.

Lemma bind_ret {A B : Type} (a : A) (k : A -> Go B) (s : State) :
  bind (ret a) k s = after_calls [] (k a s).
Proof. reflexivity. Qed.

(** X6.  When the remote version is newer, [runAutoUpdate] ends as the attempt
    ends: an error of the attempt is returned as it is and the process is
    not exited, an attempt that returns no error ends the process with
    status 0, and a replaced process image stays replaced.  The run makes
    the filesystem calls of the attempt and no other, and its requests are
    the one for the version object and then those of the attempt. *)
Theorem attempt_outcome_propagated (u : Updater) (resp : Response) (s : State) :
  let A := CurrentVersion u in
  let B := strings.TrimSpace (Body resp) in
  let d := downloadUpdate (generateURL (S3Bucket u) (S3ReleaseKey u) B)
             (generateURL (S3Bucket u) (ChecksumKey u) B) B s in
  let r := runAutoUpdate u s in
  semver_IsValid A = true ->
  http (version_object (S3Bucket u)) = Some resp -> complete resp = true ->
  semver_IsValid B = true -> semver_Compare A B = (-1)%Z ->
  result r = match result d with
             | Returns (Some err) => Returns (Some err)
             | Returns None => Exits 0
             | Exits code => Exits code
             | Replaced path => Replaced path
             end /\
  final r = final d /\
  filesystem_calls (trace r) = filesystem_calls (trace d) /\
  network_calls (trace r) = version_object (S3Bucket u) :: network_calls (trace d).
Proof.
  intros A B d r HA Hv Hc HB Hcmp. unfold r, runAutoUpdate. fold A. rewrite HA. cbn [negb].
  erewrite bind_returns by (apply fetchRemoteVersion_run; eassumption).
  cbn beta iota. fold B. rewrite Hcmp. cbn [Z.eqb Pos.eqb].
  rewrite bind_print.
  destruct (Verbose u); [rewrite bind_prints | rewrite bind_ret];
    unfold bind; fold d;
    destruct (result d) as [[err |] | code | path];
    cbn [after_calls result final trace os_Exit ret];
    rewrite ?filesystem_calls_app, ?network_calls_app; cbn;
    rewrite ?app_nil_r; repeat split; reflexivity.
Qed.

Lemma bind_same_but_prints {A B : Type} (m : Go A) (k k' : A -> Go B) (s : State) :
  (forall a s', result (k a s') = result (k' a s') /\ final (k a s') = final (k' a s') /\
                without_prints (trace (k a s')) = without_prints (trace (k' a s'))) ->
  result (bind m k s) = result (bind m k' s) /\ final (bind m k s) = final (bind m k' s) /\
  without_prints (trace (bind m k s)) = without_prints (trace (bind m k' s)).
Proof.
  intros Hk. unfold bind. destruct (result (m s)) as [a | code | path]; [| repeat split ..].
  destruct (Hk a (final (m s))) as (Hr & Hf & Ht).
  cbn [after_calls result final trace]. rewrite !without_prints_app, Ht. repeat split; assumption.
Qed.

(** X7.  The [Verbose] flag adds printing and nothing else: with and without it
    [runAutoUpdate] ends the same way in the same state, and makes the same
    calls with the same outcomes apart from the prints. *)
Theorem verbose_only_prints (u : Updater) (s : State) :
  let quiet := runAutoUpdate (with_verbose u false) s in
  let loud := runAutoUpdate (with_verbose u true) s in
  result loud = result quiet /\ final loud = final quiet /\
  without_prints (trace loud) = without_prints (trace quiet).
Proof.
  intros quiet loud. unfold quiet, loud, runAutoUpdate.
  cbn [with_verbose CurrentVersion S3Bucket S3ReleaseKey ChecksumKey Verbose].
  destruct (semver_IsValid (CurrentVersion u)); cbn [negb]; [| repeat split].
  apply bind_same_but_prints. intros [v [err |]] s'; [repeat split |].
  destruct (semver_Compare (CurrentVersion u) v =? -1)%Z.
  - apply bind_same_but_prints. intros _ s''.
    rewrite bind_prints, bind_ret. cbn [after_calls result final trace].
    rewrite !without_prints_app. repeat split.
  - rewrite bind_print, bind_ret. repeat split.
Qed.

End AroundAttempt.

(** ** Extraction of the archive *)

Section Extraction.
Context {libs : Libraries} {host : Host}.

(** The run of [untgzFile] on a file that holds an archive whose first
    entry is a regular file, when no call fails except, possibly, the
    removal of the file (fault [fr]), whose error is not looked at. *)
Lemma untgzFile_run (filename stream entry : string) (f : File) (m : FS)
    (fr : Fault) (rest : list Fault) :
  m !! filename = Some f ->
  gzip_NewReader (data f) = Some stream ->
  tar_Next stream = Some (tar_TypeReg, entry) ->
  let m1 := if no_fault fr then delete filename m else m in
  let m2 := truncate_or_create filename (N.ldiff 438 umask) m1 in
  let m3 := write_bytes filename entry m2 in
  untgzFile filename
    {| fs := m;
       faults := NoFault :: NoFault :: NoFault :: NoFault :: fr :: NoFault :: NoFault :: rest |}
  = {| result := Returns None;
       final := {| fs := m3; faults := rest |};
       trace :=
         [ {| call := Open filename; ok := true; after := m |};
           {| call := GzipNewReader filename; ok := true; after := m |};
           {| call := TarNext filename; ok := true; after := m |};
           {| call := TarReadAll filename; ok := true; after := m |};
           {| call := Remove filename; ok := no_fault fr; after := m1 |};
           {| call := Create filename; ok := true; after := m2 |};
           {| call := Write filename; ok := true; after := m3 |} ] |}.
Proof.
  intros Hf Hgz Htar m1 m2 m3. subst m1 m2 m3.
  assert (He : exists_at m filename = true) by (eapply exists_at_some; exact Hf).
  unfold untgzFile.
  erewrite bind_returns by (apply fs_call_good; exact He). cbn beta iota.
  erewrite bind_returns by (eapply fs_read_good; [exact Hf | exact Hgz]). cbn beta iota.
  erewrite bind_returns by (eapply fs_read_good; [exact Hf | exact Htar]). cbn beta iota.
  rewrite Ascii.eqb_refl. cbn [negb].
  erewrite bind_returns by (eapply fs_read_good; [exact Hf | reflexivity]). cbn beta iota.
  erewrite bind_returns by (apply fs_call_run). cbn beta. rewrite He, andb_true_r.
  erewrite bind_returns by (apply fs_call_run). cbn beta. cbn [no_fault andb].
  unfold file_Write. rewrite fs_write_good. reflexivity.
Qed.

(** X8.  [untgzFile] on an archive whose first entry is a regular file, when no
    call fails: the file holds the bytes of the entry and nothing else
    changes.  The file is removed and created again, so its mode is 0666
    less the umask of the process, whatever it was; when the removal fails
    (its error is not looked at) the file is truncated in place and keeps
    its mode. *)
Theorem untgzFile_extracts (filename stream entry : string) (f : File) (m : FS)
    (fr : Fault) (rest : list Fault) :
  m !! filename = Some f ->
  gzip_NewReader (data f) = Some stream ->
  tar_Next stream = Some (tar_TypeReg, entry) ->
  let r := untgzFile filename
             {| fs := m;
                faults := NoFault :: NoFault :: NoFault :: NoFault :: fr
                          :: NoFault :: NoFault :: rest |} in
  result r = Returns None /\
  fs (final r) !! filename
  = Some {| data := entry;
            perm := if no_fault fr then N.ldiff 438 umask else perm f |} /\
  forall p, p <> filename -> fs (final r) !! p = m !! p.
Proof.
  intros Hf Hgz Htar r. unfold r.
  rewrite (untgzFile_run filename stream entry f m fr rest Hf Hgz Htar).
  cbn [result final fs]. split; [reflexivity |]. split.
  - erewrite write_bytes_at by apply truncate_or_create_at. cbn [perm].
    destruct (no_fault fr); [now rewrite lookup_delete_eq | now rewrite Hf].
  - intros p Hp. rewrite write_bytes_other, truncate_or_create_other by exact Hp.
    destruct (no_fault fr); [apply lookup_delete_ne; congruence | reflexivity].
Qed.

(** X9.  An archive whose first entry is not a regular file (a directory, a
    link, a device) is refused with the error
    [gunzipping file: unknown file type], and the file stays as it was. *)
Theorem untgzFile_refuses_other_entries (filename stream entry : string) (flag : ascii)
    (f : File) (m : FS) (rest : list Fault) :
  m !! filename = Some f ->
  gzip_NewReader (data f) = Some stream ->
  tar_Next stream = Some (flag, entry) ->
  flag <> tar_TypeReg ->
  let r := untgzFile filename {| fs := m; faults := NoFault :: NoFault :: NoFault :: rest |} in
  result r = Returns (Some (Errorf "gunzipping file: unknown file type")) /\
  fs (final r) = m /\
  filesystem_calls (trace r) = [Open filename; GzipNewReader filename; TarNext filename].
Proof.
  intros Hf Hgz Htar Hflag r. unfold r.
  assert (He : exists_at m filename = true) by (eapply exists_at_some; exact Hf).
  unfold untgzFile.
  erewrite bind_returns by (apply fs_call_good; exact He). cbn beta iota.
  erewrite bind_returns by (eapply fs_read_good; [exact Hf | exact Hgz]). cbn beta iota.
  erewrite bind_returns by (eapply fs_read_good; [exact Hf | exact Htar]). cbn beta iota.
  apply Ascii.eqb_neq in Hflag. rewrite Hflag. cbn [negb].
  repeat split.
Qed.

End Extraction.

(** ** The files an attempt can change *)

Section Frames.
Context {libs : Libraries} {host : Host}.
Variable P : string -> Prop.

Lemma touches_ret {A : Type} (a : A) : touches_only P (ret a).
Proof. intros s p Hp. reflexivity. Qed.

Lemma touches_bind {A B : Type} (m : Go A) (k : A -> Go B) :
  touches_only P m -> (forall a, touches_only P (k a)) -> touches_only P (bind m k).
Proof.
  intros Hm Hk s p Hp. unfold bind.
  destruct (result (m s)) as [a | code | path]; cbn [after_calls final]; [| now apply Hm ..].
  rewrite (Hk a (final (m s)) p Hp). now apply Hm.
Qed.

Lemma touches_observe {A : Type} (c : Call) (good : bool) (a : A) :
  touches_only P (observe c good a).
Proof. intros s p Hp. reflexivity. Qed.

Lemma touches_bind_observe {A B : Type} (c : Call) (good : bool) (a : A) (k : A -> Go B) :
  touches_only P (k a) -> touches_only P (bind (observe c good a) k).
Proof. intros Hk s p Hp. unfold bind, observe. cbn. now apply Hk. Qed.

Lemma touches_fs_call (c : Call) (pre : FS -> bool) (eff : FS -> FS) :
  (forall m p, ~ P p -> eff m !! p = m !! p) -> touches_only P (fs_call c pre eff).
Proof.
  intros He s p Hp. unfold fs_call. cbn [final fs].
  destruct (no_fault (next_fault s) && pre (fs s)); [now apply He | reflexivity].
Qed.

Lemma touches_fs_read {A : Type} (c : Call) (path : string) (k : string -> option A) :
  touches_only P (fs_read c path k).
Proof. intros s p Hp. reflexivity. Qed.

Lemma touches_fs_write (c : Call) (path bytes : string) (sound : option error) :
  P path -> touches_only P (fs_write c path bytes sound).
Proof.
  intros Hpath s p Hp. unfold fs_write.
  destruct (next_fault s); cbn [final fs]; apply write_bytes_other; congruence.
Qed.

Lemma touches_io_Copy (path : string) (resp : Response) :
  P path -> touches_only P (io_Copy path resp).
Proof.
  intros Hpath s p Hp. unfold io_Copy, fs_write.
  destruct (next_fault s); cbn [final fs]; apply write_bytes_other; congruence.
Qed.

Lemma touches_Exec (path : string) : touches_only P (syscall_Exec path).
Proof. intros s p Hp. reflexivity. Qed.

Lemma touches_untgzFile (filename : string) : P filename -> touches_only P (untgzFile filename).
Proof.
  intros Hf. unfold untgzFile.
  apply touches_bind; [apply touches_fs_call; reflexivity |].
  intros [err |]; [apply touches_ret |].
  apply touches_bind; [apply touches_fs_read |].
  intros [stream | err]; [| apply touches_ret].
  apply touches_bind; [apply touches_fs_read |].
  intros [[Typeflag entry] | err]; [| apply touches_ret].
  destruct (negb (Ascii.eqb Typeflag tar_TypeReg)); [apply touches_ret |].
  apply touches_bind; [apply touches_fs_read |].
  intros [bytes | err]; [| apply touches_ret].
  apply touches_bind.
  { apply touches_fs_call. intros m p Hp. apply lookup_delete_ne. congruence. }
  intros _.
  apply touches_bind.
  { apply touches_fs_call. intros m p Hp. apply truncate_or_create_other. congruence. }
  intros [err |]; [apply touches_ret |].
  now apply touches_fs_write.
Qed.

End Frames.

Section FrameOfAttempt.
Context {libs : Libraries} {host : Host}.

(** X10.  Whatever the answers of the network and whichever calls fail,
    [untgzFile] changes no file but the one it is given. *)
Theorem untgzFile_touches_only (filename : string) (s : State) (p : string) :
  p <> filename -> fs (final (untgzFile filename s)) !! p = fs s !! p.
Proof.
  intros Hp. apply (touches_untgzFile (fun q => q = filename)); [reflexivity | exact Hp].
Qed.

(** X11.  Whatever the answers of the network and whichever calls fail, an
    attempt changes no file but the resolved executable and its backup
    [<target>.bak]. *)
Theorem downloadUpdate_touches_only (downloadURL checksumURL version exe target : string)
    (s : State) (p : string) :
  executable = Some exe -> symlinks exe = Some target ->
  p <> target -> p <> target +:+ ".bak" ->
  fs (final (downloadUpdate downloadURL checksumURL version s)) !! p = fs s !! p.
Proof.
  intros Hexe Hsym Hp Hb.
  set (P := fun q : string => q = target \/ q = target +:+ ".bak").
  assert (HP : ~ P p) by (intros [E | E]; contradiction).
  assert (Hmove : forall a b, P a -> P b ->
            forall (m : FS) (q : string), ~ P q -> move a b m !! q = m !! q).
  { intros a b Ha Hb' m q Hq. apply move_other; congruence. }
  assert (Hrestore : forall err : error,
            touches_only P (os_Rename (target +:+ ".bak") target ;;; ret (Some err))).
  { intros err. apply touches_bind; [| intros _; apply touches_ret].
    apply touches_fs_call. apply Hmove; [now right | now left]. }
  enough (Hall : touches_only P (downloadUpdate downloadURL checksumURL version))
    by (apply Hall; exact HP).
  clear s p HP Hp Hb. unfold downloadUpdate.
  apply touches_bind.
  { unfold http_Get. destruct (http downloadURL); apply touches_observe. }
  intros [resp | err]; [| apply touches_ret].
  apply touches_bind.
  { unfold http_Get. destruct (http checksumURL); apply touches_observe. }
  intros [checksumResp | err]; [| apply touches_ret].
  unfold ioutil_ReadAll at 1. destruct (complete checksumResp); [| apply touches_ret].
  unfold os_Executable. rewrite Hexe. apply touches_bind_observe.
  unfold filepath_EvalSymlinks. rewrite Hsym. apply touches_bind_observe.
  apply touches_bind; [apply touches_fs_call; reflexivity |].
  intros [err |]; [apply touches_ret |].
  apply touches_bind; [apply touches_fs_call; apply Hmove; [now left | now right] |].
  intros _.
  apply touches_bind.
  { apply touches_fs_call. intros m q Hq. apply truncate_or_create_other.
    intros ->. apply Hq. now left. }
  intros [err |]; [apply Hrestore |].
  apply touches_bind; [apply touches_io_Copy; now left |].
  intros [err |]; [apply Hrestore |].
  apply touches_bind; [apply touches_fs_call; reflexivity |].
  intros [err |]; [apply touches_ret |].
  apply touches_bind; [apply touches_fs_read |].
  intros [sum | err]; [| apply Hrestore].
  destruct (negb (String.eqb (Body checksumResp) (hex.EncodeToString sum)));
    [apply Hrestore |].
  apply touches_bind.
  { destruct (strings.HasSuffix downloadURL ".tgz");
      [apply touches_untgzFile; now left | apply touches_ret]. }
  intros [err |]; [apply Hrestore |].
  apply touches_bind.
  { apply touches_fs_call. intros m q Hq. apply set_mode_other. intros ->. apply Hq. now left. }
  intros [err |]; [apply Hrestore |].
  apply touches_bind.
  { apply touches_fs_call. intros m q Hq. apply lookup_delete_ne. intros E. apply Hq. now right. }
  intros _.
  apply touches_bind; [apply touches_observe |].
  intros _. apply touches_Exec.
Qed.

End FrameOfAttempt.

(** ** Scenarios of an attempt *)

Section Scenarios.
Context {libs : Libraries} {host : Host}.

(** The calls of an attempt up to the digest of the written file, when the
    target exists and none of the six filesystem calls fails or panics. *)
Ltac to_digest Hdl Hc2 Hck Hc1 Hexe Hsym Ht H3 :=
  unfold downloadUpdate;
  erewrite bind_returns by (apply http_Get_run; eassumption); cbn beta iota;
  erewrite bind_returns by (apply http_Get_run; eassumption); cbn beta iota;
  unfold ioutil_ReadAll at 1; rewrite Hc1;
  erewrite bind_returns by (apply os_Executable_run; eassumption); cbn beta iota;
  erewrite bind_returns by (apply filepath_EvalSymlinks_run; eassumption); cbn beta iota;
  erewrite bind_returns by (apply fs_call_good; exact Ht); cbn beta iota;
  erewrite bind_returns by (apply fs_call_good; exact Ht); cbn beta iota;
  erewrite bind_returns by (apply fs_call_good; reflexivity); cbn beta iota;
  erewrite bind_returns by (apply io_Copy_good; exact Hc2); cbn beta iota;
  erewrite bind_returns by (apply fs_call_good; exact (exists_at_some _ _ _ H3));
  cbn beta iota;
  erewrite bind_returns by (eapply fs_read_good; [exact H3 | reflexivity]);
  cbn beta iota; cbn [data].

Lemma written_after_backup (target bytes : string) (original : File) (m : FS) :
  m !! target = Some original ->
  let m3 := write_bytes target bytes
              (truncate_or_create target (N.ldiff 493 umask) (move target (target +:+ ".bak") m)) in
  m3 !! target = Some {| data := bytes; perm := N.ldiff 493 umask |} /\
  m3 !! (target +:+ ".bak") = Some original.
Proof.
  intros Hm m3. pose proof (backup_ne target) as Hb. unfold m3. split.
  - erewrite write_bytes_at by apply truncate_or_create_at.
    rewrite (move_old target (target +:+ ".bak") m original) by congruence. reflexivity.
  - rewrite write_bytes_other, truncate_or_create_other by exact Hb. now apply move_new.
Qed.

(** X12.  A successful update of a plain executable: the checksum object holds
    the digest of the artifact, the URL does not end in [.tgz], no call
    fails and the copy through the progress reader does not panic (the
    schedule has [NoFault] for it).  The process image is replaced by the
    target, which holds the bytes of the artifact with mode 0755; the backup
    is gone.  When only the removal of the backup fails (its error is not
    looked at), the update goes through all the same and the original stays
    at [<target>.bak]. *)
Theorem update_installed (downloadURL checksumURL version : string)
    (resp checksumResp : Response) (exe target : string) (original : File)
    (m : FS) (fd : Fault) (rest : list Fault) :
  http downloadURL = Some resp -> complete resp = true ->
  http checksumURL = Some checksumResp -> complete checksumResp = true ->
  executable = Some exe -> symlinks exe = Some target ->
  m !! target = Some original ->
  Body checksumResp = hex.EncodeToString (md5_Sum (Body resp)) ->
  strings.HasSuffix downloadURL ".tgz" = false ->
  let r := downloadUpdate downloadURL checksumURL version
             {| fs := m;
                faults := NoFault :: NoFault :: NoFault :: NoFault :: NoFault :: NoFault
                          :: NoFault :: fd :: NoFault :: rest |} in
  result r = Replaced target /\
  fs (final r) !! target = Some {| data := Body resp; perm := 493 |} /\
  fs (final r) !! (target +:+ ".bak") = (if no_fault fd then None else Some original) /\
  last (map call (trace r)) = Some (Exec target).
Proof.
  intros Hdl Hc2 Hck Hc1 Hexe Hsym Hm He Htgz r. unfold r. clear r.
  assert (Ht : exists_at m target = true) by (eapply exists_at_some; eassumption).
  destruct (written_after_backup target (Body resp) original m Hm) as [H3 Hb3].
  pose proof (backup_ne target) as Hb.
  assert (H4 : set_mode target 493
                 (write_bytes target (Body resp)
                    (truncate_or_create target (N.ldiff 493 umask) (move target (target +:+ ".bak") m)))
               !! target = Some {| data := Body resp; perm := 493 |})
    by (now rewrite (set_mode_at _ _ _ _ H3)).
  assert (Hb4 : set_mode target 493
                  (write_bytes target (Body resp)
                     (truncate_or_create target (N.ldiff 493 umask) (move target (target +:+ ".bak") m)))
                !! (target +:+ ".bak") = Some original)
    by (now rewrite set_mode_other by exact Hb).
  match goal with
  | |- context [result ?run] =>
      cut (exists R, run = R /\
             result R = Replaced target /\
             fs (final R) !! target = Some {| data := Body resp; perm := 493 |} /\
             fs (final R) !! (target +:+ ".bak")
             = (if no_fault fd then None else Some original) /\
             last (map call (trace R)) = Some (Exec target));
        [intros (R & -> & H); exact H |]
  end.
  eexists. split.
  { to_digest Hdl Hc2 Hck Hc1 Hexe Hsym Ht H3.
    rewrite He, String.eqb_refl, Htgz. cbn [negb]. rewrite bind_ret. cbn beta iota.
    erewrite bind_returns by (apply fs_call_good; exact (exists_at_some _ _ _ H3)).
    cbn beta iota.
    erewrite bind_returns by (apply fs_call_run). cbn beta.
    rewrite (exists_at_some _ _ _ Hb4), andb_true_r.
    rewrite bind_print. unfold syscall_Exec.
    cbn [fs faults next_fault no_fault andb].
    reflexivity. }
  cbn [after_calls result final trace fs faults app map call].
  assert (H5 : (if no_fault fd
                then delete (target +:+ ".bak")
                       (set_mode target 493
                          (write_bytes target (Body resp)
                             (truncate_or_create target (N.ldiff 493 umask)
                                (move target (target +:+ ".bak") m))))
                else set_mode target 493
                       (write_bytes target (Body resp)
                          (truncate_or_create target (N.ldiff 493 umask)
                             (move target (target +:+ ".bak") m))))
               !! target = Some {| data := Body resp; perm := 493 |}).
  { destruct (no_fault fd); [rewrite lookup_delete_ne by exact Hb |]; exact H4. }
  rewrite (exists_at_some _ _ _ H5).
  split; [reflexivity |]. split; [exact H5 |]. split; [| reflexivity].
  destruct (no_fault fd); [apply lookup_delete_eq | exact Hb4].
Qed.

(** X13.  A successful update from an archive: the URL ends in [.tgz], the
    checksum object holds the digest of the archive as downloaded, the
    archive's first entry is a regular file, no call fails and the copy
    through the progress reader does not panic (the schedule has [NoFault]
    for it).  The process
    image is replaced by the target, which holds the bytes of the entry (not
    of the archive) with mode 0755, and the backup is gone.  The removal of
    the archive before the entry is written (fault [fr]) and the removal of
    the backup (fault [fd]) may fail: their errors are not looked at, the
    target is the same and the original then stays at [<target>.bak]. *)
Theorem archive_installed (downloadURL checksumURL version : string)
    (resp checksumResp : Response) (exe target stream entry : string) (original : File)
    (m : FS) (fr fd : Fault) (rest : list Fault) :
  http downloadURL = Some resp -> complete resp = true ->
  http checksumURL = Some checksumResp -> complete checksumResp = true ->
  executable = Some exe -> symlinks exe = Some target ->
  m !! target = Some original ->
  Body checksumResp = hex.EncodeToString (md5_Sum (Body resp)) ->
  strings.HasSuffix downloadURL ".tgz" = true ->
  gzip_NewReader (Body resp) = Some stream ->
  tar_Next stream = Some (tar_TypeReg, entry) ->
  let r := downloadUpdate downloadURL checksumURL version
             {| fs := m;
                faults := NoFault :: NoFault :: NoFault :: NoFault :: NoFault :: NoFault
                          :: NoFault :: NoFault :: NoFault :: NoFault :: fr :: NoFault
                          :: NoFault
                          :: NoFault :: fd :: NoFault :: rest |} in
  result r = Replaced target /\
  fs (final r) !! target = Some {| data := entry; perm := 493 |} /\
  fs (final r) !! (target +:+ ".bak") = (if no_fault fd then None else Some original) /\
  last (map call (trace r)) = Some (Exec target).
Proof.
  intros Hdl Hc2 Hck Hc1 Hexe Hsym Hm He Htgz Hgz Htar r. unfold r. clear r.
  assert (Ht : exists_at m target = true) by (eapply exists_at_some; eassumption).
  destruct (written_after_backup target (Body resp) original m Hm) as [H3 Hb3].
  pose proof (backup_ne target) as Hb.
  set (m3 := write_bytes target (Body resp)
               (truncate_or_create target (N.ldiff 493 umask) (move target (target +:+ ".bak") m))) in *.
  set (m6 := write_bytes target entry
               (truncate_or_create target (N.ldiff 438 umask)
                  (if no_fault fr then delete target m3 else m3))).
  assert (H6 : exists mode, m6 !! target = Some {| data := entry; perm := mode |}).
  { eexists. unfold m6. erewrite write_bytes_at by apply truncate_or_create_at.
    reflexivity. }
  destruct H6 as [mode H6].
  assert (Hb6 : m6 !! (target +:+ ".bak") = Some original).
  { unfold m6. rewrite write_bytes_other, truncate_or_create_other by exact Hb.
    destruct (no_fault fr); [rewrite lookup_delete_ne by congruence |]; exact Hb3. }
  assert (H7 : set_mode target 493 m6 !! target = Some {| data := entry; perm := 493 |})
    by (now rewrite (set_mode_at _ _ _ _ H6)).
  assert (Hb7 : set_mode target 493 m6 !! (target +:+ ".bak") = Some original)
    by (now rewrite set_mode_other by exact Hb).
  match goal with
  | |- context [result ?run] =>
      match goal with
      | |- ?G =>
          let P := eval pattern run in G in
          match P with
          | ?F _ => cut (exists R, run = R /\ F R); [intros (R & -> & H); exact H |]
          end
      end
  end.
  eexists. split.
  { to_digest Hdl Hc2 Hck Hc1 Hexe Hsym Ht H3.
    rewrite He, String.eqb_refl, Htgz. cbn [negb].
    erewrite bind_returns
      by (apply (untgzFile_run target stream entry _ _ fr _ H3 Hgz Htar)).
    cbn beta iota. fold m3. fold m6.
    erewrite bind_returns by (apply fs_call_good; exact (exists_at_some _ _ _ H6)).
    cbn beta iota.
    erewrite bind_returns by (apply fs_call_run). cbn beta.
    rewrite (exists_at_some _ _ _ Hb7), andb_true_r.
    rewrite bind_print. unfold syscall_Exec.
    cbn [fs faults next_fault no_fault andb].
    reflexivity. }
  cbn [after_calls result final trace fs faults app map call].
  assert (H8 : (if no_fault fd
                then delete (target +:+ ".bak") (set_mode target 493 m6)
                else set_mode target 493 m6)
               !! target = Some {| data := entry; perm := 493 |}).
  { destruct (no_fault fd); [rewrite lookup_delete_ne by exact Hb |]; exact H7. }
  rewrite (exists_at_some _ _ _ H8).
  split; [reflexivity |]. split; [exact H8 |]. split; [| reflexivity].
  destruct (no_fault fd); [apply lookup_delete_eq | exact Hb7].
Qed.

(** X14.  A download that breaks off is rolled back.  When the body of the
    artifact ends with an error, or the writing into the target fails
    after any number of bytes (an error of the copy, not a panic inside
    it), the attempt returns that error, its last call is the renaming of
    the backup over the target, and the target is again the original file,
    with no backup left (the two renamings meeting no fault). *)
Theorem interrupted_download_rolled_back (downloadURL checksumURL version : string)
    (resp checksumResp : Response) (exe target : string) (original : File)
    (m : FS) (fc : Fault) (err : error) (rest : list Fault) :
  http downloadURL = Some resp ->
  http checksumURL = Some checksumResp -> complete checksumResp = true ->
  executable = Some exe -> symlinks exe = Some target ->
  m !! target = Some original ->
  (fc = NoFault /\ complete resp = false /\ err = ErrUnexpectedEOF) \/
  (exists n, fc = Fails n /\ err = Failed (Copy target)) ->
  let r := downloadUpdate downloadURL checksumURL version
             {| fs := m;
                faults := NoFault :: NoFault :: NoFault :: fc :: NoFault :: rest |} in
  result r = Returns (Some err) /\
  fs (final r) !! target = Some original /\
  fs (final r) !! (target +:+ ".bak") = None /\
  last (map call (trace r)) = Some (Rename (target +:+ ".bak") target).
Proof.
  intros Hdl Hck Hc1 Hexe Hsym Hm Hbad r. unfold r. clear r.
  assert (Ht : exists_at m target = true) by (eapply exists_at_some; eassumption).
  pose proof (backup_ne target) as Hb.
  assert (Hk : forall bytes,
            write_bytes target bytes
              (truncate_or_create target (N.ldiff 493 umask)
                 (move target (target +:+ ".bak") m))
            !! (target +:+ ".bak") = Some original)
    by (intros bytes; apply (written_after_backup target bytes original m Hm)).
  destruct Hbad as [(-> & Hc2 & ->) | (n & -> & ->)];
    match goal with
    | |- context [result ?run] =>
        match goal with
        | |- ?G =>
            let P := eval pattern run in G in
            match P with
            | ?F _ => cut (exists R, run = R /\ F R);
                      [intros (R & -> & H); exact H |]
            end
        end
    end;
    (eexists; split;
     [ unfold downloadUpdate;
       erewrite bind_returns by (apply http_Get_run; eassumption); cbn beta iota;
       erewrite bind_returns by (apply http_Get_run; eassumption); cbn beta iota;
       unfold ioutil_ReadAll at 1; rewrite Hc1;
       erewrite bind_returns by (apply os_Executable_run; eassumption); cbn beta iota;
       erewrite bind_returns by (apply filepath_EvalSymlinks_run; eassumption);
       cbn beta iota;
       erewrite bind_returns by (apply fs_call_good; exact Ht); cbn beta iota;
       erewrite bind_returns by (apply fs_call_good; exact Ht); cbn beta iota;
       erewrite bind_returns by (apply fs_call_good; reflexivity); cbn beta iota;
       unfold io_Copy, ioutil_ReadAll; cbn [next_fault faults snd];
       try rewrite Hc2;
       erewrite bind_returns by reflexivity; cbn beta iota;
       erewrite bind_returns
         by (apply fs_call_good; exact (exists_at_some _ _ _ (Hk _)));
       reflexivity
     | cbn [after_calls ret result final trace fs app map call];
       (split; [reflexivity |]); (split; [now apply move_new |]);
       (split; [eapply move_old; [exact Hb | apply Hk] | reflexivity]) ]).
Qed.

(** X23.  A panic inside the copy is not rolled back.  When the draw
    function of the progress reader panics after [n] bytes of the artifact
    have been written, every call before it having succeeded, the process
    ends with the status of a panic and the copy is its last call: the
    backup is not renamed back, so the target holds the first [n] bytes of
    the artifact, with the mode it was created with, and the original is
    left at [<target>.bak]. *)
Theorem copy_panic_not_rolled_back (downloadURL checksumURL version : string)
    (resp checksumResp : Response) (exe target : string) (original : File)
    (m : FS) (n : nat) (rest : list Fault) :
  http downloadURL = Some resp ->
  http checksumURL = Some checksumResp -> complete checksumResp = true ->
  executable = Some exe -> symlinks exe = Some target ->
  m !! target = Some original ->
  let r := downloadUpdate downloadURL checksumURL version
             {| fs := m;
                faults := NoFault :: NoFault :: NoFault :: Panics n :: rest |} in
  result r = Exits panic_status /\
  fs (final r) !! target
  = Some {| data := strings.take n (Body resp); perm := N.ldiff 493 umask |} /\
  fs (final r) !! (target +:+ ".bak") = Some original /\
  last (map call (trace r)) = Some (Copy target) /\
  ~ In (Rename (target +:+ ".bak") target) (map call (trace r)).
Proof.
  intros Hdl Hck Hc1 Hexe Hsym Hm r. unfold r. clear r.
  assert (Ht : exists_at m target = true) by (eapply exists_at_some; eassumption).
  pose proof (backup_ne target) as Hb.
  destruct (written_after_backup target (strings.take n (Body resp)) original m Hm)
    as [H3 Hb3].
  match goal with
  | |- context [result ?run] =>
      match goal with
      | |- ?G =>
          let P := eval pattern run in G in
          match P with
          | ?F _ => cut (exists R, run = R /\ F R); [intros (R & -> & H); exact H |]
          end
      end
  end.
  eexists. split.
  { unfold downloadUpdate.
    erewrite bind_returns by (apply http_Get_run; eassumption). cbn beta iota.
    erewrite bind_returns by (apply http_Get_run; eassumption). cbn beta iota.
    unfold ioutil_ReadAll at 1. rewrite Hc1.
    erewrite bind_returns by (apply os_Executable_run; eassumption). cbn beta iota.
    erewrite bind_returns by (apply filepath_EvalSymlinks_run; eassumption).
    cbn beta iota.
    erewrite bind_returns by (apply fs_call_good; exact Ht). cbn beta iota.
    erewrite bind_returns by (apply fs_call_good; exact Ht). cbn beta iota.
    erewrite bind_returns by (apply fs_call_good; reflexivity). cbn beta iota.
    erewrite bind_exits by reflexivity.
    reflexivity. }
  cbn [after_calls result final trace fs app map call tail faults].
  split; [reflexivity |]. split; [exact H3 |]. split; [exact Hb3 |].
  split; [reflexivity |].
  intros Hin. cbn [In] in Hin.
  repeat (destruct Hin as [Hin | Hin]; [first [discriminate Hin | congruence] |]).
  exact Hin.
Qed.


Ltac before_filesystem :=
  repeat split; eauto;
  repeat first
    [ apply Forall_nil_2
    | apply Forall_cons_2; [first [reflexivity | now left | right; eauto] |] ].

(** X15.  An attempt that cannot get the artifact, the checksum object or the
    path of the running executable returns the error and has not touched
    the filesystem: the state and every filesystem of the trace are the
    initial ones, and no file is looked at, renamed or opened. *)
Theorem attempt_fails_before_filesystem (downloadURL checksumURL version : string)
    (s : State) :
  (http downloadURL = None \/ http checksumURL = None \/
   (exists checksumResp, http checksumURL = Some checksumResp /\
                         complete checksumResp = false) \/
   executable = None \/
   (exists exe, executable = Some exe /\ symlinks exe = None)) ->
  let r := downloadUpdate downloadURL checksumURL version s in
  (exists err, result r = Returns (Some err)) /\ final r = s /\
  Forall (fun st => after st = fs s) (trace r) /\
  Forall (fun c => c = Executable \/ exists path, c = EvalSymlinks path)
    (filesystem_calls (trace r)).
Proof.
  intros Hbad r. unfold r, downloadUpdate, bind, http_Get, os_Executable,
    filepath_EvalSymlinks, ioutil_ReadAll.
  destruct (http downloadURL) as [resp |]; cbn; [| before_filesystem].
  destruct (http checksumURL) as [checksumResp |] eqn:Hck; cbn; [| before_filesystem].
  destruct (complete checksumResp) eqn:Hc; cbn; [| before_filesystem].
  destruct executable as [exe |] eqn:Hexe; cbn; [| before_filesystem].
  destruct (symlinks exe) as [target |] eqn:Hsym; cbn; [| before_filesystem].
  exfalso.
  destruct Hbad as [H | [H | [(c & H & Hc') | [H | (e & H & Hs)]]]]; try discriminate H.
  - injection H as <-. congruence.
  - injection H as <-. congruence.
Qed.

End Scenarios.

(** ** How a run can end *)

Section Triples.
Context {platform : Platform} {libs : Libraries} {host : Host}.

Lemma triple_ret {A : Type} (Pre : FS -> Prop) (a : A) (Post : Completion A -> FS -> Prop) :
  (forall m, Pre m -> Post (Returns a) m) -> triple Pre (ret a) Post.
Proof. intros H s Hs. apply H, Hs. Qed.

Lemma triple_bind {A B : Type} (Mid : A -> FS -> Prop) (Pre : FS -> Prop) (m : Go A)
    (k : A -> Go B) (Post : Completion B -> FS -> Prop) :
  yields Pre m Mid -> (forall a, triple (Mid a) (k a) Post) -> triple Pre (bind m k) Post.
Proof.
  intros Hm Hk s Hs. destruct (Hm s Hs) as (a & Hr & Ha).
  unfold bind. rewrite Hr. cbn [after_calls result final]. apply Hk, Ha.
Qed.

Lemma triple_bind_any {A B : Type} (Mid : Completion A -> FS -> Prop) (Pre : FS -> Prop)
    (m : Go A) (k : A -> Go B) (Post : Completion B -> FS -> Prop) :
  triple Pre m Mid ->
  (forall a, triple (Mid (Returns a)) (k a) Post) ->
  (forall code f, Mid (Exits code) f -> Post (Exits code) f) ->
  (forall path f, Mid (Replaced path) f -> Post (Replaced path) f) ->
  triple Pre (bind m k) Post.
Proof.
  intros Hm Hk He Hr s Hs. specialize (Hm s Hs). unfold bind.
  destruct (result (m s)) as [a | code | path]; cbn [after_calls result final].
  - apply Hk, Hm.
  - apply He, Hm.
  - apply Hr, Hm.
Qed.

Lemma triple_bind_observe {A B : Type} (Pre : FS -> Prop) (c : Call) (good : bool) (a : A)
    (k : A -> Go B) (Post : Completion B -> FS -> Prop) :
  triple Pre (k a) Post -> triple Pre (bind (observe c good a) k) Post.
Proof. intros Hk s Hs. exact (Hk s Hs). Qed.

Lemma triple_assume {A : Type} (Fact : Prop) (Pre : FS -> Prop) (m : Go A)
    (Post : Completion A -> FS -> Prop) :
  (Fact -> triple Pre m Post) -> triple (fun f => Fact /\ Pre f) m Post.
Proof. intros H s [HF Hs]. now apply H. Qed.

Lemma yields_ret {A : Type} (Pre : FS -> Prop) (a : A) (Mid : A -> FS -> Prop) :
  (forall m, Pre m -> Mid a m) -> yields Pre (ret a) Mid.
Proof. intros H s Hs. exists a. split; [reflexivity | apply H, Hs]. Qed.

Lemma yields_bind {A B : Type} (Mid : A -> FS -> Prop) (Pre : FS -> Prop) (m : Go A)
    (k : A -> Go B) (Mid' : B -> FS -> Prop) :
  yields Pre m Mid -> (forall a, yields (Mid a) (k a) Mid') -> yields Pre (bind m k) Mid'.
Proof.
  intros Hm Hk s Hs. destruct (Hm s Hs) as (a & Hr & Ha).
  unfold bind. rewrite Hr. cbn [after_calls result final]. apply Hk, Ha.
Qed.

Lemma yields_fs_call (Pre : FS -> Prop) (c : Call) (pre : FS -> bool) (eff : FS -> FS)
    (Mid : option error -> FS -> Prop) :
  (forall m, Pre m -> pre m = true -> Mid None (eff m)) ->
  (forall m, Pre m -> Mid (Some (Failed c)) m) ->
  yields Pre (fs_call c pre eff) Mid.
Proof.
  intros Hok Hko s Hs. unfold fs_call. cbn [result final fs].
  destruct (no_fault (next_fault s) && pre (fs s)) eqn:E.
  - eexists. split; [reflexivity |]. apply andb_prop in E. apply Hok; [exact Hs | apply E].
  - eexists. split; [reflexivity |]. apply Hko, Hs.
Qed.

Lemma yields_fs_read {A : Type} (Pre : FS -> Prop) (c : Call) (path : string)
    (k : string -> option A) (Mid : A + error -> FS -> Prop) :
  (forall m f a, Pre m -> m !! path = Some f -> k (data f) = Some a -> Mid (inl a) m) ->
  (forall m, Pre m -> Mid (inr (Failed c)) m) ->
  yields Pre (fs_read c path k) Mid.
Proof.
  intros Hok Hko s Hs. unfold fs_read. cbn [result final fs].
  destruct (no_fault (next_fault s));
    [| eexists; split; [reflexivity | apply Hko, Hs]].
  destruct (fs s !! path) as [f |] eqn:Ef;
    [| eexists; split; [reflexivity | apply Hko, Hs]].
  destruct (k (data f)) as [a |] eqn:Ek;
    eexists; (split; [reflexivity |]); [eapply Hok; eassumption | apply Hko, Hs].
Qed.

Lemma yields_fs_write (Pre : FS -> Prop) (c : Call) (path bytes : string)
    (sound : option error) (Mid : option error -> FS -> Prop) :
  (forall m, Pre m -> sound = None -> Mid None (write_bytes path bytes m)) ->
  (forall e m, Mid (Some e) m) ->
  yields Pre (fs_write c path bytes sound) Mid.
Proof.
  intros Hok Hko s Hs. unfold fs_write. destruct (next_fault s); cbn [result final fs].
  - destruct sound as [e |]; eexists; (split; [reflexivity |]);
      [apply Hko | apply Hok; [exact Hs | reflexivity]].
  - eexists. split; [reflexivity | apply Hko].
  - eexists. split; [reflexivity | apply Hko].
Qed.

(** The copy through the progress reader: it returns without error only
    when all the bytes of a complete body are in the file, and it ends the
    process only by a panic, with some first bytes of the body in the
    file. *)
Lemma triple_io_Copy (Pre : FS -> Prop) (path : string) (resp : Response) :
  triple Pre (io_Copy path resp)
    (fun c f =>
       match c with
       | Returns None =>
           complete resp = true /\ exists m, Pre m /\ f = write_bytes path (Body resp) m
       | Returns (Some _) => True
       | Exits code =>
           code = panic_status /\
           exists n m, Pre m /\ f = write_bytes path (strings.take n (Body resp)) m
       | Replaced _ => False
       end).
Proof.
  intros s Hs. unfold io_Copy, fs_write, ioutil_ReadAll.
  destruct (next_fault s); cbn [result final fs snd].
  - destruct (complete resp); [| exact I]. split; [reflexivity |]. eauto.
  - exact I.
  - split; [reflexivity |]. eauto.
Qed.

(** [untgzFile] comes back to its caller, with an error or without: it
    neither ends the process nor replaces it. *)
Lemma yields_untgzFile (Pre : FS -> Prop) (filename : string) :
  yields Pre (untgzFile filename) (fun _ _ => True).
Proof.
  assert (Hret : forall (P : FS -> Prop) (a : option error),
            yields P (ret a) (fun _ _ => True))
    by (intros P a; apply yields_ret; intros; exact I).
  unfold untgzFile.
  apply (yields_bind (fun _ _ => True)); [apply yields_fs_call; intros; exact I |].
  intros [err |]; [apply Hret |].
  apply (yields_bind (fun _ _ => True)); [apply yields_fs_read; intros; exact I |].
  intros [stream | err]; [| apply Hret].
  apply (yields_bind (fun _ _ => True)); [apply yields_fs_read; intros; exact I |].
  intros [[Typeflag entry] | err]; [| apply Hret].
  destruct (negb (Ascii.eqb Typeflag tar_TypeReg)); [apply Hret |].
  apply (yields_bind (fun _ _ => True)); [apply yields_fs_read; intros; exact I |].
  intros [bytes | err]; [| apply Hret].
  apply (yields_bind (fun _ _ => True)); [apply yields_fs_call; intros; exact I |].
  intros _.
  apply (yields_bind (fun _ _ => True)); [apply yields_fs_call; intros; exact I |].
  intros [err |]; [apply Hret |].
  apply yields_fs_write; intros; exact I.
Qed.

(** [fetchRemoteVersion] comes back to its caller and leaves the
    filesystem as it was. *)
Lemma yields_fetchRemoteVersion (Pre : FS -> Prop) (bucket : string)
    (Mid : string * option error -> FS -> Prop) :
  (forall a m, Pre m -> Mid a m) -> yields Pre (fetchRemoteVersion bucket) Mid.
Proof.
  intros H s Hs. unfold fetchRemoteVersion, bind, http_Get.
  destruct (http _) as [resp |]; cbn; [| eexists; split; [reflexivity | apply H, Hs]].
  destruct (complete resp); cbn; [| eexists; split; [reflexivity | apply H, Hs]].
  destruct (semver_IsValid _); cbn; eexists; (split; [reflexivity | apply H, Hs]).
Qed.

(** The ways an attempt can end, from the filesystem [before], whatever the
    host answers and whichever calls fail or panic. *)
Lemma downloadUpdate_ends (downloadURL checksumURL version : string) (before : FS) :
  triple (fun m => m = before) (downloadUpdate downloadURL checksumURL version)
    (fun c m =>
       match c with
       | Returns None => m = before
       | Returns (Some _) => True
       | Exits code =>
           code = panic_status /\
           exists exe target resp n parked,
             executable = Some exe /\ symlinks exe = Some target /\
             http downloadURL = Some resp /\
             (parked = before \/ parked = move target (target +:+ ".bak") before) /\
             m = write_bytes target (strings.take n (Body resp))
                   (truncate_or_create target (N.ldiff 493 umask) parked)
       | Replaced path =>
           exists exe resp checksumResp f,
             executable = Some exe /\ symlinks exe = Some path /\
             http downloadURL = Some resp /\ complete resp = true /\
             http checksumURL = Some checksumResp /\ complete checksumResp = true /\
             Body checksumResp = hex.EncodeToString (md5_Sum (Body resp)) /\
             m !! path = Some f /\ perm f = 493%N /\
             (strings.HasSuffix downloadURL ".tgz" = false -> data f = Body resp)
       end).
Proof.
  unfold downloadUpdate.
  unfold http_Get at 1. destruct (http downloadURL) as [resp |] eqn:Hdl;
    apply triple_bind_observe; cbn beta iota; [| apply triple_ret; intros; exact I].
  unfold http_Get at 1. destruct (http checksumURL) as [checksumResp |] eqn:Hck;
    apply triple_bind_observe; cbn beta iota; [| apply triple_ret; intros; exact I].
  unfold ioutil_ReadAll at 1. destruct (complete checksumResp) eqn:Hc1;
    [| apply triple_ret; intros; exact I].
  unfold os_Executable. destruct executable as [exe |] eqn:Hexe;
    apply triple_bind_observe; cbn beta iota; [| apply triple_ret; intros; exact I].
  unfold filepath_EvalSymlinks. destruct (symlinks exe) as [target |] eqn:Hsym;
    apply triple_bind_observe; cbn beta iota; [| apply triple_ret; intros; exact I].
  pose proof (backup_ne target) as Hb.
  (* os.Stat *)
  apply (triple_bind (fun (_ : option error) m => m = before));
    [apply yields_fs_call; intros m Hm; intros; exact Hm |].
  intros [err |]; [apply triple_ret; intros m Hm; exact Hm |].
  (* os.Rename to the backup *)
  apply (triple_bind
           (fun (_ : option error) m =>
              m = before \/ m = move target (target +:+ ".bak") before)).
  { apply yields_fs_call; [intros m -> _; now right | intros m ->; now left]. }
  intros _.
  (* os.OpenFile *)
  apply (triple_bind
           (fun err m => match err with
                         | None =>
                             exists parked,
                               (parked = before \/
                                parked = move target (target +:+ ".bak") before) /\
                               m = truncate_or_create target (N.ldiff 493 umask) parked
                         | Some _ => True
                         end)).
  { apply yields_fs_call; [| intros; exact I]. intros m Hm _. eauto. }
  intros [err |]; [intros s _; exact I |].
  (* io.Copy into the file *)
  eapply triple_bind_any; [apply triple_io_Copy | | |]; cbn beta iota.
  2: { intros code f (-> & n & m & (parked & Hp & ->) & ->).
       split; [reflexivity |]. exists exe, target, resp, n, parked. auto. }
  2: { intros path f []. }
  intros [err |]; [intros s _; exact I |].
  apply triple_assume. intros Hc2.
  apply (triple_bind
           (fun err m => match err with
                         | None => exists mode, m !! target
                                                = Some {| data := Body resp; perm := mode |}
                         | Some _ => True
                         end)).
  (* os.Open *)
  { apply yields_fs_call; [| intros; exact I].
    intros m (m2 & (parked & _ & ->) & ->) _.
    eexists. erewrite write_bytes_at by apply truncate_or_create_at. reflexivity. }
  intros [err |]; [apply triple_ret; intros; exact I |].
  (* the digest *)
  unfold md5_Copy.
  apply (triple_bind
           (fun r m => match r with
                       | inl sum => sum = md5_Sum (Body resp) /\
                                    exists mode, m !! target
                                                 = Some {| data := Body resp; perm := mode |}
                       | inr _ => True
                       end)).
  { apply yields_fs_read; [| intros; exact I].
    intros m f a [mode Hm] Hf Hk. split; [| eexists; exact Hm].
    rewrite Hm in Hf. injection Hf as <-. injection Hk as <-. reflexivity. }
  intros [sum | err]; [| intros s _; exact I].
  apply triple_assume. intros ->.
  destruct (String.eqb_spec (Body checksumResp) (hex.EncodeToString (md5_Sum (Body resp))))
    as [He | He]; cbn [negb]; [| intros s _; exact I].
  (* the archive *)
  apply (triple_bind
           (fun err m => match err with
                         | None => strings.HasSuffix downloadURL ".tgz" = false ->
                                   exists mode, m !! target
                                                = Some {| data := Body resp; perm := mode |}
                         | Some _ => True
                         end)).
  { destruct (strings.HasSuffix downloadURL ".tgz").
    - intros s Hs. destruct (yields_untgzFile (fun _ => True) target s I) as (a & Ha & _).
      exists a. split; [exact Ha |]. destruct a; [exact I | discriminate].
    - apply yields_ret. intros m Hm _. exact Hm. }
  intros [err |]; [intros s _; exact I |].
  (* os.Chmod *)
  apply (triple_bind
           (fun err m => match err with
                         | None => exists f, m !! target = Some f /\ perm f = 493%N /\
                                     (strings.HasSuffix downloadURL ".tgz" = false ->
                                      data f = Body resp)
                         | Some _ => True
                         end)).
  { apply yields_fs_call; [| intros; exact I].
    intros m Hm Hex. unfold exists_at in Hex.
    destruct (m !! target) as [f |] eqn:Hf; [| discriminate Hex].
    eexists. split; [apply (set_mode_at _ _ _ _ Hf) |]. split; [reflexivity |].
    intros Htgz. destruct (Hm Htgz) as [mode Hm']. injection Hm' as ->. reflexivity. }
  intros [err |]; [intros s _; exact I |].
  (* os.Remove of the backup *)
  apply (triple_bind
           (fun _ m => exists f, m !! target = Some f /\ perm f = 493%N /\
                         (strings.HasSuffix downloadURL ".tgz" = false ->
                          data f = Body resp))).
  { apply yields_fs_call; [| intros m Hm; exact Hm].
    intros m (f & Hf & Hrest) _. exists f. split; [| exact Hrest].
    rewrite lookup_delete_ne by exact Hb. exact Hf. }
  intros _. unfold fmt_Print. apply triple_bind_observe.
  (* syscall.Exec *)
  intros s (f & Hf & Hp & Hd). unfold syscall_Exec. cbn [result final fs].
  destruct (no_fault (next_fault s) && exists_at (fs s) target); [| exact I].
  exists exe, resp, checksumResp, f. repeat split; assumption.
Qed.

(** X16.  The process image is replaced only by the verified download: when an
    attempt ends in the replacement of the process, whatever the host
    answered and whichever calls failed on the way, the program started is
    the resolved executable, the artifact and the checksum object were
    delivered completely, the checksum object is the digest of the
    artifact, and the executable has mode 0755 and, unless the URL ends in
    [.tgz], holds the bytes of the artifact. *)
Theorem replaced_only_when_verified (downloadURL checksumURL version : string)
    (s : State) (path : string) :
  let r := downloadUpdate downloadURL checksumURL version s in
  result r = Replaced path ->
  exists exe resp checksumResp f,
    executable = Some exe /\ symlinks exe = Some path /\
    http downloadURL = Some resp /\ complete resp = true /\
    http checksumURL = Some checksumResp /\ complete checksumResp = true /\
    Body checksumResp = hex.EncodeToString (md5_Sum (Body resp)) /\
    fs (final r) !! path = Some f /\ perm f = 493%N /\
    (strings.HasSuffix downloadURL ".tgz" = false -> data f = Body resp).
Proof.
  intros r H.
  pose proof (downloadUpdate_ends downloadURL checksumURL version (fs s) s eq_refl) as HT.
  fold r in HT. rewrite H in HT. exact HT.
Qed.

(** X17.  An attempt returns no error only when it has changed nothing: the one
    place that returns [nil] is the failure of [os.Stat], before any file
    is renamed or written. *)
Theorem quiet_attempt_changes_nothing (downloadURL checksumURL version : string)
    (s : State) :
  let r := downloadUpdate downloadURL checksumURL version s in
  result r = Returns None -> fs (final r) = fs s.
Proof.
  intros r H.
  pose proof (downloadUpdate_ends downloadURL checksumURL version (fs s) s eq_refl) as HT.
  fold r in HT. rewrite H in HT. exact HT.
Qed.

(** X18.  An attempt never calls [os.Exit]; it ends the process in one way
    only, the panic inside the copy through the progress reader.  The
    status is then that of a panic, and the filesystem is the one the
    renaming to the backup path left (whether it succeeded or not), with
    the target created or emptied and some first bytes of the artifact
    written into it: nothing is renamed back. *)
Theorem attempt_exit_is_copy_panic (downloadURL checksumURL version : string) (s : State)
    (code : Z) :
  let r := downloadUpdate downloadURL checksumURL version s in
  result r = Exits code ->
  code = panic_status /\
  exists exe target resp n parked,
    executable = Some exe /\ symlinks exe = Some target /\
    http downloadURL = Some resp /\
    (parked = fs s \/ parked = move target (target +:+ ".bak") (fs s)) /\
    fs (final r) = write_bytes target (strings.take n (Body resp))
                     (truncate_or_create target (N.ldiff 493 umask) parked).
Proof.
  intros r H.
  pose proof (downloadUpdate_ends downloadURL checksumURL version (fs s) s eq_refl) as HT.
  fold r in HT. rewrite H in HT. exact HT.
Qed.

(** X19.  When [AutoUpdate] ends the process, the status is 0 or that of a
    panic.  With status 0 the filesystem is as it was before the call.
    With the status of a panic the filesystem is the one an attempt leaves
    that panicked inside the copy: the original renamed to the backup path
    (or still in place, if that renaming failed) and the target created or
    emptied, with some bytes written into it. *)
Theorem exit_status_and_filesystem (u : Updater) (s : State) (code : Z) :
  let r := AutoUpdate u s in
  result r = Exits code ->
  (code = 0%Z /\ fs (final r) = fs s) \/
  (code = panic_status /\
   exists target bytes parked,
     (parked = fs s \/ parked = move target (target +:+ ".bak") (fs s)) /\
     fs (final r) = write_bytes target bytes
                      (truncate_or_create target (N.ldiff 493 umask) parked)).
Proof.
  intros r H.
  enough (HT : triple (fun m => m = fs s) (AutoUpdate u)
                 (fun c m =>
                    match c with
                    | Exits code =>
                        (code = 0%Z /\ m = fs s) \/
                        (code = panic_status /\
                         exists target bytes parked,
                           (parked = fs s \/
                            parked = move target (target +:+ ".bak") (fs s)) /\
                           m = write_bytes target bytes
                                 (truncate_or_create target (N.ldiff 493 umask) parked))
                    | _ => True
                    end)).
  { specialize (HT s eq_refl). fold r in HT. rewrite H in HT. exact HT. }
  clear r H. unfold AutoUpdate.
  destruct (negb (String.eqb (os_Getenv "S3UPDATE_DISABLED") ""));
    [intros s' _; exact I |].
  destruct (validate u) as [err |]; [intros s' _; exact I |].
  unfold runAutoUpdate.
  destruct (negb (semver_IsValid (CurrentVersion u))); [intros s' _; exact I |].
  apply (triple_bind (fun _ m => m = fs s)).
  { apply yields_fetchRemoteVersion. intros a m Hm. exact Hm. }
  intros [v [err |]]; [intros s' _; exact I |].
  destruct (semver_Compare (CurrentVersion u) v =? -1)%Z.
  - unfold fmt_Print at 1. apply triple_bind_observe.
    apply (triple_bind (fun _ m => m = fs s)).
    { destruct (Verbose u); intros s' Hs'; exists tt; (split; [reflexivity | exact Hs']). }
    intros _.
    eapply triple_bind_any; [apply downloadUpdate_ends | | |].
    + intros [err |]; [intros s' _; exact I |].
      intros s' Hs'. cbn. left. split; [reflexivity | exact Hs'].
    + intros c f (-> & exe & target & resp & n & parked & _ & _ & _ & Hp & ->).
      right. split; [reflexivity |]. eauto.
    + intros path f _. exact I.
  - destruct (Verbose u); intros s' _; exact I.
Qed.

End Triples.

(** ** The requests of an attempt *)

Section Requests.
Context {libs : Libraries} {host : Host}.

Lemma offline_ret {A : Type} (a : A) : offline (ret a).
Proof. intros s. reflexivity. Qed.

Lemma offline_bind {A B : Type} (m : Go A) (k : A -> Go B) :
  offline m -> (forall a, offline (k a)) -> offline (bind m k).
Proof.
  intros Hm Hk s. unfold bind.
  destruct (result (m s)) as [a | code | path]; cbn [after_calls trace]; [| apply Hm ..].
  now rewrite network_calls_app, Hm, Hk.
Qed.

Lemma offline_fs_call (c : Call) (pre : FS -> bool) (eff : FS -> FS) :
  (forall url, c <> HttpGet url) -> offline (fs_call c pre eff).
Proof.
  intros Hc s. unfold fs_call, network_calls. cbn.
  destruct c; try reflexivity. now destruct (Hc url).
Qed.

Lemma offline_fs_read {A : Type} (c : Call) (path : string) (k : string -> option A) :
  (forall url, c <> HttpGet url) -> offline (fs_read c path k).
Proof.
  intros Hc s. unfold fs_read, network_calls. cbn.
  destruct c; try reflexivity. now destruct (Hc url).
Qed.

Lemma offline_fs_write (c : Call) (path bytes : string) (sound : option error) :
  (forall url, c <> HttpGet url) -> offline (fs_write c path bytes sound).
Proof.
  intros Hc s. unfold fs_write, network_calls.
  destruct (next_fault s); cbn; destruct c; try reflexivity; now destruct (Hc url).
Qed.

Lemma offline_io_Copy (path : string) (resp : Response) : offline (io_Copy path resp).
Proof.
  intros s. unfold io_Copy, fs_write, network_calls.
  destruct (next_fault s); reflexivity.
Qed.

Lemma offline_untgzFile (filename : string) : offline (untgzFile filename).
Proof.
  unfold untgzFile.
  apply offline_bind; [apply offline_fs_call; discriminate |].
  intros [err |]; [apply offline_ret |].
  apply offline_bind; [apply offline_fs_read; discriminate |].
  intros [stream | err]; [| apply offline_ret].
  apply offline_bind; [apply offline_fs_read; discriminate |].
  intros [[Typeflag entry] | err]; [| apply offline_ret].
  destruct (negb (Ascii.eqb Typeflag tar_TypeReg)); [apply offline_ret |].
  apply offline_bind; [apply offline_fs_read; discriminate |].
  intros [bytes | err]; [| apply offline_ret].
  apply offline_bind; [apply offline_fs_call; discriminate |].
  intros _.
  apply offline_bind; [apply offline_fs_call; discriminate |].
  intros [err |]; [apply offline_ret |].
  apply offline_fs_write; discriminate.
Qed.

Lemma bind_observe {A B : Type} (c : Call) (good : bool) (a : A) (k : A -> Go B)
    (s : State) :
  bind (observe c good a) k s
  = after_calls [{| call := c; ok := good; after := fs s |}] (k a s).
Proof. reflexivity. Qed.

(** X20.  An attempt requests the artifact and then, if that request was
    answered, the checksum object, and nothing else, however it goes on:
    the archive is not fetched again, and no request follows a failure. *)
Theorem attempt_requests (downloadURL checksumURL version : string) (s : State) :
  network_calls (trace (downloadUpdate downloadURL checksumURL version s))
  = downloadURL :: match http downloadURL with
                   | Some _ => [checksumURL]
                   | None => []
                   end.
Proof.
  assert (Hrestore : forall (a b : string) (err : error),
            offline (os_Rename a b ;;; ret (Some err))).
  { intros a b err. apply offline_bind; [apply offline_fs_call; discriminate |].
    intros _. apply offline_ret. }
  unfold downloadUpdate, http_Get at 1.
  destruct (http downloadURL) as [resp |]; rewrite bind_observe;
    cbn [after_calls trace]; rewrite network_calls_app;
    cbn [network_calls flat_map call app]; [| reflexivity].
  f_equal. unfold http_Get at 1.
  destruct (http checksumURL) as [checksumResp |]; rewrite bind_observe;
    cbn [after_calls trace]; rewrite network_calls_app;
    cbn [network_calls flat_map call app]; [| reflexivity].
  f_equal.
  match goal with
  | |- network_calls (trace (?m ?s')) = [] => enough (H : offline m) by apply H
  end.
  unfold ioutil_ReadAll at 1. destruct (complete checksumResp); [| apply offline_ret].
  apply offline_bind.
  { unfold os_Executable. destruct executable; intros s'; reflexivity. }
  intros [exe | err]; [| apply offline_ret].
  apply offline_bind.
  { unfold filepath_EvalSymlinks. destruct (symlinks exe); intros s'; reflexivity. }
  intros [target | err]; [| apply offline_ret].
  apply offline_bind; [apply offline_fs_call; discriminate |].
  intros [err |]; [apply offline_ret |].
  apply offline_bind; [apply offline_fs_call; discriminate |].
  intros _.
  apply offline_bind; [apply offline_fs_call; discriminate |].
  intros [err |]; [apply Hrestore |].
  apply offline_bind; [apply offline_io_Copy |].
  intros [err |]; [apply Hrestore |].
  apply offline_bind; [apply offline_fs_call; discriminate |].
  intros [err |]; [apply offline_ret |].
  apply offline_bind; [apply offline_fs_read; discriminate |].
  intros [sum | err]; [| apply Hrestore].
  destruct (negb (String.eqb (Body checksumResp) (hex.EncodeToString sum)));
    [apply Hrestore |].
  apply offline_bind.
  { destruct (strings.HasSuffix downloadURL ".tgz");
      [apply offline_untgzFile | apply offline_ret]. }
  intros [err |]; [apply Hrestore |].
  apply offline_bind; [apply offline_fs_call; discriminate |].
  intros [err |]; [apply Hrestore |].
  apply offline_bind; [apply offline_fs_call; discriminate |].
  intros _.
  apply offline_bind; [intros s'; reflexivity |].
  intros _ s'. reflexivity.
Qed.

End Requests.

(** ** The further properties at the examples *)

Ltac evaluated := first [reflexivity | vm_compute; reflexivity].

Lemma invalid_configuration_skipped_witness :
  let host := example_host "" "v1.1.0" (whole "new-binary") (whole digest_of_new_binary) in
  let err := Errorf "no bucket set" in
  let s := {| fs := example_fs; faults := [] |} in
  AutoUpdate (platform := linux_amd64) (libs := example_libraries) (host := host)
    bucketless_updater s
  = {| result := Returns (Some err);
       final := s;
       trace := [{| call := Print ("s3update: " +:+ Error err
                                   +:+ " - skipping auto update" +:+ lf);
                    ok := true; after := fs s |}] |}.
Proof.
  intros host err s.
  refine (invalid_configuration_skipped (platform := linux_amd64)
            (libs := example_libraries) (host := host) bucketless_updater err s _ _).
  - reflexivity.
  - reflexivity.
Defined.

Lemma invalid_local_version_stops_witness :
  let host := example_host "" "v1.1.0" (whole "new-binary") (whole digest_of_new_binary) in
  let s := {| fs := example_fs; faults := [] |} in
  AutoUpdate (platform := linux_amd64) (libs := example_libraries) (host := host)
    unprefixed_updater s
  = {| result := Returns (Some (Errorf "invalid local version")); final := s; trace := [] |}.
Proof.
  intros host s.
  refine (invalid_local_version_stops (platform := linux_amd64)
            (libs := example_libraries) (host := host) unprefixed_updater s _ _ _).
  - reflexivity.
  - reflexivity.
  - reflexivity.
Defined.

Lemma remote_version_failure_stops_witness :
  let host := example_host "" "latest" (whole "new-binary") (whole digest_of_new_binary) in
  let u := example_updater in
  let s := {| fs := example_fs; faults := [] |} in
  let r := runAutoUpdate (platform := linux_amd64) (libs := example_libraries)
             (host := host) u s in
  (exists err, result r = Returns (Some err)) /\
  final r = s /\
  network_calls (trace r) = [version_object (S3Bucket u)] /\
  filesystem_calls (trace r) = [] /\
  (forall resp, http (Host := host) (version_object (S3Bucket u)) = Some resp ->
   complete resp = true ->
   result r = Returns (Some (Errorf ("remote version is invalid: "
                                     +:+ strings.TrimSpace (Body resp))))).
Proof.
  intros host u s.
  refine (remote_version_failure_stops (platform := linux_amd64)
            (libs := example_libraries) (host := host) u s _ _).
  - reflexivity.
  - right. exists (whole "latest"). split; [reflexivity | right; reflexivity].
Defined.

Lemma attempt_outcome_propagated_witness :
  let resp := whole "v1.1.0" in
  let host := example_host "" "v1.1.0" (whole "new-binary") (whole digest_of_other_file) in
  let u := example_updater in
  let s := {| fs := example_fs; faults := [] |} in
  let B := strings.TrimSpace (Body resp) in
  let d := downloadUpdate (libs := example_libraries) (host := host)
             (generateURL (H := linux_amd64) (S3Bucket u) (S3ReleaseKey u) B)
             (generateURL (H := linux_amd64) (S3Bucket u) (ChecksumKey u) B) B s in
  let r := runAutoUpdate (platform := linux_amd64) (libs := example_libraries)
             (host := host) u s in
  result r = match result d with
             | Returns (Some err) => Returns (Some err)
             | Returns None => Exits 0
             | Exits code => Exits code
             | Replaced path => Replaced path
             end /\
  final r = final d /\
  filesystem_calls (trace r) = filesystem_calls (trace d) /\
  network_calls (trace r) = version_object (S3Bucket u) :: network_calls (trace d).
Proof.
  intros resp host u s.
  refine (attempt_outcome_propagated (platform := linux_amd64)
            (libs := example_libraries) (host := host) u resp s _ _ _ _ _).
  - reflexivity.
  - reflexivity.
  - reflexivity.
  - reflexivity.
  - reflexivity.
Defined.

Lemma untgzFile_extracts_witness :
  let host := archive_host (whole example_archive) (whole digest_of_archive) in
  let f := {| data := example_archive; perm := 493 |} in
  let m : FS := {[ example_target := f ]} in
  let r := untgzFile (libs := archive_libraries) (host := host) example_target
             {| fs := m;
                faults := NoFault :: NoFault :: NoFault :: NoFault :: NoFault
                          :: NoFault :: NoFault :: [] |} in
  result r = Returns None /\
  fs (final r) !! example_target
  = Some {| data := "new-binary";
            perm := if no_fault NoFault then N.ldiff 438 (umask (Host := host))
                    else perm f |} /\
  forall p, p <> example_target -> fs (final r) !! p = m !! p.
Proof.
  intros host f m.
  refine (untgzFile_extracts (libs := archive_libraries) (host := host) example_target
            "0new-binary" "new-binary" f m NoFault [] _ _ _).
  - evaluated.
  - evaluated.
  - evaluated.
Defined.

Lemma untgzFile_refuses_other_entries_witness :
  let host := archive_host (whole example_archive) (whole digest_of_archive) in
  let f := {| data := example_directory_archive; perm := 493 |} in
  let m : FS := {[ example_target := f ]} in
  let r := untgzFile (libs := archive_libraries) (host := host) example_target
             {| fs := m; faults := NoFault :: NoFault :: NoFault :: [] |} in
  result r = Returns (Some (Errorf "gunzipping file: unknown file type")) /\
  fs (final r) = m /\
  filesystem_calls (trace r)
  = [Open example_target; GzipNewReader example_target; TarNext example_target].
Proof.
  intros host f m.
  refine (untgzFile_refuses_other_entries (libs := archive_libraries) (host := host)
            example_target "5new-binary" "new-binary" "5"%char f m [] _ _ _ _).
  - evaluated.
  - evaluated.
  - evaluated.
  - discriminate.
Defined.

Lemma untgzFile_touches_only_witness :
  let host := archive_host (whole example_archive) (whole digest_of_archive) in
  let s := {| fs := <[example_target := {| data := example_archive; perm := 493 |}]>
                      example_fs_with_passwd;
              faults := [] |} in
  fs (final (untgzFile (libs := archive_libraries) (host := host) example_target s))
  !! "/etc/passwd"
  = fs s !! "/etc/passwd".
Proof.
  intros host s.
  refine (untgzFile_touches_only (libs := archive_libraries) (host := host)
            example_target s "/etc/passwd" _).
  discriminate.
Defined.

Lemma downloadUpdate_touches_only_witness :
  let host := example_host "" "v1.1.0" (whole "new-binary") (whole digest_of_new_binary) in
  let s := {| fs := example_fs_with_passwd; faults := [] |} in
  fs (final (downloadUpdate (libs := example_libraries) (host := host)
               example_downloadURL example_checksumURL "v1.1.0" s)) !! "/etc/passwd"
  = fs s !! "/etc/passwd".
Proof.
  intros host s.
  refine (downloadUpdate_touches_only (libs := example_libraries) (host := host)
            example_downloadURL example_checksumURL "v1.1.0" example_target example_target
            s "/etc/passwd" _ _ _ _).
  - reflexivity.
  - reflexivity.
  - discriminate.
  - intros E. vm_compute in E. discriminate E.
Defined.

Lemma update_installed_witness :
  let resp := whole "new-binary" in
  let checksumResp := whole digest_of_new_binary in
  let host := example_host "" "v1.1.0" resp checksumResp in
  let target := example_target in
  let original := {| data := "old-binary"; perm := 493 |} in
  let r := downloadUpdate (libs := example_libraries) (host := host)
             example_downloadURL example_checksumURL "v1.1.0"
             {| fs := example_fs;
                faults := NoFault :: NoFault :: NoFault :: NoFault :: NoFault :: NoFault
                          :: NoFault :: NoFault :: NoFault :: [] |} in
  result r = Replaced target /\
  fs (final r) !! target = Some {| data := Body resp; perm := 493 |} /\
  fs (final r) !! (target +:+ ".bak") = (if no_fault NoFault then None else Some original) /\
  last (map call (trace r)) = Some (Exec target).
Proof.
  intros resp checksumResp host target original.
  refine (update_installed (libs := example_libraries) (host := host)
            example_downloadURL example_checksumURL "v1.1.0" resp checksumResp
            example_target target original example_fs NoFault [] _ _ _ _ _ _ _ _ _).
  - reflexivity.
  - reflexivity.
  - reflexivity.
  - reflexivity.
  - reflexivity.
  - reflexivity.
  - evaluated.
  - vm_compute. reflexivity.
  - reflexivity.
Defined.

Lemma archive_installed_witness :
  let resp := whole example_archive in
  let checksumResp := whole digest_of_archive in
  let host := archive_host resp checksumResp in
  let target := example_target in
  let original := {| data := "old-binary"; perm := 493 |} in
  let r := downloadUpdate (libs := archive_libraries) (host := host)
             example_archiveURL example_archive_checksumURL "v1.1.0"
             {| fs := example_fs;
                faults := NoFault :: NoFault :: NoFault :: NoFault :: NoFault :: NoFault
                          :: NoFault :: NoFault :: NoFault :: NoFault :: NoFault :: NoFault
                          :: NoFault
                          :: NoFault :: NoFault :: NoFault :: [] |} in
  result r = Replaced target /\
  fs (final r) !! target = Some {| data := "new-binary"; perm := 493 |} /\
  fs (final r) !! (target +:+ ".bak") = (if no_fault NoFault then None else Some original) /\
  last (map call (trace r)) = Some (Exec target).
Proof.
  intros resp checksumResp host target original.
  refine (archive_installed (libs := archive_libraries) (host := host)
            example_archiveURL example_archive_checksumURL "v1.1.0" resp checksumResp
            example_target target "0new-binary" "new-binary" original example_fs
            NoFault NoFault [] _ _ _ _ _ _ _ _ _ _ _).
  - reflexivity.
  - reflexivity.
  - reflexivity.
  - reflexivity.
  - reflexivity.
  - reflexivity.
  - evaluated.
  - vm_compute. reflexivity.
  - reflexivity.
  - reflexivity.
  - reflexivity.
Defined.

Lemma interrupted_download_rolled_back_witness :
  let resp := whole "new-binary" in
  let checksumResp := whole digest_of_new_binary in
  let host := example_host "" "v1.1.0" resp checksumResp in
  let target := example_target in
  let original := {| data := "old-binary"; perm := 493 |} in
  let r := downloadUpdate (libs := example_libraries) (host := host)
             example_downloadURL example_checksumURL "v1.1.0"
             {| fs := example_fs;
                faults := NoFault :: NoFault :: NoFault :: Fails 3 :: NoFault :: [] |} in
  result r = Returns (Some (Failed (Copy target))) /\
  fs (final r) !! target = Some original /\
  fs (final r) !! (target +:+ ".bak") = None /\
  last (map call (trace r)) = Some (Rename (target +:+ ".bak") target).
Proof.
  intros resp checksumResp host target original.
  refine (interrupted_download_rolled_back (libs := example_libraries) (host := host)
            example_downloadURL example_checksumURL "v1.1.0" resp checksumResp
            example_target target original example_fs (Fails 3) (Failed (Copy target)) []
            _ _ _ _ _ _ _).
  - reflexivity.
  - reflexivity.
  - reflexivity.
  - reflexivity.
  - reflexivity.
  - evaluated.
  - right. exists 3%nat. split; reflexivity.
Defined.

Lemma copy_panic_not_rolled_back_witness :
  let resp := whole "new-binary" in
  let checksumResp := whole digest_of_new_binary in
  let host := example_host "" "v1.1.0" resp checksumResp in
  let target := example_target in
  let original := {| data := "old-binary"; perm := 493 |} in
  let r := downloadUpdate (libs := example_libraries) (host := host)
             example_downloadURL example_checksumURL "v1.1.0"
             {| fs := example_fs;
                faults := NoFault :: NoFault :: NoFault :: Panics 3 :: [] |} in
  result r = Exits panic_status /\
  fs (final r) !! target
  = Some {| data := strings.take 3 (Body resp);
            perm := N.ldiff 493 (umask (Host := host)) |} /\
  fs (final r) !! (target +:+ ".bak") = Some original /\
  last (map call (trace r)) = Some (Copy target) /\
  ~ In (Rename (target +:+ ".bak") target) (map call (trace r)).
Proof.
  intros resp checksumResp host target original.
  refine (copy_panic_not_rolled_back (libs := example_libraries) (host := host)
            example_downloadURL example_checksumURL "v1.1.0" resp checksumResp
            example_target target original example_fs 3 [] _ _ _ _ _ _).
  - reflexivity.
  - reflexivity.
  - reflexivity.
  - reflexivity.
  - reflexivity.
  - evaluated.
Defined.

Lemma attempt_exit_is_copy_panic_witness :
  let host := example_host "" "v1.1.0" (whole "new-binary") (whole digest_of_new_binary) in
  let s := {| fs := example_fs;
              faults := NoFault :: NoFault :: NoFault :: Panics 3 :: [] |} in
  let r := downloadUpdate (libs := example_libraries) (host := host)
             example_downloadURL example_checksumURL "v1.1.0" s in
  panic_status = panic_status /\
  exists exe target resp n parked,
    executable (Host := host) = Some exe /\ symlinks (Host := host) exe = Some target /\
    http (Host := host) example_downloadURL = Some resp /\
    (parked = fs s \/ parked = move target (target +:+ ".bak") (fs s)) /\
    fs (final r) = write_bytes target (strings.take n (Body resp))
                     (truncate_or_create target (N.ldiff 493 (umask (Host := host)))
                        parked).
Proof.
  intros host s.
  refine (attempt_exit_is_copy_panic (libs := example_libraries) (host := host)
            example_downloadURL example_checksumURL "v1.1.0" s panic_status _).
  vm_compute. reflexivity.
Defined.

Lemma attempt_fails_before_filesystem_witness :
  let host := example_host "" "v1.1.0" (whole "new-binary") (whole digest_of_new_binary) in
  let s := {| fs := example_fs; faults := [] |} in
  let r := downloadUpdate (libs := example_libraries) (host := host)
             "https://releases.s3.amazonaws.com/absent" example_checksumURL "v1.1.0" s in
  (exists err, result r = Returns (Some err)) /\ final r = s /\
  Forall (fun st => after st = fs s) (trace r) /\
  Forall (fun c => c = Executable \/ exists path, c = EvalSymlinks path)
    (filesystem_calls (trace r)).
Proof.
  intros host s.
  refine (attempt_fails_before_filesystem (libs := example_libraries) (host := host)
            "https://releases.s3.amazonaws.com/absent" example_checksumURL "v1.1.0" s _).
  left. reflexivity.
Defined.

Lemma replaced_only_when_verified_witness :
  let host := example_host "" "v1.1.0" (whole "new-binary") (whole digest_of_new_binary) in
  let s := {| fs := example_fs; faults := [] |} in
  let r := downloadUpdate (libs := example_libraries) (host := host)
             example_downloadURL example_checksumURL "v1.1.0" s in
  exists exe resp checksumResp f,
    executable (Host := host) = Some exe /\ symlinks (Host := host) exe = Some example_target /\
    http (Host := host) example_downloadURL = Some resp /\ complete resp = true /\
    http (Host := host) example_checksumURL = Some checksumResp /\
    complete checksumResp = true /\
    Body checksumResp
    = hex.EncodeToString (md5_Sum (Libraries := example_libraries) (Body resp)) /\
    fs (final r) !! example_target = Some f /\ perm f = 493%N /\
    (strings.HasSuffix example_downloadURL ".tgz" = false -> data f = Body resp).
Proof.
  intros host s.
  refine (replaced_only_when_verified (libs := example_libraries) (host := host)
            example_downloadURL example_checksumURL "v1.1.0" s example_target _).
  vm_compute. reflexivity.
Defined.

Lemma quiet_attempt_changes_nothing_witness :
  let host := example_host "" "v1.1.0" (whole "new-binary") (whole digest_of_new_binary) in
  let s := {| fs := ∅; faults := [] |} in
  let r := downloadUpdate (libs := example_libraries) (host := host)
             example_downloadURL example_checksumURL "v1.1.0" s in
  fs (final r) = fs s.
Proof.
  intros host s.
  refine (quiet_attempt_changes_nothing (libs := example_libraries) (host := host)
            example_downloadURL example_checksumURL "v1.1.0" s _).
  vm_compute. reflexivity.
Defined.

Lemma exit_status_and_filesystem_witness :
  let host := example_host "" "v1.1.0" (whole "new-binary") (whole digest_of_new_binary) in
  let s := {| fs := ∅; faults := [] |} in
  let r := AutoUpdate (platform := linux_amd64) (libs := example_libraries) (host := host)
             example_updater s in
  (0%Z = 0%Z /\ fs (final r) = fs s) \/
  (0%Z = panic_status /\
   exists target bytes parked,
     (parked = fs s \/ parked = move target (target +:+ ".bak") (fs s)) /\
     fs (final r) = write_bytes target bytes
                      (truncate_or_create target (N.ldiff 493 (umask (Host := host)))
                         parked)).
Proof.
  intros host s.
  refine (exit_status_and_filesystem (platform := linux_amd64)
            (libs := example_libraries) (host := host) example_updater s 0 _).
  vm_compute. reflexivity.
Defined.

Lemma original_kept_when_parked_witness :
  let host := example_host "" "v1.1.0" (whole "new-binary") (whole digest_of_other_file) in
  Forall (original_kept "old-binary" example_target)
    (before_commit example_target
       (trace (downloadUpdate (libs := example_libraries) (host := host)
                 example_downloadURL example_checksumURL "v1.1.0"
                 {| fs := example_fs; faults := [] |}))).
Proof.
  intros host.
  refine (original_kept_when_parked (libs := example_libraries) (host := host)
            example_downloadURL example_checksumURL "v1.1.0" example_target example_target
            "old-binary" example_fs [] _ _ _ _).
  - reflexivity.
  - reflexivity.
  - evaluated.
  - reflexivity.
Defined.

Lemma failure_paths_restore_witness :
  let host := example_host "" "v1.1.0" (whole "new-binary") (whole digest_of_other_file) in
  let target := example_target in
  let err := Errorf "v1.1.0 checksum mismatch" in
  let r := downloadUpdate (libs := example_libraries) (host := host)
             example_downloadURL example_checksumURL "v1.1.0"
             {| fs := example_fs; faults := [] |} in
  last (map call (trace r)) = Some (Rename (target +:+ ".bak") target) \/
  err = Failed (Open target) \/ err = Failed (Exec target).
Proof.
  intros host target err.
  refine (failure_paths_restore (libs := example_libraries) (host := host) target
            example_downloadURL example_checksumURL "v1.1.0" example_target
            example_fs [] err _ _ _ _).
  - reflexivity.
  - reflexivity.
  - vm_compute. reflexivity.
  - vm_compute. do 5 right. left. reflexivity.
Defined.
